(** * Orchids account provisioning: a model of [orchids_register.py]

    The file follows the layout of the script.  First the data and the pure
    parts: Python strings, the regular expression of [wait_for_code], the
    clean-up of a message body, the scan of the cookie jar.  Then the
    effectful functions ([upload_to_server], [create_temp_email],
    [wait_for_code], [force_inject_turnstile], [register_one_account],
    [main]) in a small monad of state, exceptions, early return and an event
    trace, run against an arbitrary environment (browser, mailbox backend,
    credential store).  The properties come last. *)

From Stdlib Require Import Ascii String.
From stdpp Require Import base tactics option list numbers gmap.

Set Default Proof Using "Type".
Local Open Scope Z_scope.

(** ** Python strings *)

(** A Python [str] is a sequence of Unicode code points. *)
Definition str := list N.

(** A literal of the source text. *)
Definition lit (s : string) : str := N_of_ascii <$> list_ascii_of_string s.

(** [s.startswith(needle)]. *)
Fixpoint starts_with (needle hay : str) : bool :=
  match needle, hay with
  | [], _ => true
  | _ :: _, [] => false
  | a :: needle', b :: hay' => (a =? b)%N && starts_with needle' hay'
  end.

(** [needle in hay]. *)
Fixpoint contains (needle hay : str) : bool :=
  starts_with needle hay ||
  match hay with
  | [] => false
  | _ :: hay' => contains needle hay'
  end.

(** Truth value of a [str]: only the empty string is falsy. *)
Definition truthy (s : str) : bool :=
  match s with [] => false | _ :: _ => true end.

(** The tables of the Python runtime that the script relies on: the classes
    [\d] and [\s] of [re] on [str] patterns (Unicode decimal digits and
    white space, the latter also used by [str.strip]), [html.unescape] and
    [str.lower].  They are not part of the repository and are taken as
    parameters. *)
Class PyRuntime := {
  is_digit : N → bool;
  is_space : N → bool;
  html_unescape : str → str;
  str_lower : str → str;
}.

(** ** The code extractor: [re.search(r'(?<!\d)(\d{6})(?!\d)', source)] *)

Section Extractor.
Context {char : Type} (digit : char → bool).

(** [\d{n}] at the head of [s]. *)
Fixpoint digits_prefix (n : nat) (s : list char) : bool :=
  match n with
  | O => true
  | S n' =>
      match s with
      | [] => false
      | c :: s' => digit c && digits_prefix n' s'
      end
  end.

(** [(?<!\d)]: [prev] is the character before the current position. *)
Definition lookbehind_ok (prev : option char) : bool :=
  match prev with
  | None => true
  | Some c => negb (digit c)
  end.

(** [(?!\d)] at the head of [s]. *)
Definition lookahead_ok (s : list char) : bool :=
  match s with
  | [] => true
  | c :: _ => negb (digit c)
  end.

(** The whole pattern anchored at the current position; the result is
    [group(1)]. *)
Definition match_here (prev : option char) (s : list char) : option (list char) :=
  if lookbehind_ok prev && digits_prefix 6 s && lookahead_ok (drop 6 s)
  then Some (take 6 s)
  else None.

(** [re.search] tries the start positions from left to right; the result
    carries the offset of the match from the current position. *)
Fixpoint search_from (prev : option char) (s : list char)
  : option (nat * list char) :=
  match match_here prev s with
  | Some g => Some (O, g)
  | None =>
      match s with
      | [] => None
      | c :: s' =>
          match search_from (Some c) s' with
          | Some (i, g) => Some (S i, g)
          | None => None
          end
      end
  end.

(** [re.search(regex_strict, s)]: start offset and [group(1)]. *)
Definition re_search (s : list char) : option (nat * list char) :=
  search_from None s.

(** [match.group(1)] of the first match, [None] when there is none. *)
Definition extract_code (s : list char) : option (list char) :=
  snd <$> re_search s.

(** *** Vocabulary of the specification *)

Definition digit_at (s : list char) (i : nat) : Prop :=
  ∃ c, s !! i = Some c ∧ digit c = true.

(** Positions [a, a + n) of [s] are all digits. *)
Definition digit_run (s : list char) (a n : nat) : Prop :=
  ∀ k, (a ≤ k < a + n)%nat → digit_at s k.

(** A maximal digit run of length exactly 6 starts at [i]: six digits, no
    digit just before, no digit just after. *)
Definition isolated6 (s : list char) (i : nat) : Prop :=
  digit_run s i 6 ∧ (∀ k, S k = i → ¬ digit_at s k) ∧ ¬ digit_at s (i + 6).

Definition first_isolated6 (s : list char) (i : nat) : Prop :=
  isolated6 s i ∧ ∀ j, (j < i)%nat → ¬ isolated6 s j.

(** The same with the character before position 0 given apart, as
    [search_from] sees it. *)
Definition isolated6_after (prev : option char) (s : list char) (i : nat) : Prop :=
  digit_run s i 6 ∧ ¬ digit_at s (i + 6) ∧
  match i with
  | O => lookbehind_ok prev = true
  | S k => ¬ digit_at s k
  end.
End Extractor.

(** ** Clean-up of a message body in [wait_for_code] *)

Section Normalize.
Context {py : PyRuntime}.

Definition LT : N := 60.   (* '<' *)
Definition GT : N := 62.   (* '>' *)
Definition SPACE : N := 32.

(** Number of characters up to and including the first ['>'] of [s]. *)
Fixpoint tag_close (s : str) : option nat :=
  match s with
  | [] => None
  | c :: s' => if (c =? GT)%N then Some 1%nat else S <$> tag_close s'
  end.

(** [<[^>]+>] with the ['<'] already read: the length of the rest of the
    match, which holds at least one character before the ['>']. *)
Definition tag_match (s : str) : option nat :=
  match tag_close s with
  | Some (S (S n)) => Some (S (S n))
  | _ => None
  end.

(** [re.sub(r'<[^>]+>', ' ', s)]; [skip] characters of a match remain to be
    dropped. *)
Fixpoint strip_tags_from (skip : nat) (s : str) : str :=
  match s with
  | [] => []
  | c :: s' =>
      match skip with
      | S k => strip_tags_from k s'
      | O =>
          if (c =? LT)%N then
            match tag_match s' with
            | Some n => SPACE :: strip_tags_from n s'
            | None => c :: strip_tags_from O s'
            end
          else c :: strip_tags_from O s'
      end
  end.

Definition strip_tags (s : str) : str := strip_tags_from O s.

(** [re.sub(r'\s+', ' ', s)]; [in_run] tells that the previous character was
    white space. *)
Fixpoint collapse_spaces (in_run : bool) (s : str) : str :=
  match s with
  | [] => []
  | c :: s' =>
      if is_space c
      then (if in_run then collapse_spaces true s'
            else SPACE :: collapse_spaces true s')
      else c :: collapse_spaces false s'
  end.

Fixpoint lstrip (s : str) : str :=
  match s with
  | [] => []
  | c :: s' => if is_space c then lstrip s' else s
  end.

(** [s.strip()]. *)
Definition strip (s : str) : str := reverse (lstrip (reverse (lstrip s))).

(** Lines 111-113 of the script. *)
Definition clean_content (raw_content : str) : str :=
  let text_content := html_unescape raw_content in
  let text_content := strip_tags text_content in
  strip (collapse_spaces false text_content).
End Normalize.

(** ** Data exchanged with the outside world *)

(** The ids of mailbox messages are JSON values used as members of a Python
    [set]: any type with a decidable equality that can be counted. *)
Class MailIds := {
  ID : Type;
  #[global] ID_eq_dec :: EqDecision ID;
  #[global] ID_countable :: Countable ID;
}.

(** The Python exceptions the script tells apart: [except ImportError],
    [except Exception] and the bare [except:].  A tag is the most specific of
    the three classes the raised object belongs to; [BaseException] stands for
    [KeyboardInterrupt], [SystemExit] and the like. *)
Inductive exn := ImportError | Exception | BaseException.

Definition is_ImportError (e : exn) : bool :=
  match e with ImportError => true | _ => false end.

Definition is_Exception (e : exn) : bool :=
  match e with BaseException => false | _ => true end.

Definition any_exn (e : exn) : bool := true.

(** What an outside call gives back. *)
Inductive reply (X : Type) := Ok (x : X) | Raise (e : exn).
Arguments Ok {X} x.
Arguments Raise {X} e.

(** A field of a JSON object that the script expects to be a string. *)
Inductive jval :=
| JMissing            (* the key is absent *)
| JStr (s : str)
| JFalsy              (* null, 0, false, an empty list or object *)
| JTruthy.            (* any other value that is not a string *)

(** [x or y] on such values; an absent key reads as [None]. *)
Definition jtruthy (v : jval) : bool :=
  match v with
  | JStr s => truthy s
  | JTruthy => true
  | JMissing | JFalsy => false
  end.

Definition jor (a b : jval) : jval := if jtruthy a then a else b.

(** The [id] of a message: a value that can be hashed, or one that cannot
    (a list or an object), on which [in] raises [TypeError]. *)
Inductive id_field {ids : MailIds} := Hashable (i : ID) | Unhashable.

(** An entry of [data.emails] in the answer of [GET /api/emails]. *)
Record message {ids : MailIds} := Message {
  m_id : id_field;
  m_subject : jval;
  m_content : jval;
  m_html_content : jval;
}.
Arguments Message {_} _ _ _ _.

(** A cookie as the browser reports it; [name] and [value] are read with
    [cookie.get(k)], [domain] with [cookie.get('domain', '')]. *)
Record cookie := Cookie {
  c_name : option str;
  c_domain : str;
  c_value : option str;
}.

(** The JSON body of the upload (lines 61-66). *)
Record payload := Payload {
  p_name : N;             (* "auto-" followed by [int(time.time())] *)
  p_client_cookie : str;
  p_weight : Z;
  p_enabled : bool;
}.

Definition handle := N.   (* the driver object *)
Definition elem := N.     (* a WebElement *)

(** The locators of the script. *)
Inductive locator :=
| XSignIn           (* //button[contains(text(), 'Sign in')] | //a[...] *)
| XWelcome          (* //*[contains(text(), 'Welcome back')] | //*[...'Sign in')] *)
| XSignUp           (* //a[contains(text(), 'Sign up')] | //button[...] *)
| CssEmailAddress   (* input[name='emailAddress'] *)
| CssPassword       (* input[name='password'] *)
| XContinue         (* //button[contains(text(), 'Continue')] *)
| CssNumeric        (* input[inputmode='numeric'] *)
| NameUsername      (* By.NAME, "username" *)
| TagButton         (* By.TAG_NAME, "button" *)
| TagIframe.        (* By.TAG_NAME, "iframe" *)

(** [expected_conditions]. *)
Inductive condition :=
| element_to_be_clickable (l : locator)
| visibility_of_element_located (l : locator)
| presence_of_element_located (l : locator).

(** Calls on the driver object. *)
Inductive drv_op : Type → Type :=
| SetPageLoadTimeout (secs : N) : drv_op unit
| Get (url : string) : drv_op unit
| WaitUntil (timeout : N) (c : condition) : drv_op elem
| FindElement (l : locator) : drv_op elem
| FindElements (l : locator) : drv_op (list elem)
| Click (e : elem) : drv_op unit
| ScriptClick (e : elem) : drv_op unit   (* execute_script("arguments[0].click();", e) *)
| SendKeys (e : elem) (keys : str) : drv_op unit
| Submit (e : elem) : drv_op unit
| ElemText (e : elem) : drv_op str
| CurrentUrl : drv_op str
| FindAndClick : drv_op bool             (* execute_script(js_find_and_click), as a truth value *)
| SwitchToFrame (frame : elem) : drv_op unit
| SwitchToDefault : drv_op unit
| CdpGetAllCookies : drv_op (list cookie) (* execute_cdp_cmd(...).get('cookies', []) *)
| GetCookies : drv_op (list cookie)
| ServiceStop : drv_op unit              (* driver.service.stop() *)
| Quit : drv_op unit.

(** Calls that leave the process. *)
Inductive op {ids : MailIds} : Type → Type :=
| ImportDeps : op unit                   (* lines 134-137 *)
| Chrome (options : list string) : op handle
| Drv (d : handle) {X : Type} (c : drv_op X) : op X
| MailGenerate : op (option str)
    (* GET /api/generate-email: [Some email] when [success] is truthy *)
| MailFetch (email : str) : op (list message)
    (* GET /api/emails: the list [data.emails] *)
| HttpPost (url : str) (body : payload) (auth : string * string) : op N.
    (* requests.post: the status code *)

(** ** Standard output *)

Inductive level := INFO | ERR.

(** The messages of the calls of [log], in the order of the script. *)
Inductive msg :=
| MsgUploading                          (* line 68 *)
| MsgUploadSaved                        (* line 71 *)
| MsgUploadRefused (status : N)         (* line 74 *)
| MsgUploadError (e : exn)              (* line 76 *)
| MsgMailRequest                        (* line 81 *)
| MsgMailAddress (email : str)          (* line 85 *)
| MsgMailError (e : exn)                (* line 88 *)
| MsgListening (email : str)            (* line 92 *)
| MsgNewMail (subject : jval)           (* line 115 *)
| MsgCode (code : str)                  (* line 121 *)
| MsgMissingDeps (e : exn)              (* line 139 *)
| MsgInstallHint                        (* line 140 *)
| MsgVisiting                           (* line 159 *)
| MsgSignInFallback (e : exn)           (* line 171 *)
| MsgContinue                           (* line 197 *)
| MsgVerifyMode                         (* line 204 *)
| MsgFieldShown                         (* line 208 *)
| MsgChallengeTimeout                   (* line 220 *)
| MsgAwaitCode                          (* line 224 *)
| MsgTypeCode (code : str)              (* line 229 *)
| MsgCdp                                (* line 247 *)
| MsgCookieCount (n : nat)              (* line 254 *)
| MsgCookieSeen (name domain : str)     (* line 262 *)
| MsgClerkHit                           (* line 267 *)
| MsgKeyOk                              (* line 270 *)
| MsgKeyMissing                         (* line 274 *)
| MsgCodeTimeout                        (* line 276 *)
| MsgAttemptError (e : exn)             (* line 279 *)
| MsgCaptchaMain                        (* line 323 *)
| MsgCaptchaFrame (index : nat)         (* line 331 *)
| MsgStart                              (* line 350 *)
| MsgConfigCount (total_num : Z)        (* line 351 *)
| MsgConfigServer (server_url : str)    (* line 352 *)
| MsgConfigHeadless (headless : bool)   (* line 353 *)
| MsgRest (wait_time : N).              (* line 362 *)

(** What a call of [print] writes.  [log] writes a line made of the time of
    day, the level and the message; the time of day is left out. *)
Inductive line :=
| ClientKeyLine (client_key : str)      (* line 55: CLIENT_KEY:<client_key> *)
| LogLine (lv : level) (m : msg)        (* line 35 *)
| BannerLine (current_idx total_count : Z)   (* line 131 *)
| RuleLine                              (* line 365 *)
| SummaryLine (success_count total_num : Z). (* line 366 *)

(** The two sources of a message that are searched for a code. *)
Inductive source := Subject | Body.

(** ** Events *)

(** The trace of a run: the outside calls with their replies, the pauses,
    the lines written, and two observation points that do not exist in the
    script and change nothing: [EvSearch id src] marks a call of [re.search]
    on a source of the message [id] (line 118), [EvAttempt ok] the return of
    [register_one_account] to [main] (line 356). *)
Inductive event {ids : MailIds} :=
| EvCall {X : Type} (o : op X) (r : reply X)
| EvSleep (secs : N)
| EvPrint (l : line)
| EvSearch (id : ID) (src : source)
| EvAttempt (ok : bool).

(** ** The environment *)

(** The outside world has a state [W]; it answers every call with a reply
    and the time the call took, a positive number of clock ticks, and hands
    out the random numbers.  [ticks_per_second] is the resolution of
    [time.time()]. *)
Class Env {ids : MailIds} := {
  W : Type;
  answer : ∀ X : Type, op X → W → reply X * positive * W;
  random : W → N * W;
  ticks_per_second : positive;
}.

(** ** The monad of the script *)

Section Monad.
Context {ids : MailIds} {env : Env}.

(** The local variables [L] of the running function, the outside world and
    the clock. *)
Record state (L : Type) := State {
  locals : L;
  world : W;
  clock : N;
}.
#[global] Arguments State {L} _ _ _.
#[global] Arguments locals {L} _.
#[global] Arguments world {L} _.
#[global] Arguments clock {L} _.

(** How a piece of a function body ends: it goes on with a value, raises, or
    executes [return v]. *)
Inductive ctl (R A : Type) :=
| Normal (a : A)
| Raised (e : exn)
| Returned (v : R).
#[global] Arguments Normal {R A} a.
#[global] Arguments Raised {R A} e.
#[global] Arguments Returned {R A} v.

Record result (L R A : Type) := Result {
  out : ctl R A;
  post : state L;
  emitted : list event;
}.
#[global] Arguments Result {L R A} _ _ _.
#[global] Arguments out {L R A} _.
#[global] Arguments post {L R A} _.
#[global] Arguments emitted {L R A} _.

Definition M (L R A : Type) : Type := state L → result L R A.

Definition ret {L R A} (a : A) : M L R A :=
  fun s => Result (Normal a) s [].

Definition bind {L R A B} (m : M L R A) (k : A → M L R B) : M L R B :=
  fun s =>
    let r := m s in
    match out r with
    | Normal a =>
        let r' := k a (post r) in
        Result (out r') (post r') (emitted r ++ emitted r')
    | Raised e => Result (Raised e) (post r) (emitted r)
    | Returned v => Result (Returned v) (post r) (emitted r)
    end.

(** [raise]. *)
Definition raise {L R A} (e : exn) : M L R A :=
  fun s => Result (Raised e) s [].

(** [return v]. *)
Definition return_ {L R A} (v : R) : M L R A :=
  fun s => Result (Returned v) s [].

(** Reading and writing the local variables. *)
Definition get_locals {L R} : M L R L :=
  fun s => Result (Normal (locals s)) s [].

Definition set_locals {L R} (f : L → L) : M L R unit :=
  fun s => Result (Normal tt) (State (f (locals s)) (world s) (clock s)) [].

Definition emit {L R} (e : event) : M L R unit :=
  fun s => Result (Normal tt) s [e].
End Monad.

Declare Scope prog_scope.
Delimit Scope prog_scope with prog.
Notation "x <- m ;; k" := (bind m (fun x => k))
  (at level 100, m at level 99, k at level 200, right associativity) : prog_scope.
Notation "m ;; k" := (bind m (fun _ => k))
  (at level 100, k at level 200, right associativity) : prog_scope.
Local Open Scope prog_scope.

Section Effects.
Context {ids : MailIds} {env : Env}.

(** A call that leaves the process: the environment answers, the clock
    advances by the time the call took, the call and its reply are recorded. *)
Definition call_env {L R X} (o : op X) : M L R X :=
  fun s =>
    let '(r, dt, w) := answer X o (world s) in
    Result (match r with Ok x => Normal x | Raise e => Raised e end)
           (State (locals s) w (clock s + Npos dt)%N)
           [EvCall o r].

Definition drv {L R X} (d : handle) (c : drv_op X) : M L R X :=
  call_env (Drv d c).

(** [time.sleep(secs)]. *)
Definition sleep {L R} (secs : N) : M L R unit :=
  fun s =>
    Result (Normal tt)
           (State (locals s) (world s) (clock s + secs * Npos ticks_per_second)%N)
           [EvSleep secs].

(** [time.time()], in clock ticks. *)
Definition time {L R} : M L R N :=
  fun s => Result (Normal (clock s)) s [].

Definition print {L R} (l : line) : M L R unit := emit (EvPrint l).

(** [log(msg, level)] (lines 32-39). *)
Definition log {L R} (lv : level) (m : msg) : M L R unit := print (LogLine lv m).

(** [random.randint(a, b)]. *)
Definition randint {L R} (a b : N) : M L R N :=
  fun s =>
    let '(n, w) := random (world s) in
    Result (Normal (a + n mod (b - a + 1))%N) (State (locals s) w (clock s)) [].

(** [random.choice(seq)] for a [str] that is not empty. *)
Definition random_choice {L R} (seq : str) : M L R N :=
  n <- randint 0 (N.of_nat (length seq) - 1) ;;
  ret (nth (N.to_nat n) seq 0%N).

(** [try: body except C: handler], [catches] being the class [C]. *)
Definition try_except {L R A} (catches : exn → bool)
    (body : M L R A) (handler : exn → M L R A) : M L R A :=
  fun s =>
    let r := body s in
    match out r with
    | Raised e =>
        if catches e then
          let r' := handler e (post r) in
          Result (out r') (post r') (emitted r ++ emitted r')
        else r
    | _ => r
    end.

(** [try: body finally: final].  The [finally] block runs however the body
    ends; when it ends normally the body's way of ending stands, otherwise
    its own. *)
Definition try_finally {L R A} (body : M L R A) (final : M L R unit) : M L R A :=
  fun s =>
    let r := body s in
    let f := final (post r) in
    Result (match out f with
            | Normal _ => out r
            | Raised e => Raised e
            | Returned v => Returned v
            end)
           (post f) (emitted r ++ emitted f).

(** A call of a function of the script: the body runs on its own local
    variables, starting from [init]; [return v] and the value at the end of
    the body both give the value of the call. *)
Definition call {L L' R R'} (body : M L' R' R') (init : L') : M L R R' :=
  fun s =>
    let r := body (State init (world s) (clock s)) in
    Result (match out r with
            | Normal v | Returned v => Normal v
            | Raised e => Raised e
            end)
           (State (locals s) (world (post r)) (clock (post r)))
           (emitted r).
End Effects.

(** ** The functions of the script *)

Section Script.
Context {py : PyRuntime} {ids : MailIds} {env : Env}.

Definition MAIL_API : string := "https://mail.chatgpt.org.uk".
Definition MAIL_KEY : string := "gpt-test".
Definition TARGET_URL : string := "https://www.orchids.app/".

(** Decimal digits of a number ([str(n)]). *)
Fixpoint uint_str (u : Decimal.uint) : str :=
  match u with
  | Decimal.Nil => []
  | Decimal.D0 u => 48%N :: uint_str u
  | Decimal.D1 u => 49%N :: uint_str u
  | Decimal.D2 u => 50%N :: uint_str u
  | Decimal.D3 u => 51%N :: uint_str u
  | Decimal.D4 u => 52%N :: uint_str u
  | Decimal.D5 u => 53%N :: uint_str u
  | Decimal.D6 u => 54%N :: uint_str u
  | Decimal.D7 u => 55%N :: uint_str u
  | Decimal.D8 u => 56%N :: uint_str u
  | Decimal.D9 u => 57%N :: uint_str u
  end.

Definition str_of_N (n : N) : str := uint_str (N.to_uint n).

(** *** [generate_password] (lines 48-50) *)

Definition password_chars : str :=
  lit "abcdefghijklmnopqrstuvwxyzABCDEFGHIJKLMNOPQRSTUVWXYZ0123456789!@#$%".

Fixpoint random_chars {L R} (n : nat) (chars : str) : M L R str :=
  match n with
  | O => ret []
  | S n' =>
      c <- random_choice chars ;;
      rest <- random_chars n' chars ;;
      ret (c :: rest)
  end.

Definition generate_password {L R} : M L R str :=
  call (random_chars 14 password_chars) tt.

(** *** [upload_to_server] (lines 52-77) *)

Definition upload_to_server {L R} (client_key server_url : str) : M L R bool :=
  let auth_user := "admin"%string in
  let auth_pass := "admin123"%string in
  call (
    print (ClientKeyLine client_key) ;;
    (if negb (truthy server_url) then return_ true else ret tt) ;;
    let url := server_url ++ lit "/api/orchids/credentials" in
    now <- time ;;
    let body := Payload (now / Npos ticks_per_second)%N client_key 1 true in
    try_except is_Exception
      (log INFO MsgUploading ;;
       status_code <- call_env (HttpPost url body (auth_user, auth_pass)) ;;
       if bool_decide (status_code ∈ [200; 201]%N)
       then log INFO MsgUploadSaved ;; return_ true
       else log ERR (MsgUploadRefused status_code))
      (fun e => log ERR (MsgUploadError e)) ;;
    ret false) tt.

(** *** [create_temp_email] (lines 79-89) *)

Definition create_temp_email {L R} : M L R (option str) :=
  call (
    try_except is_Exception
      (log INFO MsgMailRequest ;;
       r <- call_env MailGenerate ;;
       match r with
       | Some email => log INFO (MsgMailAddress email) ;; return_ (Some email)
       | None => ret tt
       end)
      (fun e => log INFO (MsgMailError e)) ;;
    ret None) tt.
(** *** [wait_for_code] (lines 91-127) *)

(** The loop over [[subject, text_content]] (lines 117-122).  A source that
    is not a [str] makes [re.search] raise [TypeError]. *)
Fixpoint search_sources {L} (email_id : ID) (sources : list (source * jval))
  : M L (option str) unit :=
  match sources with
  | [] => ret tt
  | (src, v) :: rest =>
      emit (EvSearch email_id src) ;;
      match v with
      | JStr text =>
          match extract_code is_digit text with
          | Some code => log INFO (MsgCode code) ;; return_ (Some code)
          | None => search_sources email_id rest
          end
      | _ => raise Exception
      end
  end.

(** One turn of the [while] loop (lines 98-125); the local variable is
    [processed_ids]. *)
Definition poll (email : str) : M (gset ID) (option str) unit :=
  try_except any_exn
    (data <- call_env (MailFetch email) ;;
     match data with
     | [] => ret tt
     | latest_email :: _ =>
         match m_id latest_email with
         | Unhashable => raise Exception
         | Hashable email_id =>
             processed_ids <- get_locals ;;
             if bool_decide (email_id ∈ processed_ids) then ret tt
             else
               set_locals (fun ids => ids ∪ {[email_id]}) ;;
               let subject :=
                 match m_subject latest_email with
                 | JMissing => JStr []
                 | v => v
                 end in
               let raw_content :=
                 jor (m_content latest_email)
                     (jor (m_html_content latest_email) (JStr [])) in
               text_content <-
                 match raw_content with
                 | JStr raw => ret (clean_content raw)
                 | _ => raise Exception
                 end ;;
               log INFO (MsgNewMail subject) ;;
               search_sources email_id
                 [(Subject, subject); (Body, JStr text_content)]
         end
     end ;;
     sleep 3)
    (fun _ => ret tt).

(** The budget of [wait_for_code], in clock ticks. *)
Definition budget : N := 120 * Npos ticks_per_second.

(** [while time.time() - start < 120].  Every turn takes at least one clock
    tick, so [fuel] turns are never used up when [fuel] exceeds the budget
    (lemma [wait_loop_fuel]). *)
Fixpoint wait_loop (fuel : nat) (email : str) (start : N)
  : M (gset ID) (option str) unit :=
  match fuel with
  | O => ret tt
  | S fuel' =>
      now <- time ;;
      if (now - start <? budget)%N
      then poll email ;; wait_loop fuel' email start
      else ret tt
  end.

Definition wait_for_code_body (email : str)
  : M (gset ID) (option str) (option str) :=
  log INFO (MsgListening email) ;;
  start <- time ;;
  wait_loop (S (N.to_nat budget)) email start ;;
  ret None.

(** [processed_ids = set()] (line 94) is the initial value of the local
    variable. *)
Definition wait_for_code {L R} (email : str) : M L R (option str) :=
  call (wait_for_code_body email) ∅.

(** *** [force_inject_turnstile] (lines 291-337) *)

(** The loop over the frames (lines 327-336). *)
Fixpoint frames_loop (d : handle) (index : nat) (iframes : list elem)
  : M unit bool unit :=
  match iframes with
  | [] => ret tt
  | frame :: rest =>
      try_except any_exn
        (drv d (SwitchToFrame frame) ;;
         hit <- drv d FindAndClick ;;
         (if hit : bool
          then log INFO (MsgCaptchaFrame index) ;;
               drv d SwitchToDefault ;;
               return_ true
          else ret tt) ;;
         drv d SwitchToDefault)
        (fun _ => drv d SwitchToDefault) ;;
      frames_loop d (S index) rest
  end.

Definition force_inject_turnstile {L R} (d : handle) : M L R bool :=
  call (
    hit <- drv d FindAndClick ;;
    (if hit : bool then log INFO MsgCaptchaMain ;; return_ true else ret tt) ;;
    iframes <- drv d (FindElements TagIframe) ;;
    frames_loop d O iframes ;;
    ret false) tt.
(** *** [register_one_account] (lines 129-289) *)

(** The local variables that outlive the [try] block. *)
Record attempt_locals := AttemptLocals {
  driver : option handle;
  success : bool;
}.

Definition set_driver {R} (d : handle) : M attempt_locals R unit :=
  set_locals (fun l => AttemptLocals (Some d) (success l)).

Definition set_success {R} (b : bool) : M attempt_locals R unit :=
  set_locals (fun l => AttemptLocals (driver l) b).

(** Lines 143-149. *)
Definition chrome_options (headless : bool) : list string :=
  [ "--disable-blink-features=AutomationControlled"; "--no-first-run";
    if headless then "--headless=new" else "--start-maximized" ]%string.

(** Lines 157-185: reach the sign-up form. *)
Definition reach_signup {L} (d : handle) : M L bool unit :=
  log INFO MsgVisiting ;;
  drv d (SetPageLoadTimeout 60) ;;
  drv d (Get TARGET_URL) ;;
  sleep 3 ;;
  try_except is_Exception
    (sign_in_btn <- drv d (WaitUntil 30 (element_to_be_clickable XSignIn)) ;;
     drv d (Click sign_in_btn))
    (fun e =>
       log INFO (MsgSignInFallback e) ;;
       drv d (Get "https://www.orchids.app/sign-in") ;;
       sleep 2) ;;
  drv d (WaitUntil 30 (visibility_of_element_located XWelcome)) ;;
  try_except any_exn
    (sign_up_link <- drv d (WaitUntil 30 (element_to_be_clickable XSignUp)) ;;
     drv d (ScriptClick sign_up_link))
    (fun _ =>
       drv d (Get "https://www.orchids.app/sign-up") ;;
       sleep 2).

(** Lines 188-201: fill in and send the form; the result is the address. *)
Definition fill_form {L} (d : handle) : M L bool str :=
  drv d (WaitUntil 30 (visibility_of_element_located CssEmailAddress)) ;;
  email <- create_temp_email ;;
  match email with
  | None => return_ false
  | Some email =>
      (if negb (truthy email) then return_ false else ret tt) ;;
      password <- generate_password ;;
      email_field <- drv d (FindElement CssEmailAddress) ;;
      drv d (SendKeys email_field email) ;;
      password_field <- drv d (FindElement CssPassword) ;;
      drv d (SendKeys password_field password) ;;
      log INFO MsgContinue ;;
      try_except any_exn
        (btn <- drv d (FindElement XContinue) ;;
         drv d (Click btn))
        (fun _ =>
           password_field <- drv d (FindElement CssPassword) ;;
           drv d (Submit password_field)) ;;
      ret email
  end.

(** Lines 206-217: [for attempt in range(15)]; the result is [pass_check]. *)
Fixpoint pass_check_loop {L R} (d : handle) (remaining : nat) : M L R bool :=
  match remaining with
  | O => ret false
  | S remaining' =>
      fields <- drv d (FindElements CssNumeric) ;;
      if (0 <? length fields)%nat
      then log INFO MsgFieldShown ;; ret true
      else
        try_except any_exn
          (force_inject_turnstile d ;; ret tt)
          (fun _ => ret tt) ;;
        sleep 2 ;;
        pass_check_loop d remaining'
  end.

(** Lines 240-243: click the first button whose text holds "Continue". *)
Fixpoint click_continue {L R} (d : handle) (btns : list elem) : M L R unit :=
  match btns with
  | [] => ret tt
  | btn :: rest =>
      text <- drv d (ElemText btn) ;;
      if contains (lit "Continue") text
      then drv d (Click btn)
      else click_continue d rest
  end.

(** Lines 234-244. *)
Definition username_step {L R} (d : handle) : M L R unit :=
  current_url <- drv d CurrentUrl ;;
  if contains (lit "sign-up") current_url then
    try_except any_exn
      (drv d (WaitUntil 5 (presence_of_element_located NameUsername)) ;;
       field <- drv d (FindElement NameUsername) ;;
       n <- randint 1000 9999 ;;
       drv d (SendKeys field (lit "User" ++ str_of_N n)) ;;
       btns <- drv d (FindElements TagButton) ;;
       click_continue d btns)
      (fun _ => ret tt)
  else ret tt.

(** Lines 256-267: the loop over the cookies; [client_key] is the variable
    of the script, [None] before the loop.  A cookie without a name makes
    [name.lower()] raise [AttributeError]. *)
Fixpoint scan_cookies {L R} (all_cookies : list cookie) (client_key : option str)
  : M L R (option str) :=
  match all_cookies with
  | [] => ret client_key
  | cookie :: rest =>
      let domain := c_domain cookie in
      let value := c_value cookie in
      match c_name cookie with
      | None => raise Exception
      | Some name =>
          (if contains (lit "client") (str_lower name)
           then log INFO (MsgCookieSeen name domain) else ret tt) ;;
          if bool_decide (name = lit "__client") then
            (if contains (lit "clerk") domain
             then log INFO MsgClerkHit else ret tt) ;;
            scan_cookies rest value
          else scan_cookies rest client_key
      end
  end.

(** Lines 247-254. *)
Definition read_cookies {L R} (d : handle) : M L R (list cookie) :=
  log INFO MsgCdp ;;
  all_cookies <-
    try_except any_exn (drv d CdpGetAllCookies) (fun _ => drv d GetCookies) ;;
  log INFO (MsgCookieCount (length all_cookies)) ;;
  ret all_cookies.

(** Truth value of a variable that holds a [str] or [None]: the string when
    the variable is truthy. *)
Definition if_truthy (x : option str) : option str :=
  match x with
  | Some v => if truthy v then Some v else None
  | None => None
  end.

(** Lines 269-274. *)
Definition publish_key (client_key : option str) (server_url : str)
  : M attempt_locals bool unit :=
  match if_truthy client_key with
  | Some v =>
      log INFO MsgKeyOk ;;
      upload_to_server v server_url ;;
      set_success true
  | None => log ERR MsgKeyMissing
  end.

(** Lines 224-226: the code field and the code. *)
Definition await_code {L R} (d : handle) (email : str)
  : M L R (elem * option str) :=
  log INFO MsgAwaitCode ;;
  otp_input <- drv d (WaitUntil 10 (presence_of_element_located CssNumeric)) ;;
  code <- wait_for_code email ;;
  ret (otp_input, code).

(** Lines 229-244. *)
Definition enter_code {L R} (d : handle) (otp_input : elem) (code : str)
  : M L R unit :=
  log INFO (MsgTypeCode code) ;;
  drv d (SendKeys otp_input code) ;;
  sleep 5 ;;
  username_step d.

(** Lines 246-274: from the cookie jar to the upload. *)
Definition extract_and_publish (d : handle) (server_url : str)
  : M attempt_locals bool unit :=
  all_cookies <- read_cookies d ;;
  client_key <- scan_cookies all_cookies None ;;
  publish_key client_key server_url.

(** Lines 224-276. *)
Definition verify_and_extract (d : handle) (email server_url : str)
  : M attempt_locals bool unit :=
  found <- await_code d email ;;
  match if_truthy (snd found) with
  | Some code =>
      enter_code d (fst found) code ;;
      extract_and_publish d server_url
  | None => log INFO MsgCodeTimeout
  end.

(** Lines 204-221. *)
Definition pass_check_stage (d : handle) : M attempt_locals bool unit :=
  log INFO MsgVerifyMode ;;
  pass_check <- pass_check_loop d 15 ;;
  if negb pass_check
  then log ERR MsgChallengeTimeout ;; return_ false
  else ret tt.

(** Lines 157-276: what the attempt does with its browser. *)
Definition attempt_steps (d : handle) (server_url : str)
  : M attempt_locals bool unit :=
  reach_signup d ;;
  email <- fill_form d ;;
  pass_check_stage d ;;
  verify_and_extract d email server_url.

(** The [try] block (lines 154-276). *)
Definition attempt_body (server_url : str) (headless : bool)
  : M attempt_locals bool unit :=
  d <- call_env (Chrome (chrome_options headless)) ;;
  set_driver d ;;
  attempt_steps d server_url.

(** The [finally] block (lines 280-287). *)
Definition close_driver : M attempt_locals bool unit :=
  l <- get_locals ;;
  match driver l with
  | Some d =>
      try_except any_exn
        (drv d ServiceStop ;; drv d Quit)
        (fun _ => ret tt)
  | None => ret tt
  end.

Definition register_one_account_body (current_idx total_count : Z)
    (server_url : str) (headless : bool) : M attempt_locals bool bool :=
  print (BannerLine current_idx total_count) ;;
  try_except is_ImportError
    (call_env ImportDeps)
    (fun e =>
       log ERR (MsgMissingDeps e) ;;
       log ERR MsgInstallHint ;;
       return_ false) ;;
  set_locals (fun _ => AttemptLocals None false) ;;
  try_finally
    (try_except is_Exception
       (attempt_body server_url headless)
       (fun e => log ERR (MsgAttemptError e)))
    close_driver ;;
  l <- get_locals ;;
  ret (success l).

Definition register_one_account {L R} (current_idx total_count : Z)
    (server_url : str) (headless : bool) : M L R bool :=
  call (register_one_account_body current_idx total_count server_url headless)
       (AttemptLocals None false).

(** *** [main] (lines 339-368) *)

(** The command line, as [argparse] hands it over. *)
Record args := Args {
  count : Z;
  server : str;
  a_headless : bool;
}.

(** [for i in range(total_num)] (lines 355-363), [todo] turns being left;
    the result is [success_count]. *)
Fixpoint batch_loop {L R} (todo : nat) (i total_num : Z) (server_url : str)
    (headless : bool) (success_count : Z) : M L R Z :=
  match todo with
  | O => ret success_count
  | S todo' =>
      ok <- register_one_account (i + 1) total_num server_url headless ;;
      emit (EvAttempt ok) ;;
      let success_count := if ok then success_count + 1 else success_count in
      (if i <? total_num - 1 then
         wait_time <- randint 8 15 ;;
         log INFO (MsgRest wait_time) ;;
         sleep wait_time
       else ret tt) ;;
      batch_loop todo' (i + 1) total_num server_url headless success_count
  end.

Definition main {L R} (a : args) : M L R Z :=
  call (
    let total_num := count a in
    let server_url := server a in
    log INFO MsgStart ;;
    log INFO (MsgConfigCount total_num) ;;
    log INFO (MsgConfigServer server_url) ;;
    log INFO (MsgConfigHeadless (a_headless a)) ;;
    success_count <-
      batch_loop (Z.to_nat total_num) 0 total_num server_url (a_headless a) 0 ;;
    print RuleLine ;;
    print (SummaryLine success_count total_num) ;;
    ret (if 0 <? success_count then 0 else 1)) tt.
End Script.


(** ** The events of each function *)

(** The events that each function of the script can emit. *)

Definition mail_event {ids : MailIds} (e : event) : bool :=
  match e with
  | EvCall o _ => match o with MailGenerate => true | _ => false end
  | EvPrint (LogLine _ (MsgMailRequest | MsgMailAddress _ | MsgMailError _)) => true
  | _ => false
  end.

Definition upload_event {ids : MailIds} (e : event) : bool :=
  match e with
  | EvCall o _ => match o with HttpPost _ _ _ => true | _ => false end
  | EvPrint (ClientKeyLine _) => true
  | EvPrint (LogLine _ (MsgUploading | MsgUploadSaved | MsgUploadRefused _
                        | MsgUploadError _)) => true
  | _ => false
  end.

Definition wait_event {ids : MailIds} (e : event) : bool :=
  match e with
  | EvCall o _ => match o with MailFetch _ => true | _ => false end
  | EvSleep 3 => true
  | EvSearch _ _ => true
  | EvPrint (LogLine _ (MsgListening _ | MsgNewMail _ | MsgCode _)) => true
  | _ => false
  end.

Definition solver_event {ids : MailIds} (e : event) : bool :=
  match e with
  | EvCall o _ =>
      match o with
      | Drv _ c =>
          match c with
          | FindAndClick | FindElements TagIframe | SwitchToFrame _
          | SwitchToDefault => true
          | _ => false
          end
      | _ => false
      end
  | EvPrint (LogLine _ (MsgCaptchaMain | MsgCaptchaFrame _)) => true
  | _ => false
  end.

Definition check_event {ids : MailIds} (e : event) : bool :=
  match e with
  | EvCall o _ =>
      match o with
      | Drv _ c => match c with FindElements CssNumeric => true | _ => false end
      | _ => false
      end
  | _ => false
  end.

Definition pace_event {ids : MailIds} (e : event) : bool :=
  match e with
  | EvSleep 2 => true
  | EvPrint (LogLine _ MsgFieldShown) => true
  | _ => false
  end.

(** Lines 206-217. *)
Definition pass_check_event {ids : MailIds} (e : event) : bool :=
  check_event e || solver_event e || pace_event e.

Definition cookie_scan_event {ids : MailIds} (e : event) : bool :=
  match e with
  | EvPrint (LogLine _ (MsgCookieSeen _ _ | MsgClerkHit)) => true
  | _ => false
  end.

Definition button_event {ids : MailIds} (e : event) : bool :=
  match e with
  | EvCall o _ =>
      match o with
      | Drv _ c => match c with ElemText _ | Click _ => true | _ => false end
      | _ => false
      end
  | _ => false
  end.


Definition form_own_event {ids : MailIds} (e : event) : bool :=
  match e with
  | EvSleep (2 | 3) => true
  | EvPrint (LogLine _ (MsgVisiting | MsgSignInFallback _ | MsgContinue)) => true
  | EvCall o _ =>
      match o with
      | Drv _ c =>
          match c with
          | SetPageLoadTimeout _ | Get _ | WaitUntil _ _ | Click _
          | ScriptClick _ | SendKeys _ _ | Submit _
          | FindElement (CssEmailAddress | CssPassword | XContinue) => true
          | _ => false
          end
      | _ => false
      end
  | _ => false
  end.

(** Lines 157-201: before the challenge. *)
Definition form_event {ids : MailIds} (e : event) : bool :=
  mail_event e || form_own_event e.

Definition verify_log_event {ids : MailIds} (e : event) : bool :=
  match e with
  | EvPrint (LogLine _ (MsgVerifyMode | MsgChallengeTimeout)) => true
  | _ => false
  end.

(** Lines 204-221. *)
Definition pass_check_stage_event {ids : MailIds} (e : event) : bool :=
  pass_check_event e || verify_log_event e.

Definition code_own_event {ids : MailIds} (e : event) : bool :=
  match e with
  | EvSleep 5 => true
  | EvPrint (LogLine _ (MsgAwaitCode | MsgTypeCode _ | MsgCdp
                        | MsgCookieCount _)) => true
  | EvCall o _ =>
      match o with
      | Drv _ c =>
          match c with
          | WaitUntil _ (presence_of_element_located _) | SendKeys _ _
          | CurrentUrl | FindElement NameUsername | FindElements TagButton
          | CdpGetAllCookies | GetCookies => true
          | _ => false
          end
      | _ => false
      end
  | _ => false
  end.

(** Lines 224-267: from the code field to the end of the cookie scan. *)
Definition code_event {ids : MailIds} (e : event) : bool :=
  wait_event e || button_event e || cookie_scan_event e || code_own_event e.

Definition key_log_event {ids : MailIds} (e : event) : bool :=
  match e with
  | EvPrint (LogLine _ (MsgKeyOk | MsgKeyMissing)) => true
  | _ => false
  end.

(** Lines 269-274. *)
Definition publish_event {ids : MailIds} (e : event) : bool :=
  upload_event e || key_log_event e.

Definition code_timeout_event {ids : MailIds} (e : event) : bool :=
  match e with
  | EvPrint (LogLine _ MsgCodeTimeout) => true
  | _ => false
  end.

(** Lines 157-267 and 276: the attempt before it publishes a key. *)
Definition early_event {ids : MailIds} (e : event) : bool :=
  form_event e || pass_check_stage_event e || code_event e
  || code_timeout_event e.

(** Lines 157-276. *)
Definition steps_event {ids : MailIds} (e : event) : bool :=
  early_event e || publish_event e.

(** Lines 280-287. *)
Definition close_event {ids : MailIds} (e : event) : bool :=
  match e with
  | EvCall o _ =>
      match o with
      | Drv _ c => match c with ServiceStop | Quit => true | _ => false end
      | _ => false
      end
  | _ => false
  end.

Definition attempt_own_event {ids : MailIds} (e : event) : bool :=
  match e with
  | EvPrint (BannerLine _ _) => true
  | EvPrint (LogLine _ (MsgMissingDeps _ | MsgInstallHint | MsgAttemptError _)) => true
  | EvCall o _ => match o with ImportDeps | Chrome _ => true | _ => false end
  | _ => false
  end.

(** [register_one_account] (lines 129-289). *)
Definition attempt_event {ids : MailIds} (e : event) : bool :=
  steps_event e || close_event e || attempt_own_event e.

(** ** Landmarks of a trace *)

Definition is_attempt {ids : MailIds} (e : event) : bool :=
  match e with EvAttempt _ => true | _ => false end.

Definition is_success {ids : MailIds} (e : event) : bool :=
  match e with EvAttempt true => true | _ => false end.

(** A call of [print(f"CLIENT_KEY:{client_key}")] (line 55).  What the calls
    of [print] and [log] put on the standard output, line by line, is
    [stdout_key_lines] below. *)
Definition is_key_print {ids : MailIds} (e : event) : bool :=
  match e with EvPrint (ClientKeyLine _) => true | _ => false end.

Definition is_key_ok {ids : MailIds} (e : event) : bool :=
  match e with EvPrint (LogLine _ MsgKeyOk) => true | _ => false end.

Definition is_verify_mode {ids : MailIds} (e : event) : bool :=
  match e with EvPrint (LogLine _ MsgVerifyMode) => true | _ => false end.

Definition is_post {ids : MailIds} (e : event) : bool :=
  match e with
  | EvCall o _ => match o with HttpPost _ _ _ => true | _ => false end
  | _ => false
  end.

Definition is_chrome {ids : MailIds} (e : event) : bool :=
  match e with
  | EvCall o _ => match o with Chrome _ => true | _ => false end
  | _ => false
  end.

(** ** Observations on a trace *)

(** The calls of [re.search], in order: which source of which message. *)
Definition searches {ids : MailIds} (tr : list event) : list (ID * source) :=
  omap (fun e => match e with EvSearch id src => Some (id, src) | _ => None end) tr.

Definition is_fetch {ids : MailIds} (e : event) : bool :=
  match e with
  | EvCall o _ => match o with MailFetch _ => true | _ => false end
  | _ => false
  end.

Definition is_failed_fetch {ids : MailIds} (e : event) : bool :=
  match e with
  | EvCall o r =>
      match o, r with
      | MailFetch _, Raise _ => true
      | _, _ => false
      end
  | _ => false
  end.

(** Every fetch that fails is the last event or is followed at once by the
    next fetch. *)
Fixpoint retries_at_once {ids : MailIds} (tr : list event) : bool :=
  match tr with
  | [] => true
  | e :: rest =>
      (if is_failed_fetch e
       then match rest with [] => true | e' :: _ => is_fetch e' end
       else true)
      && retries_at_once rest
  end.

(** No fetch comes before a pause of three seconds. *)
Fixpoint pause_before_fetch {ids : MailIds} (tr : list event) : bool :=
  match tr with
  | [] => true
  | EvSleep 3 :: _ => true
  | e :: rest => negb (is_fetch e) && pause_before_fetch rest
  end.

(** After every fetch that fails, the next fetch, if any, comes after a
    pause of three seconds. *)
Fixpoint retries_after_pause {ids : MailIds} (tr : list event) : bool :=
  match tr with
  | [] => true
  | e :: rest =>
      (if is_failed_fetch e then pause_before_fetch rest else true)
      && retries_after_pause rest
  end.

(** ** The cookie that the scan keeps *)

(** The value of the variable [client_key] after the loop of lines 256-267
    over [all_cookies], [None] when the loop raises (a cookie without a
    name). *)
Fixpoint client_key_after (all_cookies : list cookie) (client_key : option str)
  : option (option str) :=
  match all_cookies with
  | [] => Some client_key
  | cookie :: rest =>
      match c_name cookie with
      | None => None
      | Some name =>
          client_key_after rest
            (if bool_decide (name = lit "__client") then c_value cookie
             else client_key)
      end
  end.

(** ** The outcome of an upload *)

Definition upload_url (server_url : str) : str :=
  server_url ++ lit "/api/orchids/credentials".

(** What [upload_to_server] does with the reply of the POST: its value, and
    the line it logs. *)
Definition upload_out {R} (rp : reply N) : ctl R bool :=
  match rp with
  | Ok status_code => Normal (bool_decide (status_code ∈ [200; 201]%N))
  | Raise e => if is_Exception e then Normal false else Raised e
  end.

Definition upload_log {ids : MailIds} (rp : reply N) : list event :=
  match rp with
  | Ok status_code =>
      if bool_decide (status_code ∈ [200; 201]%N)
      then [EvPrint (LogLine INFO MsgUploadSaved)]
      else [EvPrint (LogLine ERR (MsgUploadRefused status_code))]
  | Raise e =>
      if is_Exception e then [EvPrint (LogLine ERR (MsgUploadError e))] else []
  end.

(** ** The key on standard output *)

(** Events that tell nothing about a key: no call of line 55, no line of
    success of the extraction, no upload. *)
Definition no_key_event {ids : MailIds} (e : event) : bool :=
  negb (is_key_print e || is_key_ok e || is_post e).

(** The browser reported the cookies [jar] (line 249 or line 252). *)
Definition jar_read {ids : MailIds} (d : handle) (jar : list cookie)
    (tr : list event) : Prop :=
  In (EvCall (Drv d CdpGetAllCookies) (Ok jar)) tr ∨
  In (EvCall (Drv d GetCookies) (Ok jar)) tr.

(** The trace [tr] of an attempt shows one extraction of the key [v]: the
    cookies were read, the scan of the jar kept [v], the success was logged
    (line 270) and [print(f"CLIENT_KEY:{v}")] called at once (line 55); no
    other such call before or after. *)
Definition key_published {ids : MailIds} (d : handle) (tr : list event) (v : str)
  : Prop :=
  ∃ pre tail jar client_key,
    tr = pre ++ EvPrint (LogLine INFO MsgKeyOk)
             :: EvPrint (ClientKeyLine v) :: tail ∧
    Forall (fun e => no_key_event e = true) pre ∧
    Forall (fun e => is_key_print e = false ∧ is_key_ok e = false) tail ∧
    jar_read d jar pre ∧
    client_key_after jar None = Some client_key ∧
    if_truthy client_key = Some v.

(** The POST of the upload was cut short by an exception that is not an
    [Exception] ([KeyboardInterrupt] and the like). *)
Definition post_interrupted {ids : MailIds} (tr : list event) : Prop :=
  ∃ url body auth, In (EvCall (HttpPost url body auth) (Raise BaseException)) tr.

(** ** Assumptions on the environment *)


(** The code field never shows up: the search for it finds nothing, whenever
    it is tried. *)
Definition field_never_shown {ids : MailIds} {env : Env} : Prop :=
  ∀ d w, (answer (list elem) (Drv d (FindElements CssNumeric)) w).1.1 = Ok [].

(** ** The rounds of the challenge loop *)

(** [n] rounds of the loop of lines 206-217 in which the code field is not
    there: the search for the field finds nothing, the challenge solver runs
    once, and the loop pauses for two seconds. *)
Inductive rounds {ids : MailIds} (d : handle) : nat → list event → Prop :=
| rounds_O : rounds d O []
| rounds_S n solver rest :
    Forall (fun e => solver_event e = true) solver →
    rounds d n rest →
    rounds d (S n)
      (EvCall (Drv d (FindElements CssNumeric)) (Ok [])
         :: solver ++ EvSleep 2 :: rest).

(** ** The end of a browser session *)

(** The handles of the browser sessions that the trace shows opened. *)
Definition session_of {ids : MailIds} (e : event) : option handle :=
  match e with
  | EvCall o r =>
      match o in op X return reply X → option handle with
      | Chrome _ => fun r => match r with Ok d => Some d | Raise _ => None end
      | _ => fun _ => None
      end r
  | _ => None
  end.

Definition sessions {ids : MailIds} (tr : list event) : list handle :=
  omap session_of tr.

(** What the [finally] block (lines 281-287) did with the session:
    [driver.service.stop()] raised, and [driver.quit()] was not called at
    all, which leaves the browser running; or [driver.service.stop()]
    succeeded and [driver.quit()] was called, with the reply [rq]. *)
Inductive close_result :=
| QuitSkipped (e : exn)
| QuitCalled (rq : reply unit).

(** The calls of the [finally] block on the session [d], by result. *)
Definition close_calls {ids : MailIds} (d : handle) (c : close_result)
  : list event :=
  match c with
  | QuitSkipped e => [EvCall (Drv d ServiceStop) (Raise e)]
  | QuitCalled rq =>
      [EvCall (Drv d ServiceStop) (Ok tt); EvCall (Drv d Quit) rq]
  end.

(** The browser was told to quit, and did. *)
Definition browser_closed (c : close_result) : bool :=
  match c with
  | QuitCalled (Ok _) => true
  | _ => false
  end.

Definition is_quit {ids : MailIds} (e : event) : bool :=
  match e with
  | EvCall o _ => match o with Drv _ Quit => true | _ => false end
  | _ => false
  end.

Definition is_interrupted_post {ids : MailIds} (e : event) : bool :=
  match e with
  | EvCall o r =>
      match o, r with
      | HttpPost _ _ _, Raise BaseException => true
      | _, _ => false
      end
  | _ => false
  end.

(** The trace ends with the calls of the [finally] block on the session
    [d], with the result [c], and holds no such call before. *)
Definition ends_with_close_calls {ids : MailIds} (d : handle)
    (tr : list event) (c : close_result) : Prop :=
  ∃ pre, tr = pre ++ close_calls d c ∧
         Forall (fun e => close_event e = false) pre.

(** ** What the attempts of a batch return *)

(** The state in which [main] goes on after the attempt of index [i]
    (counted from 0) ended in [s]: after the rest of lines 359-363, a pause
    of [random.randint(8, 15)] seconds, when another attempt follows. *)
Definition after_rest {ids : MailIds} {env : Env} {L} (i total_num : Z)
    (s : state L) : state L :=
  if i <? total_num - 1 then
    let '(n, w) := random (world s) in
    State (locals s) w
          (clock s + (8 + n mod (15 - 8 + 1)) * Npos ticks_per_second)%N
  else s.

(** The values that the calls of [register_one_account] return, one after
    the other, for [todo] attempts from the index [i] on, the first of them
    started in the state [s]; [None] when one of the calls raises. *)
Fixpoint attempt_results {py : PyRuntime} {ids : MailIds} {env : Env} {L R}
    (todo : nat) (i total_num : Z) (server_url : str) (headless : bool)
    (s : state L) : option (list bool) :=
  match todo with
  | O => Some []
  | S todo' =>
      let r := register_one_account (R:=R) (i + 1) total_num server_url
                 headless s in
      match out r with
      | Normal ok =>
          cons ok <$> attempt_results (R:=R) todo' (i + 1) total_num
                        server_url headless (after_rest i total_num (post r))
      | _ => None
      end
  end.

(** The number of attempts that returned [True]. *)
Definition successes (oks : list bool) : nat :=
  length (List.filter (fun ok : bool => ok) oks).

(** ** The standard output, line by line *)









(** ** The cookie jar that an attempt reads *)

(** The jar that a call of the browser reported (line 249 or line 252). *)
Definition jar_of {ids : MailIds} (e : event) : option (list cookie) :=
  match e with
  | EvCall o r =>
      match o in op X return reply X → option (list cookie) with
      | Drv _ c =>
          match c in drv_op X return reply X → option (list cookie) with
          | CdpGetAllCookies | GetCookies =>
              fun r => match r with Ok jar => Some jar | Raise _ => None end
          | _ => fun _ => None
          end
      | _ => fun _ => None
      end r
  | _ => None
  end.

Definition jars_read {ids : MailIds} (tr : list event) : list (list cookie) :=
  omap jar_of tr.

(** The key that the script takes from the jar: the value that the loop of
    lines 256-267 leaves in [client_key], when the loop goes through and
    that value is truthy (line 269). *)
Definition usable_key (jar : list cookie) : option str :=
  match client_key_after jar None with
  | Some client_key => if_truthy client_key
  | None => None
  end.

(** An event that is neither the reading of a cookie jar nor the call of
    line 55. *)
Definition silent_on_key {ids : MailIds} (e : event) : Prop :=
  jar_of e = None ∧ is_key_print e = false.

(** The calls of line 55 in a trace follow from the cookie jar that the
    trace shows read: no jar, or a jar without a usable key, and there is no
    such call; a jar with the usable key [v], and there is exactly one, with
    [v]; and no second jar is read. *)
Definition key_print_matches_jar {ids : MailIds} (tr : list event) : Prop :=
  match jars_read tr with
  | [] => List.filter is_key_print tr = []
  | [jar] =>
      List.filter is_key_print tr =
        match usable_key jar with
        | Some v => [EvPrint (ClientKeyLine v)]
        | None => []
        end
  | _ :: _ :: _ => False
  end.

(** ** Vocabulary of the further properties *)

(** The message [m] holds the code [code]: the pattern finds it in the
    subject, or in the cleaned-up body ([content], or [html_content] when
    [content] is empty or absent). *)
Definition code_of_message {py : PyRuntime} {ids : MailIds}
    (m : message) (code : str) : Prop :=
  (∃ subject, m_subject m = JStr subject ∧
              extract_code is_digit subject = Some code) ∨
  (∃ raw_content,
     jor (m_content m) (jor (m_html_content m) (JStr [])) = JStr raw_content ∧
     extract_code is_digit (clean_content raw_content) = Some code).

(** The last thing the trace shows is the line that reports [code]
    (line 121). *)
Definition ends_with_code {ids : MailIds} (tr : list event) (code : str) : Prop :=
  ∃ pre, tr = pre ++ [EvPrint (LogLine INFO (MsgCode code))].

(** The trace shows a fetch that brought [m] as the newest message. *)
Definition fetched_newest {ids : MailIds} (email : str) (m : message)
    (tr : list event) : Prop :=
  ∃ rest, In (EvCall (MailFetch email) (Ok (m :: rest))) tr.

(** *** The challenge solver *)

(** Whether the driver is inside a frame after the event [e], given whether
    it was before: a switch into a frame that succeeds takes it inside, a
    switch to the default content that succeeds takes it out. *)
Definition frame_step {ids : MailIds} (inside : bool) (e : event) : bool :=
  match e with
  | EvCall o r =>
      match o, r with
      | Drv _ (SwitchToFrame _), Ok _ => true
      | Drv _ SwitchToDefault, Ok _ => false
      | _, _ => inside
      end
  | _ => inside
  end.

Definition in_frame_after {ids : MailIds} (inside : bool) (tr : list event)
  : bool :=
  fold_left frame_step tr inside.

(** A run of the click script, and a run that reported a click. *)
Definition is_click_script {ids : MailIds} (e : event) : bool :=
  match e with
  | EvCall o _ => match o with Drv _ FindAndClick => true | _ => false end
  | _ => false
  end.

Definition is_click_hit {ids : MailIds} (e : event) : bool :=
  match e with
  | EvCall o r =>
      match o, r with
      | Drv _ FindAndClick, Ok true => true
      | _, _ => false
      end
  | _ => false
  end.




(** *** The schedule of a batch *)

(** The landmarks of a batch: the banner of an attempt (line 131), the line
    that announces a rest (line 362), and the rest itself, a pause of eight
    seconds or more (the pauses inside an attempt are of two, three and five
    seconds). *)
Inductive mark :=
| MBanner (current_idx total_count : Z)
| MRest (wait_time : N)
| MPause (secs : N).

Definition mark_of {ids : MailIds} (e : event) : option mark :=
  match e with
  | EvPrint (BannerLine i n) => Some (MBanner i n)
  | EvPrint (LogLine _ (MsgRest w)) => Some (MRest w)
  | EvSleep secs => if (8 <=? secs)%N then Some (MPause secs) else None
  | _ => None
  end.

Definition marks {ids : MailIds} (tr : list event) : list mark :=
  omap mark_of tr.

(** Attempts numbered from [i] on, with the rests [ws] between them. *)
Fixpoint schedule (total_count i : Z) (ws : list N) : list mark :=
  match ws with
  | [] => [MBanner i total_count]
  | w :: ws' =>
      MBanner i total_count :: MRest w :: MPause w
        :: schedule total_count (i + 1) ws'
  end.

(** *** The cookie jar *)

(** A cookie named [__client]. *)
Definition is_client_cookie (c : cookie) : bool :=
  bool_decide (c_name c = Some (lit "__client")).

(** *** The buttons of the username page *)

(** The texts of the buttons [btns] were read one after the other, and none
    of them holds "Continue". *)
Definition passed_over {ids : MailIds} (d : handle) (btns : list elem)
    (tr : list event) : Prop :=
  Forall2 (fun btn e =>
             ∃ text, e = EvCall (Drv d (ElemText btn)) (Ok text) ∧
                     contains (lit "Continue") text = false)
          btns tr.

Definition is_click {ids : MailIds} (e : event) : bool :=
  match e with
  | EvCall o _ => match o with Drv _ (Click _) => true | _ => false end
  | _ => false
  end.

(** The keys that a call of [send_keys] typed. *)
Definition typed_keys {ids : MailIds} (e : event) : option str :=
  match e with
  | EvCall o _ =>
      match o with Drv _ (SendKeys _ keys) => Some keys | _ => None end
  | _ => None
  end.
(** ** A scripted environment

    The concrete runs below (the examples, and the instances of the
    theorems) use the following world: ASCII digits and white space,
    message ids that are numbers, and an outside world that follows a
    script. *)

Definition ascii_digit (c : N) : bool := (48 <=? c)%N && (c <=? 57)%N.

Definition ascii_space (c : N) : bool :=
  ((9 <=? c)%N && (c <=? 13)%N) || (c =? 32)%N.

Definition ascii_lower (c : N) : N :=
  if (65 <=? c)%N && (c <=? 90)%N then (c + 32)%N else c.

#[local] Instance sim_runtime : PyRuntime := {|
  is_digit := ascii_digit;
  is_space := ascii_space;
  html_unescape := fun s => s;
  str_lower := fun s => ascii_lower <$> s;
|}.

#[local] Instance sim_ids : MailIds := {| ID := nat |}.

(** The state of the scripted world.  Each attempt takes the next entry of
    [challenge_plan] when it opens the browser: [true] when the code field
    shows up at the first check.  The mailbox answers the successive fetches
    with [fetch_script], then for ever with [inbox]. *)
Record sim := Sim {
  deps_missing : bool;
  challenge_plan : list bool;
  field_shown : bool;
  fetch_script : list (reply (list message));
  inbox : list message;
  jar : list cookie;
  post_reply : reply N;
  stop_reply : reply unit;
}.

Definition sim_drv {X} (c : drv_op X) (w : sim) : reply X * sim :=
  match c in drv_op X return reply X * sim with
  | SetPageLoadTimeout _ => (Ok tt, w)
  | Get _ => (Ok tt, w)
  | WaitUntil _ _ => (Ok 1%N, w)
  | FindElement _ => (Ok 2%N, w)
  | FindElements CssNumeric => (Ok (if field_shown w then [3%N] else []), w)
  | FindElements _ => (Ok [], w)
  | Click _ => (Ok tt, w)
  | ScriptClick _ => (Ok tt, w)
  | SendKeys _ _ => (Ok tt, w)
  | Submit _ => (Ok tt, w)
  | ElemText _ => (Ok [], w)
  | CurrentUrl => (Ok (lit "https://www.orchids.app/"), w)
  | FindAndClick => (Ok false, w)
  | SwitchToFrame _ => (Ok tt, w)
  | SwitchToDefault => (Ok tt, w)
  | CdpGetAllCookies => (Ok (jar w), w)
  | GetCookies => (Ok (jar w), w)
  | ServiceStop => (stop_reply w, w)
  | Quit => (Ok tt, w)
  end.

Definition sim_next_attempt (w : sim) : sim :=
  Sim (deps_missing w) (tail (challenge_plan w))
      (default false (head (challenge_plan w)))
      (fetch_script w) (inbox w) (jar w) (post_reply w) (stop_reply w).

Definition sim_next_fetch (w : sim) : sim :=
  Sim (deps_missing w) (challenge_plan w) (field_shown w)
      (tail (fetch_script w)) (inbox w) (jar w) (post_reply w) (stop_reply w).

Definition sim_answer (X : Type) (o : op X) (w : sim) : reply X * positive * sim :=
  match o in op X return reply X * positive * sim with
  | ImportDeps =>
      (if deps_missing w then Raise ImportError else Ok tt, 1%positive, w)
  | Chrome _ => (Ok 1%N, 1%positive, sim_next_attempt w)
  | Drv _ c => let '(r, w') := sim_drv c w in (r, 1%positive, w')
  | MailGenerate => (Ok (Some (lit "a@b.test")), 1%positive, w)
  | MailFetch _ =>
      (default (Ok (inbox w)) (head (fetch_script w)), 1%positive,
       sim_next_fetch w)
  | HttpPost _ _ _ => (post_reply w, 1%positive, w)
  end.

(** One clock tick is one second; every call takes a second. *)
#[local] Instance sim_env : Env := {|
  W := sim;
  answer := sim_answer;
  random := fun w => (0%N, w);
  ticks_per_second := 1%positive;
|}.

Definition sim_start {L} (l : L) (w : sim) : state L := State l w 0%N.

(** The message and the cookie of the end-to-end scenario. *)
Definition code_mail (id : nat) : message :=
  Message (Hashable id) (JStr (lit "Your code is 482913")) JMissing JMissing.

Definition plain_mail (id : nat) : message :=
  Message (Hashable id) (JStr (lit "Welcome")) (JStr (lit "<p>Hello</p>")) JMissing.

Definition client_cookie (domain value : string) : cookie :=
  Cookie (Some (lit "__client")) (lit domain) (Some (lit value)).

(** A world in which every attempt goes through. *)
Definition happy_world : sim :=
  Sim false [true; true; true] false [] [code_mail 1]
      [client_cookie "accounts.example.com" "tok_abc"] (Ok 201%N) (Ok tt).


(** A mailbox whose first answer is an error and whose second one carries
    the code. *)
Definition flaky_world : sim :=
  Sim false [] false [Raise Exception; Ok [code_mail 1]] [] [] (Ok 201%N) (Ok tt).

(** A mailbox that shows the same messages again and again, none of them
    with a code. *)
Definition repeating_world : sim :=
  Sim false [] false
      [Ok [plain_mail 1]; Ok [plain_mail 1]; Ok [plain_mail 2; plain_mail 1];
       Raise Exception; Ok [plain_mail 1]; Ok [plain_mail 2]]
      [plain_mail 2; plain_mail 1] [] (Ok 201%N) (Ok tt).

(** Two cookies named [__client]: the one of the Clerk domain first, then
    one of another domain; and the same two the other way round. *)
Definition clerk_then_other : list cookie :=
  [client_cookie "clerk.orchids.app" "tok_clerk";
   client_cookie "www.orchids.app" "tok_other"].

Definition other_then_clerk : list cookie :=
  [client_cookie "www.orchids.app" "tok_other";
   client_cookie "clerk.orchids.app" "tok_clerk"].

(** A world in which the challenge clears for the second attempt only, and
    one in which it never clears. *)
Definition second_only_world : sim :=
  Sim false [false; true; false] false [] [code_mail 1]
      [client_cookie "accounts.example.com" "tok_abc"] (Ok 201%N) (Ok tt).

Definition never_world : sim :=
  Sim false [false; false] false [] [code_mail 1]
      [client_cookie "accounts.example.com" "tok_abc"] (Ok 201%N) (Ok tt).

(** A world without the browser-driver packages. *)
Definition no_deps_world : sim :=
  Sim true [] false [] [] [] (Ok 201%N) (Ok tt).

(** A world in which the credential store refuses the upload. *)
Definition refusing_world : sim :=
  Sim false [true] false [] [code_mail 1]
      [client_cookie "accounts.example.com" "tok_abc"] (Ok 500%N) (Ok tt).




(** An environment that behaves like the scripted one, except that the
    code field never shows up. *)
Definition stuck_answer (X : Type) (o : op X) (w : sim)
  : reply X * positive * sim :=
  match o in op X return reply X * positive * sim with
  | Drv d c =>
      match c in drv_op X return reply X * positive * sim with
      | FindElements CssNumeric => (Ok [], 1%positive, w)
      | c' => sim_answer _ (Drv d c') w
      end
  | o' => sim_answer _ o' w
  end.

Definition stuck_env : Env := {|
  W := sim;
  answer := stuck_answer;
  random := fun w => (0%N, w);
  ticks_per_second := 1%positive;
|}.

(** Like [happy_world], but [driver.service.stop()] raises. *)
Definition stubborn_world : sim :=
  Sim false [true; true; true] false [] [code_mail 1]
      [client_cookie "accounts.example.com" "tok_abc"] (Ok 201%N)
      (Raise Exception).

Definition stuck_start (w : sim) : state (env:=stuck_env) unit :=
  State (env:=stuck_env) tt w 0%N.


Definition null_subject_mail (id : nat) : message :=
  Message (Hashable id) JFalsy (JStr (lit "Your code is 482913")) JMissing.


Definition null_subject_world : sim :=
  Sim false [] false [] [null_subject_mail 1] [] (Ok 201%N) (Ok tt).

(** A page with one frame, where the click script reports a click inside the
    frame and the first switch back to the default content fails.  The state
    counts the calls of the script and of the switch back. *)
Definition frame_trap_answer (X : Type) (o : op X) (n : nat)
  : reply X * positive * nat :=
  match o in op X return reply X * positive * nat with
  | Drv d c =>
      match c in drv_op X return reply X * positive * nat with
      | FindAndClick => (Ok (0 <? n)%nat, 1%positive, S n)
      | FindElements TagIframe => (Ok [7%N], 1%positive, n)
      | SwitchToDefault =>
          (if (n <? 3)%nat then Raise Exception else Ok tt, 1%positive, S n)
      | c' => ((sim_answer _ (Drv d c') happy_world).1, n)
      end
  | o' => ((sim_answer _ o' happy_world).1, n)
  end.

Definition frame_trap_env : Env := {|
  W := nat;
  answer := frame_trap_answer;
  random := fun n => (0%N, n);
  ticks_per_second := 1%positive;
|}.

Definition frame_trap_start : state (env:=frame_trap_env) unit :=
  State (env:=frame_trap_env) tt O 0%N.

(** A mailbox backend that fails at every request; a request takes one
    second. *)
Definition dead_mailbox_answer (X : Type) (o : op X) (w : sim)
  : reply X * positive * sim :=
  match o in op X return reply X * positive * sim with
  | MailFetch _ => (Raise Exception, 1%positive, w)
  | o' => sim_answer _ o' w
  end.

Definition dead_mailbox_env : Env := {|
  W := sim;
  answer := dead_mailbox_answer;
  random := fun w => (0%N, w);
  ticks_per_second := 1%positive;
|}.

Definition dead_mailbox_start : state (env:=dead_mailbox_env) unit :=
  State (env:=dead_mailbox_env) tt happy_world 0%N.



(** ** Predicates on runs *)

Section RunPredicates.
Context {ids : MailIds} {env : Env}.

(** Every event that [m] emits satisfies [P], whatever the state it starts
    from and whatever the environment answers. *)
Definition emits {L R A} (P : event → Prop) (m : M L R A) : Prop :=
  ∀ s, Forall P (emitted (m s)).

(** [m] leaves the component [f] of the local variables as it is. *)
Definition keeps {L R A X} (f : L → X) (m : M L R A) : Prop :=
  ∀ s, f (locals (post (m s))) = f (locals s).

(** [wp m s Q]: the run of [m] from [s] ends in a result that satisfies
    [Q].  The lemmas below follow the run through the constructs of the
    monad, one statement at a time. *)
Definition wp {L R A} (m : M L R A) (s : state L)
    (Q : result L R A → Prop) : Prop :=
  Q (m s).

(** When [m] ends with [return v], [v] satisfies [P]. *)
Definition returns {L R A} (P : R → Prop) (m : M L R A) : Prop :=
  ∀ s v, out (m s) = Returned v → P v.
End RunPredicates.
(** * Properties *)

(** ** The code extractor *)

Section ExtractorFacts.
Context {char : Type} (digit : char → bool).
Implicit Types (s : list char) (prev : option char).

Lemma digit_at_cons c s k : digit_at digit (c :: s) (S k) ↔ digit_at digit s k.
Proof. reflexivity. Qed.

Lemma digit_at_head c s : digit_at digit (c :: s) 0 ↔ digit c = true.
Proof.
  unfold digit_at; simpl. split.
  - intros (c' & [= <-] & Hc). exact Hc.
  - intros Hc. exists c. auto.
Qed.

Lemma digit_at_nil k : ¬ digit_at digit [] k.
Proof. intros (c & Hc & _). destruct k; discriminate. Qed.

Lemma digit_run_cons c s a n :
  digit_run digit (c :: s) (S a) n ↔ digit_run digit s a n.
Proof.
  unfold digit_run. split; intros Hr k Hk.
  - apply (proj1 (digit_at_cons c s k)). apply Hr. lia.
  - destruct k as [|k]; [lia|]. apply digit_at_cons. apply Hr. lia.
Qed.

Lemma digit_run_head c s n :
  digit_run digit (c :: s) 0 (S n) ↔ digit c = true ∧ digit_run digit s 0 n.
Proof.
  unfold digit_run. split.
  - intros Hr. split.
    + apply (proj1 (digit_at_head c s)). apply Hr. lia.
    + intros k Hk. apply (proj1 (digit_at_cons c s k)). apply Hr. lia.
  - intros [Hc Hr] [|k] Hk.
    + apply digit_at_head. exact Hc.
    + apply digit_at_cons. apply Hr. lia.
Qed.

Lemma digits_prefix_run n s :
  digits_prefix digit n s = true ↔ digit_run digit s 0 n.
Proof.
  revert s. induction n as [|n IH]; intros s; simpl.
  - split; [|done]. intros _ k Hk. lia.
  - destruct s as [|c s].
    + split; [done|]. intros Hr. destruct (digit_at_nil 0). apply Hr. lia.
    + rewrite andb_true_iff, IH, digit_run_head. reflexivity.
Qed.

Lemma lookahead_ok_drop s n :
  lookahead_ok digit (drop n s) = true ↔ ¬ digit_at digit s n.
Proof.
  unfold lookahead_ok, digit_at.
  destruct (drop n s) as [|c t] eqn:Hd.
  - split; [|done]. intros _ (c & Hc & _).
    apply lookup_lt_Some in Hc. apply drop_nil_inv in Hd. lia.
  - assert (s !! n = Some c) as Hn.
    { rewrite <- (Nat.add_0_r n), <- lookup_drop, Hd. reflexivity. }
    rewrite negb_true_iff. split.
    + intros Hc (c' & Hc' & Hd'). congruence.
    + intros Hno. destruct (digit c) eqn:Hc; [|done].
      destruct Hno. eauto.
Qed.

Lemma match_here_isolated prev s g :
  match_here digit prev s = Some g ↔
  isolated6_after digit prev s 0 ∧ g = take 6 s.
Proof.
  unfold match_here, isolated6_after.
  pose proof (digits_prefix_run 6 s) as Hp.
  pose proof (lookahead_ok_drop s 6) as Ha.
  destruct (lookbehind_ok digit prev), (digits_prefix digit 6 s),
    (lookahead_ok digit (drop 6 s)); cbn [andb].
  1: { split; [intros [= <-] | intros [_ ->]; done].
       repeat split; [apply Hp | apply Ha]; done. }
  all: split; [done|]; intros [(Hr & Hno & Hb) _].
  all: try (apply Ha in Hno; discriminate).
  all: try (apply Hp in Hr; discriminate).
  all: discriminate.
Qed.

Lemma isolated6_after_shift prev c s i :
  isolated6_after digit prev (c :: s) (S i) ↔
  isolated6_after digit (Some c) s i.
Proof.
  unfold isolated6_after. rewrite digit_run_cons.
  change (S i + 6)%nat with (S (i + 6)). rewrite digit_at_cons.
  destruct i as [|i].
  - rewrite digit_at_head. simpl. rewrite negb_true_iff.
    destruct (digit c); intuition congruence.
  - rewrite digit_at_cons. reflexivity.
Qed.

Lemma isolated6_after_none s i :
  isolated6_after digit None s i ↔ isolated6 digit s i.
Proof.
  unfold isolated6_after, isolated6. destruct i as [|i]; simpl.
  - intuition lia.
  - split.
    + intros (Hr & Ha & Hb). repeat split; try done.
      intros k [= ->]. done.
    + intros (Hr & Hb & Ha). repeat split; try done. by apply Hb.
Qed.

(** What [search_from] returns: the first position that carries an isolated
    run, with the run; nothing when no position does. *)
Lemma search_from_first prev s :
  match search_from digit prev s with
  | Some (i, g) =>
      isolated6_after digit prev s i ∧
      (∀ j, (j < i)%nat → ¬ isolated6_after digit prev s j) ∧
      g = take 6 (drop i s)
  | None => ∀ i, ¬ isolated6_after digit prev s i
  end.
Proof.
  revert prev. induction s as [|c s IH]; intros prev; simpl.
  - destruct (match_here digit prev []) as [g|] eqn:Hm.
    + apply match_here_isolated in Hm as [Hi ->].
      split; [done|]. split; [lia|done].
    + intros i (Hr & _). destruct (digit_at_nil i). apply Hr. lia.
  - destruct (match_here digit prev (c :: s)) as [g|] eqn:Hm.
    + apply match_here_isolated in Hm as [Hi ->].
      split; [done|]. split; [lia|done].
    + assert (¬ isolated6_after digit prev (c :: s) 0) as H0.
      { intros Hi.
        assert (match_here digit prev (c :: s) = Some (take 6 (c :: s))) as Hs
          by (apply match_here_isolated; done).
        congruence. }
      specialize (IH (Some c)).
      destruct (search_from digit (Some c) s) as [[i g]|].
      * destruct IH as (Hi & Hfirst & ->). split; [|split; [|done]].
        -- by apply isolated6_after_shift.
        -- intros [|j] Hj; [done|].
           rewrite isolated6_after_shift. apply Hfirst. lia.
      * intros [|i]; [done|]. rewrite isolated6_after_shift. apply IH.
Qed.

Lemma re_search_first s :
  match re_search digit s with
  | Some (i, g) => first_isolated6 digit s i ∧ g = take 6 (drop i s)
  | None => ∀ i, ¬ isolated6 digit s i
  end.
Proof.
  unfold re_search, first_isolated6.
  pose proof (search_from_first None s) as Hs.
  destruct (search_from digit None s) as [[i g]|].
  - destruct Hs as (Hi & Hfirst & ->). split; [|done]. split.
    + by apply isolated6_after_none.
    + intros j Hj Hiso. apply (Hfirst j Hj). by apply isolated6_after_none.
  - intros i Hiso. apply (Hs i). by apply isolated6_after_none.
Qed.

Lemma first_isolated6_unique s i j :
  first_isolated6 digit s i → first_isolated6 digit s j → i = j.
Proof.
  intros [Hi Hfi] [Hj Hfj].
  destruct (Nat.lt_trichotomy i j) as [Hlt|[->|Hlt]]; [|done|].
  - destruct (Hfj i Hlt Hi).
  - destruct (Hfi j Hlt Hj).
Qed.

(** A match never lies inside a run of seven digits or more. *)
Lemma isolated6_not_in_longer_run s a n i :
  (7 ≤ n)%nat → digit_run digit s a n → isolated6 digit s i →
  ¬ (a ≤ i ∧ i + 6 ≤ a + n)%nat.
Proof.
  intros Hn Hrun (_ & Hbefore & Hafter) [Hai Hin].
  destruct (decide (i = a)) as [->|Hne].
  - apply Hafter. apply Hrun. lia.
  - destruct i as [|k]; [lia|].
    apply (Hbefore k eq_refl). apply Hrun. lia.
Qed.
End ExtractorFacts.

(** C1. Code extractor: the extraction returns the first maximal run of
    exactly six digits that has no digit just before and none just after
    it, and nothing when the text has no such run; a match never lies inside
    a run of seven digits or more, and a text without a run of six digits
    gives nothing. *)
Theorem extract_code_first_isolated_run {char : Type} (digit : char → bool)
    (s : list char) :
  (∀ g, extract_code digit s = Some g ↔
        ∃ i, first_isolated6 digit s i ∧ g = take 6 (drop i s)) ∧
  (extract_code digit s = None ↔ ∀ i, ¬ isolated6 digit s i) ∧
  (∀ a n i g, (7 ≤ n)%nat → digit_run digit s a n →
              re_search digit s = Some (i, g) →
              ¬ (a ≤ i ∧ i + 6 ≤ a + n)%nat) ∧
  ((∀ a, ¬ digit_run digit s a 6) → extract_code digit s = None).
Proof.
  pose proof (re_search_first digit s) as Hs. unfold extract_code.
  destruct (re_search digit s) as [[i g]|]; simpl.
  - destruct Hs as [Hfirst ->]. repeat split.
    + intros [= <-]. eauto.
    + intros (j & Hj & ->).
      by rewrite (first_isolated6_unique digit s i j Hfirst Hj).
    + done.
    + intros Hno. destruct Hfirst as [Hiso _]. destruct (Hno i Hiso).
    + intros a n i' g' Hn Hrun [= <- <-].
      apply (isolated6_not_in_longer_run digit s a n i Hn Hrun).
      apply Hfirst.
    + intros Hno. destruct Hfirst as [(Hrun & _) _]. destruct (Hno i Hrun).
  - repeat split; try done.
    intros (j & [Hj _] & _). destruct (Hs j Hj).
Qed.

Example extract_code_subject :
  extract_code ascii_digit (lit "Your code is 482913") = Some (lit "482913").
Proof. reflexivity. Qed.

Example extract_code_skips_long_run :
  re_search ascii_digit (lit "ref 20240115 code 482913.") =
  Some (18%nat, lit "482913").
Proof. reflexivity. Qed.

Example extract_code_long_run_only :
  extract_code ascii_digit (lit "call 4829137 now") = None.
Proof. reflexivity. Qed.

Example extract_code_short_run :
  extract_code ascii_digit (lit "pin 48291") = None.
Proof. reflexivity. Qed.

(** ** Reasoning about runs *)

Section Runs.
Context {ids : MailIds} {env : Env}.


Lemma emits_weaken {L R A} (P Q : event → Prop) (m : M L R A) :
  (∀ e, P e → Q e) → emits P m → emits Q m.
Proof. intros HPQ Hm s. eapply Forall_impl; [apply Hm | exact HPQ]. Qed.

Lemma emits_ret {L R A} P (a : A) : emits P (ret (L:=L) (R:=R) a).
Proof. intros s. constructor. Qed.

Lemma emits_raise {L R A} P e : emits P (raise (L:=L) (R:=R) (A:=A) e).
Proof. intros s. constructor. Qed.

Lemma emits_return {L R A} P v : emits P (return_ (L:=L) (R:=R) (A:=A) v).
Proof. intros s. constructor. Qed.

Lemma emits_get_locals {L R} P : emits P (get_locals (L:=L) (R:=R)).
Proof. intros s. constructor. Qed.

Lemma emits_set_locals {L R} P f : emits P (set_locals (L:=L) (R:=R) f).
Proof. intros s. constructor. Qed.

Lemma emits_time {L R} P : emits P (time (L:=L) (R:=R)).
Proof. intros s. constructor. Qed.

Lemma emits_randint {L R} P a b : emits P (randint (L:=L) (R:=R) a b).
Proof. intros s. unfold randint. destruct (random (world s)). constructor. Qed.

Lemma emits_emit {L R} (P : event → Prop) e :
  P e → emits P (emit (L:=L) (R:=R) e).
Proof. intros He s. by repeat constructor. Qed.

Lemma emits_print {L R} (P : event → Prop) l :
  P (EvPrint l) → emits P (print (L:=L) (R:=R) l).
Proof. apply emits_emit. Qed.

Lemma emits_log {L R} (P : event → Prop) lv m :
  P (EvPrint (LogLine lv m)) → emits P (log (L:=L) (R:=R) lv m).
Proof. apply emits_emit. Qed.

Lemma emits_sleep {L R} (P : event → Prop) secs :
  P (EvSleep secs) → emits P (sleep (L:=L) (R:=R) secs).
Proof. intros He s. by repeat constructor. Qed.

Lemma emits_call_env {L R X} (P : event → Prop) (o : op X) :
  (∀ r, P (EvCall o r)) → emits P (call_env (L:=L) (R:=R) o).
Proof.
  intros He s. unfold call_env.
  destruct (answer X o (world s)) as [[r dt] w]. by repeat constructor.
Qed.

Lemma emits_drv {L R X} (P : event → Prop) d (c : drv_op X) :
  (∀ r, P (EvCall (Drv d c) r)) → emits P (drv (L:=L) (R:=R) d c).
Proof. apply emits_call_env. Qed.

Lemma emits_bind {L R A B} P (m : M L R A) (k : A → M L R B) :
  emits P m → (∀ a, emits P (k a)) → emits P (bind m k).
Proof.
  intros Hm Hk s. unfold bind. specialize (Hm s).
  destruct (out (m s)); simpl; [|done..].
  apply Forall_app. split; [done | apply Hk].
Qed.

Lemma emits_try_except {L R A} P catches (body : M L R A) handler :
  emits P body → (∀ e, emits P (handler e)) →
  emits P (try_except catches body handler).
Proof.
  intros Hb Hh s. unfold try_except. specialize (Hb s).
  destruct (out (body s)) as [| e |]; [done| |done].
  destruct (catches e); [|done]. simpl.
  apply Forall_app. split; [done | apply Hh].
Qed.

Lemma emits_try_finally {L R A} P (body : M L R A) final :
  emits P body → emits P final → emits P (try_finally body final).
Proof.
  intros Hb Hf s. unfold try_finally. simpl.
  apply Forall_app. split; [apply Hb | apply Hf].
Qed.

Lemma emits_call {L L' R R'} P (body : M L' R' R') init :
  emits P body → emits P (call (L:=L) (R:=R) body init).
Proof. intros Hb s. unfold call. simpl. apply Hb. Qed.

Lemma keeps_ret {L R A X} (f : L → X) (a : A) : keeps f (ret (R:=R) a).
Proof. done. Qed.

Lemma keeps_raise {L R A X} (f : L → X) e : keeps f (raise (R:=R) (A:=A) e).
Proof. done. Qed.

Lemma keeps_return {L R A X} (f : L → X) v : keeps f (return_ (R:=R) (A:=A) v).
Proof. done. Qed.

Lemma keeps_get_locals {L R X} (f : L → X) : keeps f (get_locals (R:=R)).
Proof. done. Qed.

Lemma keeps_set_locals {L R X} (f : L → X) g :
  (∀ l, f (g l) = f l) → keeps f (set_locals (R:=R) g).
Proof. intros Hg s. apply Hg. Qed.

Lemma keeps_time {L R X} (f : L → X) : keeps f (time (R:=R)).
Proof. done. Qed.

Lemma keeps_randint {L R X} (f : L → X) a b : keeps f (randint (R:=R) a b).
Proof. intros s. unfold randint. by destruct (random (world s)). Qed.

Lemma keeps_emit {L R X} (f : L → X) e : keeps f (emit (R:=R) e).
Proof. done. Qed.

Lemma keeps_print {L R X} (f : L → X) l : keeps f (print (R:=R) l).
Proof. done. Qed.

Lemma keeps_log {L R X} (f : L → X) lv m : keeps f (log (R:=R) lv m).
Proof. done. Qed.

Lemma keeps_sleep {L R X} (f : L → X) secs : keeps f (sleep (R:=R) secs).
Proof. done. Qed.

Lemma keeps_call_env {L R X Y} (f : L → X) (o : op Y) :
  keeps f (call_env (R:=R) o).
Proof.
  intros s. unfold call_env. by destruct (answer Y o (world s)) as [[r dt] w].
Qed.

Lemma keeps_drv {L R X Y} (f : L → X) d (c : drv_op Y) :
  keeps f (drv (R:=R) d c).
Proof. apply keeps_call_env. Qed.

Lemma keeps_bind {L R A B X} (f : L → X) (m : M L R A) (k : A → M L R B) :
  keeps f m → (∀ a, keeps f (k a)) → keeps f (bind m k).
Proof.
  intros Hm Hk s. unfold bind. specialize (Hm s).
  destruct (out (m s)); simpl; [|done..].
  by rewrite Hk.
Qed.

Lemma keeps_try_except {L R A X} (f : L → X) catches (body : M L R A) handler :
  keeps f body → (∀ e, keeps f (handler e)) →
  keeps f (try_except catches body handler).
Proof.
  intros Hb Hh s. unfold try_except. specialize (Hb s).
  destruct (out (body s)) as [| e |]; [done| |done].
  destruct (catches e); [|done]. simpl. by rewrite Hh.
Qed.

Lemma keeps_call {L L' R R' X} (f : L → X) (body : M L' R' R') init :
  keeps f (call (R:=R) body init).
Proof. done. Qed.
End Runs.

(** Going through a function body, statement by statement. *)

Ltac crush_events :=
  let e := fresh "e" in
  intros e; destruct e;
  repeat (simpl;
          match goal with
          | |- context [match ?x with _ => _ end] => is_var x; destruct x
          end);
  simpl; try done; try discriminate.

Ltac unfold_alphabets :=
  unfold attempt_event, steps_event, early_event, publish_event, code_event,
    pass_check_stage_event, pass_check_event, form_event.

Ltac unfold_alphabets_in H :=
  unfold attempt_event, steps_event, early_event, publish_event, code_event,
    pass_check_stage_event, pass_check_event, form_event in H.

(** [alpha e = true → P e]: the alphabet [alpha] is a union of basic ones;
    either [P] is a union that holds the basic one, or the events are gone
    through one by one. *)
Ltac alpha_side :=
  let e := fresh "e" in
  let He := fresh "He" in
  intros e He; cbv beta in *;
  unfold_alphabets_in He;
  repeat (apply orb_true_iff in He; destruct He as [He|He]);
  first
    [ solve [ unfold_alphabets; rewrite He, ?orb_true_r; reflexivity ]
    | revert e He; crush_events ].

Ltac walk_side :=
  intros; cbv beta;
  first
    [ reflexivity
    | done
    | repeat match goal with r : reply _ |- _ => destruct r end; reflexivity ].

Ltac walk_callee := fail.

Ltac walk1 :=
  lazymatch goal with
  | |- emits _ (bind _ _) => apply emits_bind; [| intros ?]
  | |- emits _ (ret _) => apply emits_ret
  | |- emits _ (raise _) => apply emits_raise
  | |- emits _ (return_ _) => apply emits_return
  | |- emits _ get_locals => apply emits_get_locals
  | |- emits _ (set_locals _) => apply emits_set_locals
  | |- emits _ (set_driver _) => apply emits_set_locals
  | |- emits _ (set_success _) => apply emits_set_locals
  | |- emits _ time => apply emits_time
  | |- emits _ (randint _ _) => apply emits_randint
  | |- emits _ (log _ _) => apply emits_log; walk_side
  | |- emits _ (print _) => apply emits_print; walk_side
  | |- emits _ (emit _) => apply emits_emit; walk_side
  | |- emits _ (sleep _) => apply emits_sleep; walk_side
  | |- emits _ (drv _ _) => apply emits_drv; walk_side
  | |- emits _ (call_env _) => apply emits_call_env; walk_side
  | |- emits _ (try_except _ _ _) => apply emits_try_except; [| intros ?]
  | |- emits _ (try_finally _ _) => apply emits_try_finally
  | |- emits _ (call _ _) => apply emits_call
  | |- emits _ (if ?b then _ else _) => destruct b
  | |- emits _ (match ?x with _ => _ end) => destruct x
  | |- emits _ (let _ := _ in _) => cbv zeta
  | |- emits _ _ => walk_callee
  end.

Ltac walk := repeat walk1.

Section Alphabets.
Context {py : PyRuntime} {ids : MailIds} {env : Env}.

Lemma random_chars_silent {L R} n chars :
  emits (fun _ => False) (random_chars (L:=L) (R:=R) n chars).
Proof. induction n; simpl; unfold random_choice; walk. apply IHn. Qed.

Lemma generate_password_silent {L R} :
  emits (fun _ => False) (generate_password (L:=L) (R:=R)).
Proof. unfold generate_password. walk. apply random_chars_silent. Qed.

Lemma create_temp_email_events {L R} :
  emits (fun e => mail_event e = true) (create_temp_email (L:=L) (R:=R)).
Proof. unfold create_temp_email. walk. Qed.

Lemma upload_to_server_events {L R} client_key server_url :
  emits (fun e => upload_event e = true)
        (upload_to_server (L:=L) (R:=R) client_key server_url).
Proof. unfold upload_to_server. walk. Qed.

Lemma search_sources_events {L} email_id sources :
  emits (fun e => wait_event e = true) (search_sources (L:=L) email_id sources).
Proof.
  induction sources as [|[src v] rest IH]; simpl; walk; apply IH.
Qed.

Lemma poll_events email : emits (fun e => wait_event e = true) (poll email).
Proof. unfold poll. walk; apply search_sources_events. Qed.

Lemma wait_loop_events fuel email start :
  emits (fun e => wait_event e = true) (wait_loop fuel email start).
Proof.
  induction fuel as [|fuel IH]; simpl; walk; [apply poll_events | apply IH].
Qed.

Lemma wait_for_code_events {L R} email :
  emits (fun e => wait_event e = true) (wait_for_code (L:=L) (R:=R) email).
Proof.
  unfold wait_for_code, wait_for_code_body. walk. apply wait_loop_events.
Qed.

Lemma frames_loop_events d index iframes :
  emits (fun e => solver_event e = true) (frames_loop d index iframes).
Proof.
  revert index. induction iframes as [|frame rest IH]; intros index; simpl;
    walk; apply IH.
Qed.

Lemma force_inject_turnstile_events {L R} d :
  emits (fun e => solver_event e = true)
        (force_inject_turnstile (L:=L) (R:=R) d).
Proof. unfold force_inject_turnstile. walk. apply frames_loop_events. Qed.
End Alphabets.

(** ** Following one run *)

Section Wp.
Context {ids : MailIds} {env : Env}.

Lemma wp_bind {L R A B} (m : M L R A) (k : A → M L R B) s Q :
  wp m s (fun r1 =>
    match out r1 with
    | Normal a =>
        wp (k a) (post r1)
           (fun r2 => Q (Result (out r2) (post r2) (emitted r1 ++ emitted r2)))
    | Raised e => Q (Result (Raised e) (post r1) (emitted r1))
    | Returned v => Q (Result (Returned v) (post r1) (emitted r1))
    end) →
  wp (bind m k) s Q.
Proof. unfold wp, bind. by destruct (out (m s)). Qed.

Lemma wp_try_except {L R A} (catches : exn → bool) (body : M L R A) handler s Q :
  wp body s (fun r1 =>
    match out r1 with
    | Raised e =>
        if catches e then
          wp (handler e) (post r1)
             (fun r2 => Q (Result (out r2) (post r2) (emitted r1 ++ emitted r2)))
        else Q r1
    | _ => Q r1
    end) →
  wp (try_except catches body handler) s Q.
Proof.
  unfold wp, try_except. destruct (out (body s)) as [| e |]; try done.
  by destruct (catches e).
Qed.

Lemma wp_try_finally {L R A} (body : M L R A) final s Q :
  wp body s (fun r1 =>
    wp final (post r1) (fun f =>
      Q (Result (match out f with
                 | Normal _ => out r1
                 | Raised e => Raised e
                 | Returned v => Returned v
                 end) (post f) (emitted r1 ++ emitted f)))) →
  wp (try_finally body final) s Q.
Proof. done. Qed.

Lemma wp_call {L L' R R'} (body : M L' R' R') init (s : state L)
    (Q : result L R R' → Prop) :
  wp body (State init (world s) (clock s)) (fun r =>
    Q (Result (match out r with
               | Normal v | Returned v => Normal v
               | Raised e => Raised e
               end)
              (State (locals s) (world (post r)) (clock (post r)))
              (emitted r))) →
  wp (call body init) s Q.
Proof. done. Qed.

Lemma wp_call_env {L R X} (o : op X) (s : state L) (Q : result L R X → Prop) :
  (∀ r dt w, answer X o (world s) = (r, dt, w) →
     Q (Result (match r with Ok x => Normal x | Raise e => Raised e end)
               (State (locals s) w (clock s + Npos dt)%N) [EvCall o r])) →
  wp (call_env o) s Q.
Proof.
  unfold wp, call_env. intros HQ.
  destruct (answer X o (world s)) as [[r dt] w]. by apply HQ.
Qed.

Lemma wp_randint {L R} a b (s : state L) (Q : result L R N → Prop) :
  (∀ n w, Q (Result (Normal (a + n mod (b - a + 1))%N)
                    (State (locals s) w (clock s)) [])) →
  wp (randint a b) s Q.
Proof.
  unfold wp, randint. intros HQ. destruct (random (world s)). apply HQ.
Qed.

Lemma wp_ret {L R A} (a : A) (s : state L) (Q : result L R A → Prop) :
  Q (Result (Normal a) s []) → wp (ret a) s Q.
Proof. done. Qed.

Lemma wp_raise {L R A} e (s : state L) (Q : result L R A → Prop) :
  Q (Result (Raised e) s []) → wp (raise e) s Q.
Proof. done. Qed.

Lemma wp_return {L R A} v (s : state L) (Q : result L R A → Prop) :
  Q (Result (Returned v) s []) → wp (return_ v) s Q.
Proof. done. Qed.

Lemma wp_get_locals {L R} (s : state L) (Q : result L R L → Prop) :
  Q (Result (Normal (locals s)) s []) → wp get_locals s Q.
Proof. done. Qed.

Lemma wp_set_locals {L R} f (s : state L) (Q : result L R unit → Prop) :
  Q (Result (Normal tt) (State (f (locals s)) (world s) (clock s)) []) →
  wp (set_locals f) s Q.
Proof. done. Qed.

Lemma wp_time {L R} (s : state L) (Q : result L R N → Prop) :
  Q (Result (Normal (clock s)) s []) → wp time s Q.
Proof. done. Qed.

Lemma wp_emit {L R} e (s : state L) (Q : result L R unit → Prop) :
  Q (Result (Normal tt) s [e]) → wp (emit e) s Q.
Proof. done. Qed.

Lemma wp_sleep {L R} secs (s : state L) (Q : result L R unit → Prop) :
  Q (Result (Normal tt)
            (State (locals s) (world s)
                   (clock s + secs * Npos ticks_per_second)%N)
            [EvSleep secs]) →
  wp (sleep secs) s Q.
Proof. done. Qed.

(** Use what is known about the run of [m]. *)
Lemma wp_result {L R A} (m : M L R A) s (Q : result L R A → Prop) :
  (∀ r, r = m s → Q r) → wp m s Q.
Proof. intros HQ. by apply HQ. Qed.

Lemma wp_done {L R A} (m : M L R A) s (Q : result L R A → Prop) :
  wp m s Q → Q (m s).
Proof. done. Qed.
End Wp.

Ltac red_run :=
  cbn beta iota zeta delta
    [out post emitted locals world clock fst snd driver success any_exn
     is_Exception is_ImportError].

Ltac red_run_in H :=
  cbn beta iota zeta delta
    [out post emitted locals world clock fst snd driver success any_exn
     is_Exception is_ImportError] in H.

(** Start following the run of [m] from [s]: the goal speaks of [m s]. *)
Ltac wp_start m s :=
  apply (wp_done m s);
  lazymatch goal with
  | |- wp _ _ ?Q => let q := fresh "Q" in set (q := Q)
  end.

(** One statement of the body. *)
Ltac wp_step :=
  red_run;
  lazymatch goal with
  | |- wp (bind _ _) _ _ => apply wp_bind
  | |- wp (try_except _ _ _) _ _ => apply wp_try_except
  | |- wp (try_finally _ _) _ _ => apply wp_try_finally
  | |- wp (call _ _) _ _ => apply wp_call
  | |- wp (ret _) _ _ => apply wp_ret
  | |- wp (raise _) _ _ => apply wp_raise
  | |- wp (return_ _) _ _ => apply wp_return
  | |- wp get_locals _ _ => apply wp_get_locals
  | |- wp (set_locals _) _ _ => apply wp_set_locals
  | |- wp (set_driver _) _ _ => unfold set_driver; apply wp_set_locals
  | |- wp (set_success _) _ _ => unfold set_success; apply wp_set_locals
  | |- wp time _ _ => apply wp_time
  | |- wp (emit _) _ _ => apply wp_emit
  | |- wp (print _) _ _ => unfold print; apply wp_emit
  | |- wp (log _ _) _ _ => unfold log, print; apply wp_emit
  | |- wp (sleep _) _ _ => apply wp_sleep
  | |- wp (call_env _) _ _ =>
      let r := fresh "rp" in let dt := fresh "dt" in let w := fresh "w" in
      let Ha := fresh "Hanswer" in
      apply wp_call_env; intros r dt w Ha; destruct r
  | |- wp (drv _ _) _ _ =>
      let r := fresh "rp" in let dt := fresh "dt" in let w := fresh "w" in
      let Ha := fresh "Hanswer" in
      unfold drv; apply wp_call_env; intros r dt w Ha; destruct r
  | |- wp (if ?b then _ else _) _ _ =>
      let Hb := fresh "Hif" in destruct b eqn:Hb
  | |- (if ?b then _ else _) =>
      let Hb := fresh "Hif" in destruct b eqn:Hb
  | |- wp (match ?x with _ => _ end) _ _ =>
      let Hx := fresh "Hcase" in destruct x eqn:Hx
  | |- wp (randint _ _) _ _ =>
      let n := fresh "n" in let w := fresh "w" in
      apply wp_randint; intros n w
  end;
  red_run.

Ltac wp_steps := repeat wp_step.

(** Bring in a lemma about the run at the head of the goal. *)
Ltac wp_use lem :=
  lazymatch goal with
  | |- wp ?m ?s _ =>
      let r := fresh "r" in let Hr := fresh "Hr" in let Hl := fresh "Hrun" in
      apply wp_result; intros r Hr;
      pose proof lem as Hl; red_run_in Hl; rewrite <- Hr in Hl;
      clear Hr; destruct r as [? ? ?]; red_run_in Hl
  end.

(** ** The events of the stages of an attempt *)

Ltac weaken_to lem := eapply emits_weaken; [| apply lem]; alpha_side.

Section Stages.
Context {py : PyRuntime} {ids : MailIds} {env : Env}.

Lemma pass_check_loop_events {L R} d remaining :
  emits (fun e => pass_check_event e = true)
        (pass_check_loop (L:=L) (R:=R) d remaining).
Proof.
  induction remaining as [|n IH]; simpl; walk; try apply IH.
  weaken_to (force_inject_turnstile_events (L:=L) (R:=R) d). 
Qed.

Lemma click_continue_events {L R} d btns :
  emits (fun e => button_event e = true) (click_continue (L:=L) (R:=R) d btns).
Proof. induction btns as [|btn rest IH]; simpl; walk; apply IH. Qed.

Lemma scan_cookies_events {L R} all_cookies client_key :
  emits (fun e => cookie_scan_event e = true)
        (scan_cookies (L:=L) (R:=R) all_cookies client_key).
Proof.
  revert client_key.
  induction all_cookies as [|c rest IH]; intros client_key; simpl; walk;
    apply IH.
Qed.
End Stages.

Ltac walk_callee ::=
  lazymatch goal with
  | |- emits _ generate_password => weaken_to generate_password_silent
  | |- emits _ create_temp_email => weaken_to create_temp_email_events
  | |- emits _ (upload_to_server _ _) => weaken_to upload_to_server_events
  | |- emits _ (wait_for_code _) => weaken_to wait_for_code_events
  | |- emits _ (force_inject_turnstile _) => weaken_to force_inject_turnstile_events
  | |- emits _ (pass_check_loop _ _) => weaken_to pass_check_loop_events
  | |- emits _ (click_continue _ _) => weaken_to click_continue_events
  | |- emits _ (scan_cookies _ _) => weaken_to scan_cookies_events
  | |- emits _ (username_step _) => unfold username_step
  | |- emits _ (read_cookies _) => unfold read_cookies
  end.

Section StageEvents.
Context {py : PyRuntime} {ids : MailIds} {env : Env}.

Lemma reach_signup_events {L} d :
  emits (fun e => form_event e = true) (reach_signup (L:=L) d).
Proof. unfold reach_signup. walk. Qed.

Lemma fill_form_events {L} d :
  emits (fun e => form_event e = true) (fill_form (L:=L) d).
Proof. unfold fill_form. walk. Qed.

Lemma pass_check_stage_events d :
  emits (fun e => pass_check_stage_event e = true) (pass_check_stage d).
Proof. unfold pass_check_stage. walk. Qed.

Lemma await_code_events {L R} d email :
  emits (fun e => code_event e = true) (await_code (L:=L) (R:=R) d email).
Proof. unfold await_code. walk. Qed.

Lemma enter_code_events {L R} d otp_input code :
  emits (fun e => code_event e = true)
        (enter_code (L:=L) (R:=R) d otp_input code).
Proof. unfold enter_code. walk. Qed.

Lemma read_cookies_events {L R} d :
  emits (fun e => code_event e = true) (read_cookies (L:=L) (R:=R) d).
Proof. unfold read_cookies. walk. Qed.

Lemma scan_cookies_code_events {L R} all_cookies client_key :
  emits (fun e => code_event e = true)
        (scan_cookies (L:=L) (R:=R) all_cookies client_key).
Proof. walk. Qed.

Lemma publish_key_events client_key server_url :
  emits (fun e => publish_event e = true) (publish_key client_key server_url).
Proof. unfold publish_key. walk. Qed.

Lemma close_driver_events :
  emits (fun e => close_event e = true) close_driver.
Proof. unfold close_driver. walk. Qed.
End StageEvents.
Section WaitForCode.
Context {py : PyRuntime} {ids : MailIds} {env : Env}.

Local Arguments extract_code : simpl never.
Local Arguments clean_content : simpl never.

Ltac run_search :=
  unfold search_sources, bind, log, print, emit, raise, ret, return_; simpl;
  repeat (case_match; simpl in *; simplify_eq/=).

Lemma search_sources_two {L} email_id subject text (s : state L) :
  let r := search_sources email_id [(Subject, subject); (Body, JStr text)] s in
  post r = s ∧
  (out r = Normal tt ∨ out r = Raised Exception ∨
   ∃ code, out r = Returned (Some code)) ∧
  (searches (emitted r) = [(email_id, Subject)] ∨
   searches (emitted r) = [(email_id, Subject); (email_id, Body)]) ∧
  Forall (fun e => is_fetch e = false) (emitted r).
Proof.
  run_search.
  all: split_and!; eauto; repeat constructor.
Qed.
End WaitForCode.
Section WaitForCode2.
Context {py : PyRuntime} {ids : MailIds} {env : Env}.

(** One turn of the loop of [wait_for_code]. *)
Lemma poll_turn email s :
  let r := poll email s in
  (out r = Normal tt ∨ ∃ code, out r = Returned (Some code)) ∧
  (clock s < clock (post r))%N ∧
  locals s ⊆ locals (post r) ∧
  NoDup (searches (emitted r)) ∧
  (∀ id src, (id, src) ∈ searches (emitted r) →
             (id ∉ locals s) ∧ id ∈ locals (post r)) ∧
  ∃ rp t, emitted r = EvCall (MailFetch email) rp :: t ∧
          Forall (fun e => is_fetch e = false) t ∧
          (∀ e, rp = Raise e → t = []).
Proof.
  wp_start (poll email) s. unfold poll.
  wp_steps.
  all: try lazymatch goal with
    | |- wp (search_sources ?i [(Subject, ?subj); (Body, JStr ?text)]) ?s0 _ =>
        wp_use (search_sources_two i subj text s0);
        destruct Hrun as (-> & Ho & Ht & Hf);
        destruct Ho as [->|[->|[code ->]]]; wp_steps
    end.
  all: subst Q; red_run.
  all: rewrite ?app_nil_r; unfold searches in *; rewrite ?omap_app.
  all: try (destruct Ht as [Ht|Ht]; rewrite Ht).
  all: simpl.
  all: split_and!; eauto; try lia; try set_solver.
  all: try (repeat constructor; set_solver).
  all: try (eexists _, _; (split; [reflexivity|]); split; [|done]).
  all: try (repeat constructor; try done;
            apply Forall_app; split; [done | by repeat constructor]).
  all: apply bool_decide_eq_false in Hif; set_solver.
Qed.
End WaitForCode2.

Section WaitLoop.
Context {py : PyRuntime} {ids : MailIds} {env : Env}.

Lemma is_failed_fetch_is_fetch (e : event) :
  is_fetch e = false → is_failed_fetch e = false.
Proof. destruct e as [X o r| | | |]; try done. by destruct o, r. Qed.

Lemma retries_at_once_quiet (t t2 : list event) :
  Forall (fun e => is_fetch e = false) t →
  retries_at_once t2 = true → retries_at_once (t ++ t2) = true.
Proof.
  induction 1 as [|e t He Ht IH]; intros H2; simpl; [done|].
  by rewrite (is_failed_fetch_is_fetch e He), IH.
Qed.

(** A turn (a fetch, then events that are no fetch, none at all when the
    fetch failed) followed by the rest of the loop. *)
Lemma retries_at_once_turn email (rp : reply (list message)) (t t2 : list event) :
  Forall (fun e => is_fetch e = false) t →
  (∀ e, rp = Raise e → t = []) →
  (t2 = [] ∨ ∃ e t', t2 = e :: t' ∧ is_fetch e = true) →
  retries_at_once t2 = true →
  retries_at_once (EvCall (MailFetch email) rp :: t ++ t2) = true.
Proof.
  intros Hq Hfail Hhead H2.
  change (retries_at_once (EvCall (MailFetch email) rp :: t ++ t2))
    with ((if is_failed_fetch (EvCall (MailFetch email) rp)
           then match t ++ t2 with [] => true | e' :: _ => is_fetch e' end
           else true) && retries_at_once (t ++ t2)).
  rewrite (retries_at_once_quiet t t2 Hq H2), andb_true_r.
  destruct rp as [data|e]; [done|]. rewrite (Hfail e eq_refl). simpl.
  destruct Hhead as [->|(e' & t' & -> & He')]; done.
Qed.

(** The loop of [wait_for_code], whatever the fuel. *)
Lemma wait_loop_run email start fuel s :
  let r := wait_loop fuel email start s in
  (out r = Normal tt ∨ ∃ code, out r = Returned (Some code)) ∧
  (clock s ≤ clock (post r))%N ∧
  locals s ⊆ locals (post r) ∧
  NoDup (searches (emitted r)) ∧
  (∀ id src, (id, src) ∈ searches (emitted r) → id ∉ locals s) ∧
  retries_at_once (emitted r) = true ∧
  (emitted r = [] ∨ ∃ e t, emitted r = e :: t ∧ is_fetch e = true).
Proof.
  revert s. induction fuel as [|fuel IH]; intros s.
  { simpl. split_and!; eauto; try done; try lia. constructor. set_solver. }
  wp_start (wait_loop (S fuel) email start) s. simpl wait_loop.
  wp_steps.
  2: { subst Q. red_run. split_and!; eauto; try done; try lia.
       constructor. set_solver. }
  wp_use (poll_turn email s).
  destruct Hrun as (Ho & Hc & Hl & Hnd & Hs & rp & t & -> & Hq & Hfail).
  destruct Ho as [->|[code ->]]; red_run.
  2: { subst Q. red_run. rewrite app_nil_l. split_and!; eauto; try lia.
       - intros id src Hin. by apply (Hs id src).
       - rewrite <- (app_nil_r t).
         apply (retries_at_once_turn email); eauto. }
  match goal with |- wp (wait_loop fuel email start) ?s1 _ =>
    wp_use (IH s1) end.
  destruct Hrun as (Ho & Hc' & Hl' & Hnd' & Hs' & Hr' & Hhead).
  subst Q. red_run. rewrite app_nil_l.
  unfold searches in *. rewrite omap_app. simpl in Hs, Hnd |- *.
  split_and!; eauto; try lia.
  - set_solver.
  - apply NoDup_app. split_and!; try done.
    intros [id src] Hin Hin'. apply (Hs' id src Hin'). by apply (Hs id src).
  - intros id src [Hin|Hin]%elem_of_app; [by apply (Hs id src)|].
    intros Hid. apply (Hs' id src Hin). set_solver.
  - by apply (retries_at_once_turn email).
Qed.
End WaitLoop.

Section WaitForCodeFacts.
Context {py : PyRuntime} {ids : MailIds} {env : Env}.

(** The fuel of the loop is never used up: a run that starts with more fuel
    than the ticks that are left leaves the loop only when the budget has
    passed (or with a code). *)
Lemma wait_loop_fuel email start fuel s :
  (start ≤ clock s)%N →
  (budget - (clock s - start) < N.of_nat fuel)%N →
  out (wait_loop fuel email start s) = Normal tt →
  (start + budget ≤ clock (post (wait_loop fuel email start s)))%N.
Proof.
  revert s. induction fuel as [|fuel IH]; intros s Hstart Hfuel; [lia|].
  wp_start (wait_loop (S fuel) email start) s. simpl wait_loop.
  wp_steps.
  2: { subst Q. red_run. intros _. apply N.ltb_ge in Hif. lia. }
  apply N.ltb_lt in Hif.
  wp_use (poll_turn email s).
  destruct Hrun as (Ho & Hc & _).
  destruct Ho as [->|[code ->]]; red_run; [|by subst Q].
  match goal with |- wp (wait_loop fuel email start) ?s1 _ =>
    apply wp_result; intros r ->; subst Q; red_run;
    apply (IH s1); red_run; lia
  end.
Qed.

(** C3. Mailbox poll deduplication: over the turns of the poll loop the set
    of processed message ids only grows, and no source of a message is
    searched for a code twice: each message id goes through the extraction
    at most once, however often it comes back as the newest message. *)
Theorem processed_ids_grow_and_dedup (email : str) :
  (∀ s, locals s ⊆ locals (post (poll email s))) ∧
  (∀ fuel start s, locals s ⊆ locals (post (wait_loop fuel email start s))) ∧
  (∀ (L R : Type) (s : state L),
     NoDup (searches (emitted (wait_for_code (R:=R) email s)))).
Proof.
  split_and!.
  - intros s. apply (poll_turn email s).
  - intros fuel start s. apply (wait_loop_run email start fuel s).
  - intros L R s.
    wp_start (wait_for_code (L:=L) (R:=R) email) s.
    unfold wait_for_code, wait_for_code_body. wp_steps.
    match goal with |- wp (wait_loop ?f email ?st) ?s1 _ =>
      wp_use (wait_loop_run email st f s1) end.
    destruct Hrun as (Ho & _ & _ & Hnd & _).
    destruct Ho as [->|[code ->]]; wp_steps; subst Q; red_run.
    all: by rewrite ?app_nil_r.
Qed.

(** [wait_for_code] never raises, whatever the mailbox backend does; it
    returns [None] only once the budget of 120 seconds has passed; and
    after a fetch that failed, the next thing it does is the next fetch. *)
Theorem wait_for_code_swallows_errors {L R : Type} (email : str) (s : state L) :
  let r := wait_for_code (R:=R) email s in
  (∃ code, out r = Normal code ∧
           (code = None → (clock s + budget ≤ clock (post r))%N)) ∧
  retries_at_once (emitted r) = true.
Proof.
  wp_start (wait_for_code (L:=L) (R:=R) email) s.
  unfold wait_for_code, wait_for_code_body. wp_steps.
  match goal with |- wp (wait_loop ?f email ?st) ?s1 _ =>
    wp_use (conj (wait_loop_run email st f s1) (wait_loop_fuel email st f s1))
  end.
  destruct Hrun as [(Ho & _ & _ & _ & _ & Hretry & _) Hfuel].
  destruct Ho as [->|[code ->]]; wp_steps; subst Q; red_run.
  - split; [|by rewrite app_nil_r].
    eexists. split; [done|]. intros _. apply Hfuel; [lia|lia|done].
  - split; [|done]. eexists. split; [done|]. done.
Qed.
End WaitForCodeFacts.

(** C4, at the failing input.  The first fetch fails and the second one
    follows one second later, the time that the failed call took: the pause
    of three seconds of line 124 stands inside the [try], after the fetch,
    and the bare [except] of line 125 passes it over.  A fetch that succeeds
    is followed by the pause; one that fails is not. *)
Theorem wait_for_code_retries_without_pause :
  let r := wait_for_code (L:=unit) (R:=unit) (lit "a@b.test")
             (sim_start tt flaky_world) in
  retries_after_pause (emitted r) = false ∧
  out r = Normal (Some (lit "482913")) ∧
  clock (post r) = 2%N.
Proof. vm_compute. done. Qed.

Example wait_for_code_repeating_ids :
  let r := wait_for_code (L:=unit) (R:=unit) (lit "a@b.test")
             (sim_start tt repeating_world) in
  out r = Normal None ∧
  searches (emitted r) =
    [(1%nat, Subject); (1%nat, Body); (2%nat, Subject); (2%nat, Body)] ∧
  length (List.filter is_fetch (emitted r)) = 31%nat.
Proof. vm_compute. done. Qed.

(** With a backend that fails at every request, the loop never pauses: it
    sends one request after the other for the whole budget. *)
Example wait_for_code_busy_polling :
  let r := wait_for_code (env:=dead_mailbox_env) (L:=unit) (R:=unit)
             (lit "a@b.test") dead_mailbox_start in
  out r = Normal None ∧
  length (List.filter is_fetch (emitted r)) = 120%nat ∧
  List.filter (fun e => match e with EvSleep _ => true | _ => false end)
    (emitted r) = [].
Proof. vm_compute. done. Qed.

(** ** The stages keep the local variables *)

Ltac keep_callee := fail.

Ltac keep1 :=
  lazymatch goal with
  | |- keeps _ (bind _ _) => apply keeps_bind; [| intros ?]
  | |- keeps _ (ret _) => apply keeps_ret
  | |- keeps _ (raise _) => apply keeps_raise
  | |- keeps _ (return_ _) => apply keeps_return
  | |- keeps _ get_locals => apply keeps_get_locals
  | |- keeps _ (set_locals _) => apply keeps_set_locals; done
  | |- keeps _ (set_success _) => apply keeps_set_locals; done
  | |- keeps _ time => apply keeps_time
  | |- keeps _ (randint _ _) => apply keeps_randint
  | |- keeps _ (log _ _) => apply keeps_log
  | |- keeps _ (print _) => apply keeps_print
  | |- keeps _ (emit _) => apply keeps_emit
  | |- keeps _ (sleep _) => apply keeps_sleep
  | |- keeps _ (drv _ _) => apply keeps_drv
  | |- keeps _ (call_env _) => apply keeps_call_env
  | |- keeps _ (try_except _ _ _) => apply keeps_try_except; [| intros ?]
  | |- keeps _ (call _ _) => apply keeps_call
  | |- keeps _ (if ?b then _ else _) => destruct b
  | |- keeps _ (match ?x with _ => _ end) => destruct x
  | |- keeps _ (let _ := _ in _) => cbv zeta
  | |- keeps _ generate_password => apply keeps_call
  | |- keeps _ create_temp_email => apply keeps_call
  | |- keeps _ (upload_to_server _ _) => apply keeps_call
  | |- keeps _ (wait_for_code _) => apply keeps_call
  | |- keeps _ (force_inject_turnstile _) => apply keeps_call
  | |- keeps _ (username_step _) => unfold username_step
  | |- keeps _ _ => keep_callee
  end.

Ltac keep_walk := repeat keep1.

Section Keeps.
Context {py : PyRuntime} {ids : MailIds} {env : Env}.

Lemma pass_check_loop_keeps {L R X} (f : L → X) d remaining :
  keeps f (pass_check_loop (R:=R) d remaining).
Proof. induction remaining as [|n IH]; simpl; keep_walk; apply IH. Qed.

Lemma click_continue_keeps {L R X} (f : L → X) d btns :
  keeps f (click_continue (R:=R) d btns).
Proof. induction btns as [|btn rest IH]; simpl; keep_walk; apply IH. Qed.

Lemma scan_cookies_keeps {L R X} (f : L → X) all_cookies client_key :
  keeps f (scan_cookies (R:=R) all_cookies client_key).
Proof.
  revert client_key.
  induction all_cookies as [|c rest IH]; intros client_key; simpl; keep_walk;
    apply IH.
Qed.
End Keeps.

Ltac keep_callee ::=
  lazymatch goal with
  | |- keeps _ (pass_check_loop _ _) => apply pass_check_loop_keeps
  | |- keeps _ (click_continue _ _) => apply click_continue_keeps
  | |- keeps _ (scan_cookies _ _) => apply scan_cookies_keeps
  end.

Section StagesKeep.
Context {py : PyRuntime} {ids : MailIds} {env : Env}.

Lemma reach_signup_keeps {L X} (f : L → X) d : keeps f (reach_signup d).
Proof. unfold reach_signup. keep_walk. Qed.

Lemma fill_form_keeps {L X} (f : L → X) d : keeps f (fill_form d).
Proof. unfold fill_form. keep_walk. Qed.

Lemma pass_check_stage_keeps {X} (f : attempt_locals → X) d :
  keeps f (pass_check_stage d).
Proof. unfold pass_check_stage. keep_walk. Qed.

Lemma await_code_keeps {L R X} (f : L → X) d email :
  keeps f (await_code (R:=R) d email).
Proof. unfold await_code. keep_walk. Qed.

Lemma enter_code_keeps {L R X} (f : L → X) d otp_input code :
  keeps f (enter_code (R:=R) d otp_input code).
Proof. unfold enter_code. keep_walk. Qed.

Lemma read_cookies_keeps {L R X} (f : L → X) d :
  keeps f (read_cookies (R:=R) d).
Proof. unfold read_cookies. keep_walk. Qed.

Lemma publish_key_keeps_driver client_key server_url :
  keeps driver (publish_key client_key server_url).
Proof. unfold publish_key. keep_walk. Qed.

(** The attempt never forgets its browser. *)
Lemma attempt_steps_keeps_driver d server_url :
  keeps driver (attempt_steps d server_url).
Proof.
  unfold attempt_steps, verify_and_extract. keep_walk.
  - apply reach_signup_keeps.
  - apply fill_form_keeps.
  - apply pass_check_stage_keeps.
  - apply await_code_keeps.
  - apply enter_code_keeps.
  - unfold extract_and_publish. keep_walk.
    + apply read_cookies_keeps.
    + apply publish_key_keeps_driver.
Qed.
End StagesKeep.

Ltac walk_callee ::=
  lazymatch goal with
  | |- emits _ generate_password => weaken_to generate_password_silent
  | |- emits _ create_temp_email => weaken_to create_temp_email_events
  | |- emits _ (upload_to_server _ _) => weaken_to upload_to_server_events
  | |- emits _ (wait_for_code _) => weaken_to wait_for_code_events
  | |- emits _ (force_inject_turnstile _) => weaken_to force_inject_turnstile_events
  | |- emits _ (pass_check_loop _ _) => weaken_to pass_check_loop_events
  | |- emits _ (click_continue _ _) => weaken_to click_continue_events
  | |- emits _ (scan_cookies _ _) => weaken_to scan_cookies_events
  | |- emits _ (username_step _) => unfold username_step
  | |- emits _ (reach_signup _) => weaken_to reach_signup_events
  | |- emits _ (fill_form _) => weaken_to fill_form_events
  | |- emits _ (pass_check_stage _) => weaken_to pass_check_stage_events
  | |- emits _ (await_code _ _) => weaken_to await_code_events
  | |- emits _ (enter_code _ _ _) => weaken_to enter_code_events
  | |- emits _ (read_cookies _) => weaken_to read_cookies_events
  | |- emits _ (publish_key _ _) => weaken_to publish_key_events
  | |- emits _ close_driver => weaken_to close_driver_events
  end.

Section AttemptEvents.
Context {py : PyRuntime} {ids : MailIds} {env : Env}.

Lemma attempt_steps_events d server_url :
  emits (fun e => steps_event e = true) (attempt_steps d server_url).
Proof. unfold attempt_steps, verify_and_extract, extract_and_publish. walk. Qed.

Lemma register_one_account_events {L R} current_idx total_count server_url headless :
  emits (fun e => attempt_event e = true)
        (register_one_account (L:=L) (R:=R) current_idx total_count
           server_url headless).
Proof.
  unfold register_one_account, register_one_account_body, attempt_body.
  walk.
  match goal with |- emits _ (attempt_steps ?d _) =>
    weaken_to (attempt_steps_events d server_url) end.
Qed.
End AttemptEvents.

(** ** The scan of the cookie jar *)

Section Cookies.
Context {py : PyRuntime} {ids : MailIds} {env : Env}.

Lemma scan_cookies_run {L R} all_cookies client_key (s : state L) :
  let r := scan_cookies (R:=R) all_cookies client_key s in
  post r = s ∧
  out r = match client_key_after all_cookies client_key with
          | Some v => Normal v
          | None => Raised Exception
          end.
Proof.
  revert client_key s.
  induction all_cookies as [|c rest IH]; intros client_key s; [done|].
  wp_start (scan_cookies (L:=L) (R:=R) (c :: rest) client_key) s.
  simpl scan_cookies. simpl client_key_after in Q.
  destruct (c_name c) as [name|]; [|by subst Q].
  wp_steps.
  all: match goal with |- wp (scan_cookies _ ?ck) ?s1 _ =>
         wp_use (IH ck s1) end.
  all: destruct Hrun as [-> ->].
  all: subst Q; red_run; done.
Qed.

(** C2, at the failing input.  With the cookie of the Clerk domain first
    and a cookie of the same name from another domain after it, the scan
    keeps the value of the latter: the last cookie named [__client] wins,
    and the test on the domain only writes a line to the log. *)
Theorem scan_cookies_keeps_last_client {L R} (s : state L) :
  out (scan_cookies (R:=R) clerk_then_other None s) = Normal (Some (lit "tok_other")) ∧
  out (scan_cookies (R:=R) other_then_clerk None s) = Normal (Some (lit "tok_clerk")).
Proof.
  split.
  - by rewrite (proj2 (scan_cookies_run (R:=R) clerk_then_other None s)).
  - by rewrite (proj2 (scan_cookies_run (R:=R) other_then_clerk None s)).
Qed.
End Cookies.

(** ** The upload *)

Section Upload.
Context {py : PyRuntime} {ids : MailIds} {env : Env}.

Lemma upload_to_server_run {L R} client_key server_url (s : state L) :
  let r := upload_to_server (R:=R) client_key server_url s in
  locals (post r) = locals s ∧
  if truthy server_url then
    ∃ rp dt w,
      let post_call :=
        HttpPost (upload_url server_url)
          (Payload (clock s / Npos ticks_per_second)%N client_key 1 true)
          ("admin"%string, "admin123"%string) in
      answer N post_call (world s) = (rp, dt, w) ∧
      emitted r = EvPrint (ClientKeyLine client_key)
                  :: EvPrint (LogLine INFO MsgUploading)
                  :: EvCall post_call rp :: upload_log rp ∧
      out r = upload_out rp
  else r = Result (Normal true) s [EvPrint (ClientKeyLine client_key)].
Proof.
  destruct s as [l w0 c].
  wp_start (upload_to_server (L:=L) (R:=R) client_key server_url)
    (State l w0 c).
  unfold upload_to_server. wp_steps.
  all: subst Q; red_run; split; [done|].
  all: destruct (truthy server_url); try done.
  all: eexists _, _, _; (split; [exact Hanswer|]).
  all: unfold upload_out, upload_log; rewrite ?Hif0, ?Hif1; done.
Qed.
End Upload.

(** ** From the cookie jar to the key *)

Ltac forall_events :=
  repeat first
    [ apply Forall_nil_2
    | apply Forall_cons_2; [first [reflexivity | done | split; reflexivity]|]
    | apply Forall_app; split
    | eapply Forall_impl; [eassumption|]; alpha_side ].

Section KeyFacts.
Context {py : PyRuntime} {ids : MailIds} {env : Env}.

Lemma key_published_extend d tr v pre tail :
  key_published d tr v →
  Forall (fun e => no_key_event e = true) pre →
  Forall (fun e => is_key_print e = false ∧ is_key_ok e = false) tail →
  key_published d (pre ++ tr ++ tail) v.
Proof.
  intros (pre0 & tail0 & jar & ck & -> & Hpre & Htail & Hjar & Hck & Hv) Hp Ht.
  exists (pre ++ pre0), (tail0 ++ tail), jar, ck. split_and!; try done.
  - by rewrite <- !app_assoc.
  - by apply Forall_app.
  - by apply Forall_app.
  - destruct Hjar as [Hj|Hj]; [left|right]; apply in_or_app; by right.
Qed.

Lemma key_published_prefix d tr v pre :
  Forall (fun e => no_key_event e = true) pre →
  key_published d tr v → key_published d (pre ++ tr) v.
Proof.
  intros Hp Hk. rewrite <- (app_nil_r tr).
  by apply key_published_extend.
Qed.

Lemma key_published_suffix d tr v tail :
  Forall (fun e => is_key_print e = false ∧ is_key_ok e = false) tail →
  key_published d tr v → key_published d (tr ++ tail) v.
Proof.
  intros Ht Hk. by apply (key_published_extend d tr v [] tail).
Qed.

Lemma post_interrupted_prefix (pre tr : list event) :
  post_interrupted tr → post_interrupted (pre ++ tr).
Proof.
  intros (u & b & a & Hin). exists u, b, a. apply in_or_app. by right.
Qed.

Lemma post_interrupted_suffix (tr tail : list event) :
  post_interrupted tr → post_interrupted (tr ++ tail).
Proof.
  intros (u & b & a & Hin). exists u, b, a. apply in_or_app. by left.
Qed.

Lemma key_published_cons d tr v e :
  no_key_event e = true → key_published d tr v → key_published d (e :: tr) v.
Proof.
  intros He. apply (key_published_prefix d tr v [e]). by constructor.
Qed.

Lemma post_interrupted_cons (tr : list event) e :
  post_interrupted tr → post_interrupted (e :: tr).
Proof. apply (post_interrupted_prefix [e]). Qed.

Lemma key_published_lines d tr v :
  key_published d tr v →
  List.filter is_key_print tr = [EvPrint (ClientKeyLine v)] ∧
  List.filter is_key_ok tr = [EvPrint (LogLine INFO MsgKeyOk)].
Proof.
  intros (pre & tail & jar & ck & -> & Hpre & Htail & _).
  assert (∀ p : event → bool, (∀ e, no_key_event e = true → p e = false) →
            List.filter p pre = []) as Hp.
  { intros p Hp. induction Hpre as [|e pre He _ IH]; [done|].
    simpl. by rewrite (Hp e He). }
  assert (∀ p : event → bool,
            (∀ e, is_key_print e = false ∧ is_key_ok e = false → p e = false) →
            List.filter p tail = []) as Ht.
  { intros p Hq. induction Htail as [|e tail He _ IH]; [done|].
    simpl. by rewrite (Hq e He). }
  rewrite !List.filter_app. simpl.
  rewrite (Hp is_key_print), (Hp is_key_ok), (Ht is_key_print), (Ht is_key_ok);
    try done.
  - by intros e [_ ?].
  - by intros e [? _].
  - intros e He. unfold no_key_event in He.
    destruct (is_key_print e), (is_key_ok e); done.
  - intros e He. unfold no_key_event in He. by destruct (is_key_print e).
Qed.

Lemma no_key_lines (tr : list event) :
  Forall (fun e => no_key_event e = true) tr →
  List.filter is_key_print tr = [] ∧ List.filter is_key_ok tr = [] ∧
  List.filter is_post tr = [].
Proof.
  induction 1 as [|e tr He _ (IH1 & IH2 & IH3)]; [done|].
  simpl. unfold no_key_event in He.
  by destruct (is_key_print e), (is_key_ok e), (is_post e).
Qed.

Lemma read_cookies_run {L R} d (s : state L) :
  let r := read_cookies (R:=R) d s in
  locals (post r) = locals s ∧
  Forall (fun e => code_event e = true) (emitted r) ∧
  match out r with
  | Normal jar => jar_read d jar (emitted r)
  | Raised _ => True
  | Returned _ => False
  end.
Proof.
  wp_start (read_cookies (L:=L) (R:=R) d) s. unfold read_cookies.
  wp_steps.
  all: subst Q; red_run; split_and!; try done.
  all: try (repeat constructor; done).
  all: unfold jar_read; simpl; eauto 10.
Qed.
End KeyFacts.
Section KeyFacts2.
Context {py : PyRuntime} {ids : MailIds} {env : Env}.

Lemma extract_and_publish_run d server_url s :
  let r := extract_and_publish d server_url s in
  (Forall (fun e => no_key_event e = true) (emitted r) ∧
   success (locals (post r)) = success (locals s)) ∨
  (∃ v, key_published d (emitted r) v ∧
        (out r = Normal tt ∧ success (locals (post r)) = true ∨
         out r = Raised BaseException ∧ post_interrupted (emitted r))).
Proof.
  wp_start (extract_and_publish d server_url) s. unfold extract_and_publish.
  wp_step.
  wp_use (read_cookies_run (R:=bool) d s).
  destruct Hrun as (Hl1 & He1 & Hjar).
  destruct out0 as [jar| |]; [|subst Q; left; red_run; split; [forall_events|congruence]|done].
  red_run. wp_step.
  match goal with |- wp (scan_cookies jar None) ?s1 _ =>
    wp_use (conj (scan_cookies_run (R:=bool) jar None s1)
                 (scan_cookies_code_events (R:=bool) jar None s1)) end.
  destruct Hrun as [[-> Ho] He2]. rewrite Ho. clear Ho.
  destruct (client_key_after jar None) as [ck|] eqn:Hck;
    [|subst Q; left; red_run; split; [forall_events|congruence]].
  red_run. unfold publish_key.
  destruct (if_truthy ck) as [v|] eqn:Hv.
  2: { wp_steps. subst Q; left; red_run. split; [forall_events|congruence]. }
  wp_steps.
  wp_use (upload_to_server_run (R:=bool) v server_url post0).
  destruct Hrun as [Hl2 Hu].
  assert (jar_read d jar (emitted0 ++ emitted1)) as Hjar'.
  { destruct Hjar; [left|right]; apply in_or_app; by left. }
  assert (Forall (fun e => no_key_event e = true) (emitted0 ++ emitted1))
    as Hpre by forall_events.
  destruct (truthy server_url).
  - destruct Hu as (rp & dt & w & Hans & -> & ->).
    unfold upload_out, upload_log.
    destruct rp as [status|e]; [|destruct e]; red_run;
      try case_bool_decide; wp_steps.
    all: subst Q; right; exists v; red_run.
    all: (split; [exists (emitted0 ++ emitted1); eexists; exists jar, ck;
                  split_and!; [by rewrite <- ?app_assoc|done| |done|done|done]
                 |]).
    all: try forall_events.
    all: try (left; split; [done|]; try done; by rewrite Hl2).
    right. split; [done|]. eexists _, _, _.
    rewrite !in_app_iff. simpl. eauto 10.
  - injection Hu as -> -> ->. wp_steps.
    subst Q; right; exists v; red_run.
    split; [|left; split; done].
    exists (emitted0 ++ emitted1), [], jar, ck.
    split_and!; try done. by rewrite <- ?app_assoc.
Qed.
End KeyFacts2.

(** ** The stages, one after the other *)

(** A stage of which only the events and the local variables matter. *)
Tactic Notation "wp_known" uconstr(ev) uconstr(keep) :=
  lazymatch goal with
  | |- wp ?m ?s _ =>
      let r := fresh "r" in
      let Hr := fresh "Hr" in
      let Hev := fresh "Hev" in
      let Hloc := fresh "Hloc" in
      let o := fresh "o" in
      let p := fresh "p" in
      let t := fresh "t" in
      apply wp_result; intros r Hr;
      pose proof (ev s : Forall _ (emitted (m s))) as Hev;
      pose proof (keep s : locals (post (m s)) = locals s) as Hloc;
      rewrite <- Hr in Hev, Hloc; clear Hr; destruct r as [o p t];
      red_run_in Hev; red_run_in Hloc; destruct o; red_run
  end.

Ltac wp_stage :=
  lazymatch goal with
  | |- wp (reach_signup ?d) _ _ =>
      wp_known (reach_signup_events d) (reach_signup_keeps (fun l => l) d)
  | |- wp (fill_form ?d) _ _ =>
      wp_known (fill_form_events d) (fill_form_keeps (fun l => l) d)
  | |- wp (pass_check_stage ?d) _ _ =>
      wp_known (pass_check_stage_events d)
               (pass_check_stage_keeps (fun l => l) d)
  | |- wp (await_code ?d ?email) _ _ =>
      wp_known (await_code_events d email)
               (await_code_keeps (fun l => l) d email)
  | |- wp (enter_code ?d ?otp ?code) _ _ =>
      wp_known (enter_code_events d otp code)
               (enter_code_keeps (fun l => l) d otp code)
  end.

Section StepsFacts.
Context {py : PyRuntime} {ids : MailIds} {env : Env}.

Lemma attempt_steps_run d server_url s :
  let r := attempt_steps d server_url s in
  (Forall (fun e => no_key_event e = true) (emitted r) ∧
   success (locals (post r)) = success (locals s)) ∨
  (∃ v, key_published d (emitted r) v ∧
        (out r = Normal tt ∧ success (locals (post r)) = true ∨
         out r = Raised BaseException ∧ post_interrupted (emitted r))).
Proof.
  wp_start (attempt_steps d server_url) s.
  unfold attempt_steps, verify_and_extract.
  repeat first [wp_stage | wp_step].
  all: try solve [subst Q; left; red_run; split; [forall_events|congruence]].
  wp_use (extract_and_publish_run d server_url p3).
  subst Q. red_run.
  destruct Hrun as [[Hquiet Hs]|(v & Hk & Hout)].
  - left. split; [forall_events|congruence].
  - right. exists v. split.
    + repeat (apply key_published_prefix; [forall_events|]). exact Hk.
    + destruct Hout as [?|[? Hp]]; [by left|right].
      split; [done|]. by repeat apply post_interrupted_prefix.
Qed.
End StepsFacts.

(** Bring a trace to the shape [e1 :: ... :: en :: tr ++ tail]. *)
Ltac flatten_trace := cbn [app]; rewrite <- ?app_assoc; cbn [app].

Ltac key_published_tac :=
  flatten_trace;
  repeat (apply key_published_cons; [reflexivity|]);
  try (apply key_published_suffix; [forall_events|]);
  eassumption.

Ltac post_interrupted_tac :=
  flatten_trace;
  repeat apply post_interrupted_cons;
  try apply post_interrupted_suffix;
  eassumption.
Section AttemptKey.
Context {py : PyRuntime} {ids : MailIds} {env : Env}.

Lemma register_one_account_key {L R} current_idx total_count server_url
    headless (s : state L) :
  let r := register_one_account (R:=R) current_idx total_count server_url
             headless s in
  Forall (fun e => no_key_event e = true) (emitted r) ∨
  (∃ d v, key_published d (emitted r) v ∧
          (out r = Normal true ∨
           out r = Raised BaseException ∧ post_interrupted (emitted r))).
Proof.
  wp_start (register_one_account (L:=L) (R:=R) current_idx total_count
              server_url headless) s.
  unfold register_one_account, register_one_account_body, attempt_body,
    close_driver.
  wp_steps.
  all: try solve [subst Q; left; red_run; forall_events].
  match goal with |- wp (attempt_steps ?d ?u) ?s1 _ =>
    wp_use (conj (attempt_steps_run d u s1) (attempt_steps_keeps_driver d u s1))
  end.
  destruct post0 as [[dr su] w1 c1]. red_run_in Hrun.
  destruct Hrun as [Hk ->].
  destruct out0 as [[]|e|v]; red_run; wp_steps.
  all: subst Q; red_run.
  all: destruct Hk as [[Hq ->]|(key & Hkp & [[? ->]|[? Hpi]])];
    try discriminate; simplify_eq/=.
  all: try solve [left; forall_events].
  all: right; exists x0, key; (split; [key_published_tac|]).
  all: try (by left).
  all: right; split; [done|post_interrupted_tac].
Qed.
End AttemptKey.

(** ** The batch *)

Section Batch.
Context {py : PyRuntime} {ids : MailIds} {env : Env}.

Lemma filter_quiet (alpha p : event → bool) (t : list event) :
  Forall (fun e => alpha e = true) t →
  (∀ e, alpha e = true → p e = false) →
  List.filter p t = [].
Proof.
  intros Ht Hp. induction Ht as [|e t He _ IH]; [done|].
  simpl. by rewrite (Hp e He).
Qed.

Lemma attempt_event_not_attempt (e : event) :
  attempt_event e = true → is_attempt e = false.
Proof. revert e. alpha_side. Qed.

Lemma is_success_is_attempt (e : event) :
  is_attempt e = false → is_success e = false.
Proof. by destruct e as [| | | |[]]. Qed.

Lemma register_one_account_never_returned {L R} current_idx total_count
    server_url headless (s : state L) :
  ∀ v, out (register_one_account (R:=R) current_idx total_count server_url
              headless s) ≠ Returned v.
Proof.
  intros v. unfold register_one_account, call. red_run.
  match goal with |- context [out ?r] => by destruct (out r) end.
Qed.

(** The loop of [main]: the count grows by the number of attempts that
    returned [True], and every turn runs one attempt. *)
Lemma batch_loop_run {L R} todo i total_num server_url headless success_count
    (s : state L) :
  let r := batch_loop (R:=R) todo i total_num server_url headless
             success_count s in
  match out r with
  | Normal n =>
      n = success_count + Z.of_nat (length (List.filter is_success (emitted r))) ∧
      length (List.filter is_attempt (emitted r)) = todo
  | Raised _ => True
  | Returned _ => False
  end.
Proof.
  revert i success_count s.
  induction todo as [|todo IH]; intros i success_count s.
  { simpl. split; [lia|done]. }
  wp_start (batch_loop (L:=L) (R:=R) (S todo) i total_num server_url headless
              success_count) s.
  simpl batch_loop. wp_step.
  match goal with |- wp _ ?s0 _ =>
    wp_use (conj (register_one_account_events (L:=L) (R:=R) (i + 1) total_num
                    server_url headless s0)
                 (register_one_account_never_returned (L:=L) (R:=R) (i + 1)
                    total_num server_url headless s0))
  end.
  destruct Hrun as [Hev Hret].
  assert (List.filter is_attempt emitted0 = []) as Hq.
  { eapply filter_quiet; [exact Hev|]. apply attempt_event_not_attempt. }
  assert (List.filter is_success emitted0 = []) as Hq'.
  { eapply filter_quiet; [exact Hev|]. intros e He.
    by apply is_success_is_attempt, attempt_event_not_attempt. }
  destruct out0 as [ok|e|v]; [|by subst Q|by destruct (Hret v)].
  wp_steps.
  all: match goal with |- wp (batch_loop _ ?i' _ _ _ ?sc) ?s1 _ =>
         wp_use (IH i' sc s1) end.
  all: subst Q; red_run; destruct out0 as [cnt| |]; try done.
  all: rewrite !List.filter_app, !length_app, Hq, Hq'; simpl.
  all: destruct Hrun as [-> <-].
  all: split; [|done]; destruct ok; simpl; lia.
Qed.

(** In terms of the marks that the loop leaves in the trace: the count that
    [main] prints is the number of marks of success, and there is one mark
    for each unit of [count]. *)
Lemma main_exit_status_marks {L R : Type} (a : args) (s : state L) :
  let r := main (R:=R) a s in
  let successes := length (List.filter is_success (emitted r)) in
  match out r with
  | Normal code =>
      (code = 0 ↔ (0 < successes)%nat) ∧
      (code = 1 ↔ successes = 0%nat) ∧
      In (EvPrint (SummaryLine (Z.of_nat successes) (count a))) (emitted r) ∧
      length (List.filter is_attempt (emitted r)) = Z.to_nat (count a)
  | Raised _ => True
  | Returned _ => False
  end.
Proof.
  wp_start (main (L:=L) (R:=R) a) s. unfold main. wp_steps.
  match goal with |- wp (batch_loop ?n ?i ?t ?u ?h ?c) ?s1 _ =>
    wp_use (batch_loop_run (L:=unit) (R:=Z) n i t u h c s1) end.
  destruct out0 as [n| |]; [|by subst Q|done].
  destruct Hrun as [-> Hn]. wp_steps. subst Q. red_run.
  rewrite !List.filter_app, !length_app, Hn. simpl.
  rewrite !Nat.add_0_r.
  set (k := length (List.filter is_success emitted0)).
  split_and!; try done.
  - destruct (0 <? 0 + Z.of_nat k) eqn:Hk.
    + apply Z.ltb_lt in Hk. split; [lia|done].
    + apply Z.ltb_ge in Hk. split; [done|lia].
  - destruct (0 <? 0 + Z.of_nat k) eqn:Hk.
    + apply Z.ltb_lt in Hk. split; [done|lia].
    + apply Z.ltb_ge in Hk. split; [lia|done].
  - rewrite !in_app_iff. simpl. rewrite Z.add_0_l. eauto 10.
Qed.
End Batch.

Example main_fail_success_fail :
  let r := main (env:=sim_env) (L:=unit) (R:=unit) (Args 3 [] false)
             (sim_start tt second_only_world) in
  out r = Normal 0 ∧
  List.filter is_attempt (emitted r) =
    [EvAttempt false; EvAttempt true; EvAttempt false] ∧
  In (EvPrint (SummaryLine 1 3)) (emitted r).
Proof. vm_compute. split_and!; try done. auto 250. Qed.

Example main_fail_fail :
  let r := main (env:=sim_env) (L:=unit) (R:=unit) (Args 2 [] false)
             (sim_start tt never_world) in
  out r = Normal 1 ∧
  List.filter is_attempt (emitted r) = [EvAttempt false; EvAttempt false].
Proof. vm_compute. done. Qed.


(** ** The exit status and what the attempts returned *)

Section ExitStatus.
Context {py : PyRuntime} {ids : MailIds} {env : Env}.

Lemma wp_randint_eq {L R} a b (s : state L) (Q : result L R N → Prop) :
  (∀ n w, random (world s) = (n, w) →
          Q (Result (Normal (a + n mod (b - a + 1))%N)
                    (State (locals s) w (clock s)) [])) →
  wp (randint a b) s Q.
Proof.
  unfold wp, randint. intros HQ.
  destruct (random (world s)) as [n w] eqn:Hr. by apply HQ.
Qed.

(** The loop of [main] adds to its count the number of calls of
    [register_one_account] that returned [True]. *)
Lemma batch_loop_results {L R} todo i total_num server_url headless
    success_count (s : state L) :
  let r := batch_loop (R:=R) todo i total_num server_url headless
             success_count s in
  match attempt_results (R:=R) todo i total_num server_url headless s with
  | Some oks =>
      length oks = todo ∧
      out r = Normal (success_count + Z.of_nat (successes oks))
  | None => ∃ e, out r = Raised e
  end.
Proof.
  revert i success_count s.
  induction todo as [|todo IH]; intros i success_count s.
  { cbn. split; [done|]. f_equal. unfold successes. simpl. lia. }
  apply (wp_done (batch_loop (L:=L) (R:=R) (S todo) i total_num server_url
                    headless success_count) s).
  cbn [batch_loop attempt_results]. cbv zeta. wp_step.
  apply wp_result. intros r0 Hr0. rewrite <- Hr0.
  pose proof (register_one_account_never_returned (L:=L) (R:=R) (i + 1)
                total_num server_url headless s) as Hret.
  rewrite <- Hr0 in Hret. clear Hr0.
  destruct (out r0) as [ok|e|v] eqn:Ho; [|red_run; eauto|by destruct (Hret v)].
  red_run. wp_step. wp_step. wp_step.
  unfold after_rest. wp_step.
  - wp_step. apply wp_randint_eq. intros n w Hrand. red_run.
    wp_steps. rewrite Hrand.
    match goal with |- wp (batch_loop _ ?i' _ _ _ ?c) ?s1 _ =>
      wp_use (IH i' c s1) end.
    red_run.
    match goal with
    | H : match ?x with _ => _ end |- _ => destruct x as [oks|]
    end.
    + destruct Hrun as [Hlen ->]. cbn [fmap option_fmap option_map length].
      split; [by rewrite Hlen|]. f_equal.
      unfold successes. cbn [List.filter]. destruct ok; cbn [length]; lia.
    + exact Hrun.
  - wp_steps.
    match goal with |- wp (batch_loop _ ?i' _ _ _ ?c) ?s1 _ =>
      wp_use (IH i' c s1) end.
    red_run.
    match goal with
    | H : match ?x with _ => _ end |- _ => destruct x as [oks|]
    end.
    + destruct Hrun as [Hlen ->]. cbn [fmap option_fmap option_map length].
      split; [by rewrite Hlen|]. f_equal.
      unfold successes. cbn [List.filter]. destruct ok; cbn [length]; lia.
    + exact Hrun.
Qed.

Lemma successes_some (oks : list bool) :
  (0 <? 0 + Z.of_nat (successes oks)) = existsb (fun ok : bool => ok) oks.
Proof.
  unfold successes. induction oks as [|[] oks IH]; [done| |exact IH].
  cbn [List.filter existsb length orb]. apply Z.ltb_lt. lia.
Qed.

(** C5. Process exit status.  [main] calls [register_one_account] once for
    each unit of [count], one call after the other; when all the calls
    return, the count that it prints is the number of calls that returned
    [True], and the exit status is 0 if at least one call returned [True],
    and 1 otherwise (also when [count] is not positive and no attempt is
    made); when a call raises, [main] raises. *)
Theorem main_exit_status {L R : Type} (a : args) (s : state L) :
  let r := main (R:=R) a s in
  match attempt_results (L:=unit) (R:=Z) (Z.to_nat (count a)) 0 (count a)
          (server a) (a_headless a) (State tt (world s) (clock s)) with
  | Some oks =>
      length oks = Z.to_nat (count a) ∧
      out r = Normal (if existsb (fun ok : bool => ok) oks then 0 else 1) ∧
      In (EvPrint (SummaryLine (Z.of_nat (successes oks)) (count a)))
         (emitted r)
  | None => ∃ e, out r = Raised e
  end.
Proof.
  apply (wp_done (main (L:=L) (R:=R) a) s). unfold main. wp_steps.
  match goal with |- wp (batch_loop ?n ?i ?t ?u ?h ?c) ?s1 _ =>
    wp_use (batch_loop_results (L:=unit) (R:=Z) n i t u h c s1) end.
  match goal with
  | H : match ?x with _ => _ end |- _ => destruct x as [oks|]
  end.
  - destruct Hrun as [Hlen ->]. wp_steps. red_run.
    split_and!; [done| |].
    + by rewrite successes_some.
    + rewrite !in_app_iff. simpl. rewrite Z.add_0_l. eauto 10.
  - destruct Hrun as [e ->]. red_run. by exists e.
Qed.
End ExitStatus.

(** The batch of the specification: the attempts return [False], [True],
    [False]; the count is 1 and the exit status 0. *)
Example attempt_results_fail_success_fail :
  attempt_results (env:=sim_env) (L:=unit) (R:=Z) 3 0 3 [] false
    (sim_start tt second_only_world) = Some [false; true; false].
Proof. vm_compute. reflexivity. Qed.

Example attempt_results_fail_fail :
  attempt_results (env:=sim_env) (L:=unit) (R:=Z) 2 0 2 [] false
    (sim_start tt never_world) = Some [false; false].
Proof. vm_compute. reflexivity. Qed.


(** ** Without the browser driver *)

Section MissingDeps.
Context {py : PyRuntime} {ids : MailIds} {env : Env}.


End MissingDeps.




(** ** The publisher and the reporting channel *)

Section Publisher.
Context {py : PyRuntime} {ids : MailIds} {env : Env}.

(** C6. Publisher contract: with an empty server URL the upload does
    nothing but write the key line, and reports success; otherwise it sends
    one POST and reports success if and only if the status is 200 or 201, a
    failure for any other status and for an exception; and an attempt that
    extracted the credential returns [True] whatever the upload reported. *)
Theorem publish_failure_keeps_success :
  (∀ (L R : Type) (client_key server_url : str) (s : state L),
     let r := upload_to_server (R:=R) client_key server_url s in
     (truthy server_url = false →
      r = Result (Normal true) s [EvPrint (ClientKeyLine client_key)]) ∧
     (truthy server_url = true →
      ∃ body rp,
        List.filter is_post (emitted r) =
          [EvCall (HttpPost (upload_url server_url) body
                     ("admin"%string, "admin123"%string)) rp] ∧
        p_client_cookie body = client_key ∧
        match rp with
        | Ok status_code =>
            out r = Normal (bool_decide (status_code ∈ [200; 201]%N))
        | Raise e => is_Exception e = true → out r = Normal false
        end)) ∧
  (∀ (L R : Type) current_idx total_count server_url headless (s : state L),
     let r := register_one_account (R:=R) current_idx total_count server_url
                headless s in
     List.filter is_key_ok (emitted r) ≠ [] →
     ¬ post_interrupted (emitted r) →
     out r = Normal true).
Proof.
  split.
  - intros L R client_key server_url s. cbv zeta.
    pose proof (upload_to_server_run (R:=R) client_key server_url s) as [_ Hu].
    split; intros Hurl; rewrite Hurl in Hu; [exact Hu|].
    destruct Hu as (rp & dt & w & _ & -> & ->).
    eexists (Payload _ client_key 1 true), rp. split_and!; [|done|].
    + unfold upload_log. simpl.
      destruct rp as [st|e]; [case_bool_decide|destruct (is_Exception e)]; done.
    + destruct rp as [st|e]; simpl; [done|]. by intros ->.
  - intros L R current_idx total_count server_url headless s. cbv zeta.
    intros Hok Hint.
    destruct (register_one_account_key (R:=R) current_idx total_count
                server_url headless s) as [Hq|(d & v & Hk & Hout)].
    + destruct Hok. by apply no_key_lines.
    + destruct Hout as [?|[_ ?]]; done.
Qed.

(** [upload_to_server] calls [print(f"CLIENT_KEY:{client_key}")] first,
    and once, whatever the server URL and whatever becomes of the POST; it
    reads no cookie. *)
Lemma upload_to_server_key_print {L R} (client_key server_url : str)
    (s : state L) :
  let r := upload_to_server (R:=R) client_key server_url s in
  List.filter is_key_print (emitted r) = [EvPrint (ClientKeyLine client_key)] ∧
  jars_read (emitted r) = [].
Proof.
  pose proof (upload_to_server_run (R:=R) client_key server_url s) as [_ Hu].
  cbv zeta. destruct (truthy server_url).
  - destruct Hu as (rp & dt & w & _ & -> & _).
    unfold upload_log. simpl.
    destruct rp as [st|e]; [case_bool_decide|destruct (is_Exception e)]; done.
  - by rewrite Hu.
Qed.
End Publisher.

Lemma post_interrupted_check {ids : MailIds} (tr : list event) :
  post_interrupted tr → existsb is_interrupted_post tr = true.
Proof.
  intros (url & body & auth & Hin). apply existsb_exists.
  by eexists; split; [exact Hin|].
Qed.

Lemma publish_failure_witness :
  let r := register_one_account (env:=sim_env) (L:=unit) (R:=unit) 1 1
             (lit "http://localhost:3000") false
             (sim_start tt refusing_world) in
  out r = Normal true ∧
  In (EvPrint (LogLine ERR (MsgUploadRefused 500%N))) (emitted r).
Proof.
  split.
  - apply (proj2 (publish_failure_keeps_success (env:=sim_env)) unit unit 1 1
             (lit "http://localhost:3000") false (sim_start tt refusing_world)).
    + vm_compute. discriminate.
    + intros Hint%post_interrupted_check. vm_compute in Hint. discriminate.
  - vm_compute. auto 250.
Defined.


(** ** The key on the reporting channel *)

Section KeyPrint.
Context {py : PyRuntime} {ids : MailIds} {env : Env}.

Lemma form_event_silent (e : event) : form_event e = true → silent_on_key e.
Proof. revert e. alpha_side. Qed.

Lemma pass_check_stage_event_silent (e : event) :
  pass_check_stage_event e = true → silent_on_key e.
Proof. revert e. alpha_side. Qed.

Lemma wait_event_silent (e : event) : wait_event e = true → silent_on_key e.
Proof. revert e. alpha_side. Qed.

Lemma button_event_silent (e : event) : button_event e = true → silent_on_key e.
Proof. revert e. alpha_side. Qed.

Lemma cookie_scan_event_silent (e : event) :
  cookie_scan_event e = true → silent_on_key e.
Proof. revert e. alpha_side. Qed.

Lemma silent_lists (t : list event) :
  Forall silent_on_key t →
  jars_read t = [] ∧ List.filter is_key_print t = [].
Proof.
  induction 1 as [|e t [Hj Hk] _ [IH1 IH2]]; [done|].
  unfold jars_read in *. simpl. by rewrite Hj, Hk.
Qed.

Lemma key_print_matches_jar_silent (t : list event) :
  Forall silent_on_key t → key_print_matches_jar t.
Proof.
  intros [Hj Hk]%silent_lists. unfold key_print_matches_jar. by rewrite Hj.
Qed.

Lemma key_print_matches_jar_app_l (t tr : list event) :
  Forall silent_on_key t →
  key_print_matches_jar tr → key_print_matches_jar (t ++ tr).
Proof.
  intros [Hj Hk]%silent_lists. unfold key_print_matches_jar, jars_read in *.
  by rewrite omap_app, List.filter_app, Hj, Hk.
Qed.

Lemma key_print_matches_jar_app_r (tr t : list event) :
  Forall silent_on_key t →
  key_print_matches_jar tr → key_print_matches_jar (tr ++ t).
Proof.
  intros [Hj Hk]%silent_lists. unfold key_print_matches_jar, jars_read in *.
  by rewrite omap_app, List.filter_app, Hj, Hk, !app_nil_r.
Qed.

Lemma key_print_matches_jar_cons e (tr : list event) :
  silent_on_key e →
  key_print_matches_jar tr → key_print_matches_jar (e :: tr).
Proof.
  intros He. apply (key_print_matches_jar_app_l [e]). by constructor.
Qed.

Lemma await_code_silent {L R} d email :
  emits silent_on_key (await_code (L:=L) (R:=R) d email).
Proof. unfold await_code. walk. Qed.

Lemma enter_code_silent {L R} d otp_input code :
  emits silent_on_key (enter_code (L:=L) (R:=R) d otp_input code).
Proof. unfold enter_code. walk. Qed.
End KeyPrint.

Ltac silent_events :=
  solve
    [ repeat first
        [ apply Forall_nil_2
        | apply Forall_cons_2; [by split|]
        | apply Forall_app; split
        | eassumption
        | eapply Forall_impl; [eassumption|]; alpha_side ] ].

Section KeyPrintSteps.
Context {py : PyRuntime} {ids : MailIds} {env : Env}.

(** Lines 246-274: the jar is read once at most, and line 55 is reached with
    the key of that jar, exactly when the jar has a usable one. *)
Lemma extract_and_publish_key_print d server_url s :
  key_print_matches_jar (emitted (extract_and_publish d server_url s)).
Proof.
  wp_start (extract_and_publish d server_url) s.
  unfold extract_and_publish, read_cookies. wp_steps.
  all: try solve [subst Q; red_run; apply key_print_matches_jar_silent;
                  silent_events].
  all: match goal with |- wp (scan_cookies ?jar None) ?s1 _ =>
         wp_use (conj (scan_cookies_run (R:=bool) jar None s1)
                      (scan_cookies_events (R:=bool) jar None s1));
         destruct Hrun as [[-> Ho] Hscan]; rewrite Ho; clear Ho;
         assert (Forall silent_on_key emitted0) as Hsil
           by (eapply Forall_impl; [exact Hscan|];
               apply cookie_scan_event_silent);
         apply silent_lists in Hsil as [Hj Hk];
         destruct (client_key_after jar None) as [ck|] eqn:Hck
       end.
  all: red_run; unfold publish_key.
  all: try (destruct (if_truthy ck) as [v|] eqn:Hv; wp_steps).
  all: try match goal with |- wp (upload_to_server ?v ?u) ?s1 _ =>
         wp_use (upload_to_server_key_print (R:=bool) v u s1);
         destruct Hrun as [Hup Hupj]
       end.
  all: try match goal with |- match ?o with _ => _ end => destruct o end.
  all: wp_steps.
  all: subst Q; red_run.
  all: unfold key_print_matches_jar, jars_read, usable_key in *.
  all: rewrite ?omap_app, ?List.filter_app; simpl.
  all: rewrite ?omap_app, ?List.filter_app, ?Hj, ?Hk, ?Hup, ?Hupj; simpl.
  all: rewrite ?Hck, ?Hv; try done.
Qed.

Lemma reach_signup_silent {L} d : emits silent_on_key (reach_signup (L:=L) d).
Proof.
  eapply emits_weaken; [|apply reach_signup_events]. apply form_event_silent.
Qed.

Lemma fill_form_silent {L} d : emits silent_on_key (fill_form (L:=L) d).
Proof.
  eapply emits_weaken; [|apply fill_form_events]. apply form_event_silent.
Qed.

Lemma pass_check_stage_silent d : emits silent_on_key (pass_check_stage d).
Proof.
  eapply emits_weaken; [|apply pass_check_stage_events].
  apply pass_check_stage_event_silent.
Qed.
End KeyPrintSteps.

Ltac wp_stage_silent :=
  lazymatch goal with
  | |- wp (reach_signup ?d) ?s _ => wp_use (reach_signup_silent d s)
  | |- wp (fill_form ?d) ?s _ => wp_use (fill_form_silent d s)
  | |- wp (pass_check_stage ?d) ?s _ => wp_use (pass_check_stage_silent d s)
  | |- wp (await_code ?d ?e) ?s _ =>
      wp_use (await_code_silent (R:=bool) d e s)
  | |- wp (enter_code ?d ?o ?c) ?s _ =>
      wp_use (enter_code_silent (R:=bool) d o c s)
  end;
  red_run;
  try match goal with |- match ?o with _ => _ end => destruct o end;
  red_run.

Ltac key_print_tac :=
  flatten_trace;
  repeat first
    [ apply key_print_matches_jar_cons; [by split|]
    | apply key_print_matches_jar_app_l; [silent_events|] ];
  first
    [ eassumption
    | apply key_print_matches_jar_app_r; [silent_events|eassumption]
    | apply key_print_matches_jar_silent; silent_events ].

Section KeyPrintAttempt.
Context {py : PyRuntime} {ids : MailIds} {env : Env}.

Lemma attempt_steps_key_print d server_url s :
  key_print_matches_jar (emitted (attempt_steps d server_url s)).
Proof.
  wp_start (attempt_steps d server_url) s.
  unfold attempt_steps, verify_and_extract.
  repeat first [wp_stage_silent | wp_step].
  all: try match goal with |- wp (extract_and_publish ?d ?u) ?s1 _ =>
         wp_use (extract_and_publish_key_print d u s1) end.
  all: subst Q; red_run; key_print_tac.
Qed.

Lemma close_event_silent (e : event) : close_event e = true → silent_on_key e.
Proof. revert e. alpha_side. Qed.

(** The key on the reporting channel.  An attempt reads the cookie jar once
    at most.  When the jar that it read has a usable key (the value that
    the scan of lines 256-267 keeps, if it is not empty), the attempt calls
    [print(f"CLIENT_KEY:{client_key}")] with that key exactly once; when it
    read no jar, or a jar without a usable key, it never makes that call.
    This holds in every environment: whatever the server URL is, and
    whatever becomes of the upload. *)
Theorem key_print_follows_cookie {L R : Type} current_idx total_count
    server_url headless (s : state L) :
  key_print_matches_jar
    (emitted (register_one_account (R:=R) current_idx total_count server_url
                headless s)).
Proof.
  wp_start (register_one_account (L:=L) (R:=R) current_idx total_count
              server_url headless) s.
  unfold register_one_account, register_one_account_body, attempt_body,
    close_driver.
  wp_steps.
  all: try solve [subst Q; red_run; apply key_print_matches_jar_silent;
                  silent_events].
  match goal with |- wp (attempt_steps ?d ?u) ?s1 _ =>
    wp_use (conj (attempt_steps_key_print d u s1)
                 (attempt_steps_keeps_driver d u s1))
  end.
  destruct post0 as [[dr su] w1 c1]. red_run_in Hrun.
  destruct Hrun as [Hkey ->].
  destruct out0 as [[]|e|v]; red_run; wp_steps.
  all: subst Q; red_run; cbn [app]; rewrite ?app_nil_r; key_print_tac.
Qed.
End KeyPrintAttempt.

(** The end-to-end scenario without a server: the key of the jar is printed
    once, and nothing is uploaded. *)
Example key_print_scenario :
  let r := register_one_account (env:=sim_env) (L:=unit) (R:=unit) 1 1 []
             false (sim_start tt happy_world) in
  out r = Normal true ∧
  jars_read (emitted r) = [[client_cookie "accounts.example.com" "tok_abc"]] ∧
  usable_key [client_cookie "accounts.example.com" "tok_abc"]
    = Some (lit "tok_abc") ∧
  List.filter is_key_print (emitted r)
    = [EvPrint (ClientKeyLine (lit "tok_abc"))] ∧
  List.filter is_post (emitted r) = [].
Proof. vm_compute. done. Qed.



(** ** The browser session *)

Section Session.
Context {py : PyRuntime} {ids : MailIds} {env : Env}.

Lemma ends_with_close_calls_cons d tr c e :
  close_event e = false →
  ends_with_close_calls d tr c → ends_with_close_calls d (e :: tr) c.
Proof.
  intros He (pre & -> & Hpre). exists (e :: pre). split; [done|by constructor].
Qed.

Lemma ends_with_close_calls_app d tr c t :
  Forall (fun e => close_event e = false) t →
  ends_with_close_calls d tr c → ends_with_close_calls d (t ++ tr) c.
Proof.
  intros Ht (pre & -> & Hpre). exists (t ++ pre).
  split; [by rewrite app_assoc|by apply Forall_app].
Qed.

Lemma ends_with_close_calls_skipped d e :
  ends_with_close_calls d [EvCall (Drv d ServiceStop) (Raise e)] (QuitSkipped e).
Proof. by exists []. Qed.

Lemma ends_with_close_calls_called d rq :
  ends_with_close_calls d
    [EvCall (Drv d ServiceStop) (Ok tt); EvCall (Drv d Quit) rq] (QuitCalled rq).
Proof. by exists []. Qed.

Lemma sessions_quiet (alpha : event → bool) (t : list event) :
  Forall (fun e => alpha e = true) t →
  (∀ e, alpha e = true → session_of e = None) →
  sessions t = [].
Proof.
  intros Ht Hp. induction Ht as [|e t He _ IH]; [done|].
  unfold sessions in *. simpl. by rewrite (Hp e He).
Qed.

Lemma steps_event_no_session (e : event) :
  steps_event e = true → session_of e = None.
Proof. revert e. alpha_side. Qed.

Lemma steps_event_no_close (e : event) :
  steps_event e = true → close_event e = false.
Proof. revert e. alpha_side. Qed.

(** The [finally] block never raises. *)
Lemma close_driver_out s : out (close_driver s) = Normal tt.
Proof.
  wp_start close_driver s. unfold close_driver. wp_steps.
  all: subst Q; red_run;
    repeat match goal with x : unit |- _ => destruct x end; done.
Qed.
End Session.

Ltac close_calls_tac :=
  cbn [app]; rewrite ?app_nil_r; flatten_trace;
  repeat first
    [ apply ends_with_close_calls_cons; [reflexivity|]
    | apply ends_with_close_calls_app; [eassumption|] ];
  first [ apply ends_with_close_calls_skipped
        | apply ends_with_close_calls_called ].

Section SessionClosed.
Context {py : PyRuntime} {ids : MailIds} {env : Env}.

(** The [finally] block never raises; and when an attempt has opened a
    browser session, the calls of the [finally] block on it are the last
    events of the attempt, on every path, whether the attempt returns or an
    exception that is not an [Exception] passes through it:
    [driver.service.stop()] first, and then [driver.quit()] unless the
    former raised. *)
Theorem attempt_ends_with_close_calls :
  (∀ s, out (close_driver s) = Normal tt) ∧
  (∀ (L R : Type) current_idx total_count server_url headless (s : state L),
     let r := register_one_account (R:=R) current_idx total_count server_url
                headless s in
     ∀ d, In d (sessions (emitted r)) →
          (∃ c, ends_with_close_calls d (emitted r) c) ∧
          ((∃ b, out r = Normal b) ∨ out r = Raised BaseException)).
Proof.
  split; [apply close_driver_out|].
  intros L R current_idx total_count server_url headless s.
  wp_start (register_one_account (L:=L) (R:=R) current_idx total_count
              server_url headless) s.
  unfold register_one_account, register_one_account_body, attempt_body,
    close_driver.
  wp_steps.
  all: try solve [subst Q; red_run; intros d Hin; simpl in Hin; tauto].
  match goal with |- wp (attempt_steps ?d ?u) ?s1 _ =>
    wp_use (conj (attempt_steps_events d u s1) (attempt_steps_keeps_driver d u s1))
  end.
  destruct post0 as [[dr su] w1 c1]. red_run_in Hrun.
  destruct Hrun as [Hev ->].
  pose proof (sessions_quiet _ _ Hev steps_event_no_session) as Hno.
  assert (Forall (fun e => close_event e = false) emitted0) as Hnc.
  { eapply Forall_impl; [exact Hev|]. apply steps_event_no_close. }
  destruct out0 as [[]|e|v]; red_run; wp_steps.
  all: subst Q; red_run; intros d Hin.
  all: unfold sessions in Hin, Hno; rewrite ?omap_app, ?Hno in Hin;
    simpl in Hin; rewrite ?omap_app, ?Hno in Hin; simpl in Hin.
  all: repeat match goal with x : unit |- _ => destruct x end.
  all: destruct Hin as [<-|[]].
  all: split; [eexists; close_calls_tac|]; eauto.
  all: right; by destruct e.
Qed.
End SessionClosed.

(** The theorem at work: in [happy_world] the attempt opens the session [1]
    and ends with the two calls on it. *)
Lemma attempt_ends_with_close_calls_witness :
  let r := register_one_account (env:=sim_env) (L:=unit) (R:=unit) 1 1
             (lit "") false (sim_start tt happy_world) in
  sessions (emitted r) = [1%N] ∧
  (∃ c, ends_with_close_calls 1%N (emitted r) c) ∧
  ((∃ b, out r = Normal b) ∨ out r = Raised BaseException).
Proof.
  split; [vm_compute; reflexivity|].
  apply (proj2 (attempt_ends_with_close_calls (env:=sim_env)) unit unit 1 1
           (lit "") false (sim_start tt happy_world) 1%N).
  vm_compute. auto.
Defined.

(** C9, at the failing input.  The attempt opens the session [1] and goes
    through to the key; in the [finally] block [driver.service.stop()]
    raises, the bare [except] of line 286 swallows the error, and
    [driver.quit()], which stands after it in the same [try], is never
    called: the attempt returns [True] and leaves the browser running. *)
Theorem browser_left_open_when_stop_fails :
  let r := register_one_account (env:=sim_env) (L:=unit) (R:=unit) 1 1
             (lit "") false (sim_start tt stubborn_world) in
  out r = Normal true ∧
  sessions (emitted r) = [1%N] ∧
  List.filter close_event (emitted r)
    = [EvCall (Drv 1%N ServiceStop) (Raise Exception)] ∧
  List.filter is_quit (emitted r) = [] ∧
  ends_with_close_calls 1%N (emitted r) (QuitSkipped Exception) ∧
  browser_closed (QuitSkipped Exception) = false.
Proof.
  split_and!; try (vm_compute; done).
  match goal with |- ends_with_close_calls _ ?tr _ => exists (removelast tr) end.
  split; [vm_compute; reflexivity|].
  match goal with |- Forall _ ?pre =>
    let pre' := eval vm_compute in pre in change (Forall (fun e => close_event e = false) pre')
  end.
  repeat constructor.
Qed.

(** ** The challenge loop *)

Section Challenge.
Context {py : PyRuntime} {ids : MailIds} {env : Env}.

Lemma call_not_returned {L L' R R'} (body : M L' R' R') init (s : state L) v :
  out (call (R:=R) body init s) ≠ Returned v.
Proof. unfold call. cbn [out]. by destruct (out _). Qed.

Lemma force_inject_turnstile_run {L R} d (s : state L) :
  let r := force_inject_turnstile (R:=R) d s in
  Forall (fun e => solver_event e = true) (emitted r) ∧
  locals (post r) = locals s ∧
  ∀ v, out r ≠ Returned v.
Proof.
  split_and!.
  - apply force_inject_turnstile_events.
  - done.
  - intros v. apply call_not_returned.
Qed.

(** Lines 213-216: whatever the solver does, the [try] around it ends
    normally, and has run nothing but the solver. *)
Lemma solver_attempt_run {L R} d (s : state L) :
  let r := try_except any_exn
             (force_inject_turnstile (R:=R) d ;; ret tt)
             (fun _ => ret tt) s in
  out r = Normal tt ∧
  Forall (fun e => solver_event e = true) (emitted r) ∧
  locals (post r) = locals s.
Proof.
  wp_start (try_except any_exn
              (force_inject_turnstile (L:=L) (R:=R) d ;; ret tt)
              (fun _ => ret tt)) s.
  wp_step. wp_step.
  wp_use (force_inject_turnstile_run (L:=L) (R:=R) d s).
  destruct Hrun as (Hev & Hloc & Hret).
  destruct out0 as [b|e|v]; [| |by destruct (Hret v)]; red_run; wp_steps.
  all: subst Q; red_run; rewrite ?app_nil_r; by split_and!.
Qed.

(** Lines 206-217 when the code field is never there: [n] turns of the loop
    make [n] rounds, and leave [pass_check] false. *)
Lemma pass_check_loop_never {L R} (Hnever : field_never_shown) d n (s : state L) :
  let r := pass_check_loop (R:=R) d n s in
  out r = Normal false ∧ rounds d n (emitted r) ∧
  locals (post r) = locals s.
Proof.
  revert s. induction n as [|n IH]; intros s.
  { split_and!; try done. constructor. }
  wp_start (pass_check_loop (L:=L) (R:=R) d (S n)) s.
  cbn [pass_check_loop]. wp_step. wp_step.
  all: pose proof (Hnever d (world s)) as Hfound;
    rewrite Hanswer in Hfound; cbn [fst] in Hfound; simplify_eq.
  cbn [length Nat.ltb Nat.leb]. wp_step.
  match goal with |- wp _ ?s1 _ =>
    wp_use (solver_attempt_run (L:=L) (R:=R) d s1)
  end.
  destruct Hrun as (-> & Hsolver & Hloc). red_run.
  wp_step. wp_step.
  match goal with |- wp _ ?s1 _ => wp_use (IH s1) end.
  destruct Hrun as (-> & Hrounds & Hloc').
  subst Q. red_run. red_run_in Hloc'. split_and!; try done.
  - cbn [app]. by constructor.
  - congruence.
Qed.

Lemma solver_event_not_check (e : event) :
  solver_event e = true → check_event e = false.
Proof. revert e. alpha_side. Qed.

(** Each round looks for the code field once. *)
Lemma rounds_checks d n tr :
  rounds d n tr → length (List.filter check_event tr) = n.
Proof.
  induction 1 as [|n solver rest Hsolver _ IH]; [done|].
  cbn [List.filter check_event]. rewrite List.filter_app.
  rewrite (filter_quiet solver_event check_event solver) by
    (try done; apply solver_event_not_check).
  cbn. by rewrite IH.
Qed.

(** ... and pauses for two seconds once. *)
Lemma solver_event_not_pace (e : event) :
  solver_event e = true → pace_event e = false.
Proof. revert e. alpha_side. Qed.

Lemma rounds_pauses d n tr :
  rounds d n tr → length (List.filter pace_event tr) = n.
Proof.
  induction 1 as [|n solver rest Hsolver _ IH]; [done|].
  cbn [List.filter pace_event]. rewrite List.filter_app.
  rewrite (filter_quiet solver_event pace_event solver) by
    (try done; apply solver_event_not_pace).
  cbn. by rewrite IH.
Qed.
End Challenge.

Section ChallengeAttempt.
Context {py : PyRuntime} {ids : MailIds} {env : Env}.

Lemma filter_none (p : event → bool) (t : list event) :
  Forall (fun e => p e = false) t → List.filter p t = [].
Proof. induction 1 as [|e t He _ IH]; [done|]. simpl. by rewrite He. Qed.

(** The steps of an attempt when the code field is never there: either they
    stop before the challenge loop, or they go through its fifteen rounds,
    report the timeout and leave with [return False]. *)
Lemma attempt_steps_challenge (Hnever : field_never_shown) d server_url s :
  let r := attempt_steps d server_url s in
  Forall (fun e => is_verify_mode e = false) (emitted r) ∨
  (out r = Returned false ∧
   length (List.filter check_event (emitted r)) = 15%nat ∧
   In (EvPrint (LogLine ERR MsgChallengeTimeout)) (emitted r)).
Proof.
  wp_start (attempt_steps d server_url) s.
  unfold attempt_steps.
  wp_step. wp_stage; [|subst Q; left; red_run; forall_events..].
  wp_step. wp_stage; [|subst Q; left; red_run; forall_events..].
  wp_step. unfold pass_check_stage. wp_step. wp_step. wp_step.
  match goal with |- wp _ ?s1 _ =>
    wp_use (pass_check_loop_never (R:=bool) Hnever d 15 s1)
  end.
  destruct Hrun as (-> & Hrounds & _). red_run. cbn [negb]. wp_steps.
  subst Q. right. red_run. split_and!; [done| |].
  - rewrite !List.filter_app.
    rewrite (filter_none check_event t), (filter_none check_event t0)
      by forall_events.
    cbn [app List.filter check_event]. rewrite app_nil_r.
    apply (rounds_checks d 15 emitted0 Hrounds).
  - rewrite !in_app_iff. simpl. auto 10.
Qed.
End ChallengeAttempt.

Section ChallengeBound.
Context {py : PyRuntime} {ids : MailIds} {env : Env}.

(** C8. Bounded challenge loop: when the code field never shows up, the loop
    of lines 206-217 makes exactly fifteen rounds (one search for the field,
    one run of the solver, one pause of two seconds each) and ends normally
    with [pass_check] false; and an attempt that gets as far as the loop
    returns [False], having looked for the field fifteen times and logged
    the timeout. *)
Theorem challenge_loop_bounded (Hnever : field_never_shown) :
  (∀ (L R : Type) d (s : state L),
     let r := pass_check_loop (R:=R) d 15 s in
     out r = Normal false ∧ rounds d 15 (emitted r)) ∧
  (∀ (L R : Type) current_idx total_count server_url headless (s : state L),
     let r := register_one_account (R:=R) current_idx total_count server_url
                headless s in
     List.filter is_verify_mode (emitted r) ≠ [] →
     out r = Normal false ∧
     length (List.filter check_event (emitted r)) = 15%nat ∧
     In (EvPrint (LogLine ERR MsgChallengeTimeout)) (emitted r)).
Proof.
  split.
  { intros L R d s.
    destruct (pass_check_loop_never (R:=R) Hnever d 15 s) as (? & ? & _).
    done. }
  intros L R current_idx total_count server_url headless s.
  wp_start (register_one_account (L:=L) (R:=R) current_idx total_count
              server_url headless) s.
  unfold register_one_account, register_one_account_body, attempt_body,
    close_driver.
  wp_steps.
  all: try solve [subst Q; red_run; intros Hmode; by destruct Hmode].
  match goal with |- wp (attempt_steps ?d ?u) ?s1 _ =>
    wp_use (conj (attempt_steps_challenge Hnever d u s1)
                 (attempt_steps_keeps_driver d u s1))
  end.
  destruct post0 as [[dr su] w1 c1]. red_run_in Hrun.
  destruct Hrun as [[Hquiet|(-> & Hcount & Hlog)] ->].
  - destruct out0 as [[]|e|v]; red_run; wp_steps.
    all: subst Q; red_run; intros Hmode; destruct Hmode.
    all: apply filter_none; forall_events.
  - red_run. wp_steps.
    all: subst Q; red_run; intros _; split_and!; [done| |].
    all: try (rewrite !in_app_iff; tauto).
    all: rewrite !List.filter_app, !length_app, Hcount; simpl; lia.
Qed.
End ChallengeBound.

(** The theorem at work, in an environment where the field is never shown:
    the attempt reaches the loop, and gives up after its fifteen rounds. *)
Lemma challenge_loop_witness :
  let r := register_one_account (env:=stuck_env) (L:=unit) (R:=unit) 1 1
             (lit "") false (stuck_start happy_world) in
  out r = Normal false ∧
  length (List.filter check_event (emitted r)) = 15%nat ∧
  In (EvPrint (LogLine ERR MsgChallengeTimeout)) (emitted r).
Proof.
  apply (proj2 (challenge_loop_bounded (env:=stuck_env)
                  (fun d w => eq_refl))
           unit unit 1 1 (lit "") false (stuck_start happy_world)).
  vm_compute. discriminate.
Defined.

(** The fifteen rounds take the two seconds of each pause, and what the
    calls take besides. *)
Example challenge_loop_pauses :
  let r := pass_check_loop (env:=stuck_env) (L:=unit) (R:=unit) 1%N 15
             (stuck_start happy_world) in
  out r = Normal false ∧
  length (List.filter pace_event (emitted r)) = 15%nat ∧
  (30 <= clock (post r))%N.
Proof. vm_compute. split_and!; try done. Qed.

(** * Further properties of the script *)

(** ** [generate_password] *)

Section Password.
Context {py : PyRuntime} {ids : MailIds} {env : Env}.

Lemma random_choice_run {L R} (chars : str) (s : state L) :
  chars ≠ [] →
  let r := random_choice (R:=R) chars s in
  ∃ c, out r = Normal c ∧ c ∈ chars ∧ emitted r = [] ∧
       locals (post r) = locals s ∧ clock (post r) = clock s.
Proof.
  intros Hne.
  wp_start (random_choice (L:=L) (R:=R) chars) s. unfold random_choice.
  wp_steps. subst Q. red_run.
  eexists. split_and!; try done.
  assert (0 < length chars)%nat as Hlen by (destruct chars; simpl; [done|lia]).
  apply list_elem_of_In, nth_In.
  rewrite N.sub_0_r, N.add_0_l.
  replace (N.of_nat (length chars) - 1 + 1)%N with (N.of_nat (length chars)) by lia.
  pose proof (N.mod_upper_bound n (N.of_nat (length chars))). lia.
Qed.

Lemma random_chars_run {L R} (n : nat) (chars : str) (s : state L) :
  chars ≠ [] →
  let r := random_chars (R:=R) n chars s in
  ∃ l, out r = Normal l ∧ length l = n ∧ Forall (fun c => c ∈ chars) l ∧
       emitted r = [] ∧ locals (post r) = locals s ∧
       clock (post r) = clock s.
Proof.
  intros Hne. revert s. induction n as [|n IH]; intros s.
  { exists []. by split_and!. }
  wp_start (random_chars (L:=L) (R:=R) (S n) chars) s. cbn [random_chars].
  wp_step.
  wp_use (random_choice_run (R:=R) chars s Hne).
  destruct Hrun as (c & -> & Hc & -> & Hl & Hk). red_run.
  wp_step.
  match goal with |- wp _ ?s1 _ => wp_use (IH s1) end.
  destruct Hrun as (l & -> & Hlen & Hall & -> & Hl' & Hk'). red_run.
  wp_steps. subst Q. red_run.
  exists (c :: l). split_and!; try done.
  - simpl. by rewrite Hlen.
  - by constructor.
  - congruence.
  - congruence.
Qed.

(** [generate_password] always gives 14 characters, each of them a letter,
    a digit or one of [!@#$%]; it writes nothing, calls nothing outside and
    takes no time: it only draws random numbers. *)
Theorem generate_password_shape {L R : Type} (s : state L) :
  let r := generate_password (R:=R) s in
  ∃ password,
    out r = Normal password ∧
    length password = 14%nat ∧
    Forall (fun c => c ∈ password_chars) password ∧
    emitted r = [] ∧ locals (post r) = locals s ∧ clock (post r) = clock s.
Proof.
  wp_start (generate_password (L:=L) (R:=R)) s. unfold generate_password.
  wp_step.
  match goal with |- wp _ ?s1 _ =>
    wp_use (random_chars_run (L:=unit) (R:=str) 14 password_chars s1)
  end.
  destruct Hrun as (l & -> & Hlen & Hall & -> & _ & Hk); [done|].
  subst Q. red_run. exists l. by split_and!.
Qed.
End Password.

(** ** The clean-up of a message body *)

Section NormalizeFacts.
Context {py : PyRuntime}.

(** No two white-space characters next to each other. *)
Lemma collapse_spaces_run (in_run : bool) (s : str) :
  let t := collapse_spaces in_run s in
  Forall (fun c => is_space c = true → c = SPACE) t ∧
  (∀ i c d, t !! i = Some c → t !! S i = Some d →
            is_space c = true → is_space d = false) ∧
  (in_run = true → ∀ c, head t = Some c → is_space c = false).
Proof.
  revert in_run. induction s as [|a s IH]; intros in_run; cbn zeta.
  { split_and!; [constructor|done|done]. }
  cbn [collapse_spaces]. destruct (is_space a) eqn:Ha.
  - destruct in_run.
    + apply IH.
    + destruct (IH true) as (HA & HB & HC). split_and!; [| |done].
      * by constructor.
      * intros [|i] c d Hc Hd Hsp; simplify_eq/=.
        -- apply (HC eq_refl). by rewrite head_lookup.
        -- by apply (HB i c d).
  - destruct (IH false) as (HA & HB & _). split_and!.
    + constructor; [congruence|done].
    + intros [|i] c d Hc Hd Hsp; simplify_eq/=; [congruence|].
      by apply (HB i c d).
    + intros _ c Hc. by simplify_eq/=.
Qed.

Lemma lstrip_suffix (s : str) :
  ∃ pre, s = pre ++ lstrip s ∧ ∀ c, head (lstrip s) = Some c → is_space c = false.
Proof.
  induction s as [|a s (pre & Hs & Hh)]; [by exists []|].
  cbn [lstrip]. destruct (is_space a) eqn:Ha.
  - exists (a :: pre). split; [by rewrite Hs at 1|done].
  - exists []. split; [done|]. intros c Hc. by simplify_eq/=.
Qed.

(** [strip] keeps a stretch of the string, with no white space at its ends. *)
Lemma strip_middle (s : str) :
  ∃ pre suf, s = pre ++ strip s ++ suf ∧
    (∀ c, head (strip s) = Some c → is_space c = false) ∧
    (∀ c, last (strip s) = Some c → is_space c = false).
Proof.
  unfold strip.
  destruct (lstrip_suffix s) as (pre & Hs & Hh).
  destruct (lstrip_suffix (reverse (lstrip s))) as (suf & Hr & Hl).
  set (u := lstrip s) in *. set (v := lstrip (reverse u)) in *.
  assert (u = reverse v ++ reverse suf) as Hu.
  { rewrite <- reverse_app, <- Hr. by rewrite reverse_involutive. }
  exists pre, (reverse suf). split_and!.
  - by rewrite <- Hu.
  - intros c Hc. apply Hh. rewrite Hu.
    destruct (reverse v); [done|]. done.
  - intros c Hc. apply Hl. by rewrite last_reverse in Hc.
Qed.
End NormalizeFacts.

Section CleanContent.
Context {py : PyRuntime}.

(** The text that [wait_for_code] searches for a code is in normal form:
    its only white-space characters are single spaces, none next to another
    and none at either end. *)
Theorem clean_content_normal_form (raw_content : str) :
  let t := clean_content raw_content in
  (∀ c, c ∈ t → is_space c = true → c = SPACE) ∧
  (∀ i c d, t !! i = Some c → t !! S i = Some d →
            is_space c = true → is_space d = false) ∧
  (∀ c, head t = Some c → is_space c = false) ∧
  (∀ c, last t = Some c → is_space c = false).
Proof.
  unfold clean_content. cbv zeta.
  set (u := collapse_spaces false _).
  destruct (collapse_spaces_run false (strip_tags (html_unescape raw_content)))
    as (HA & HB & _). fold u in HA, HB.
  destruct (strip_middle u) as (pre & suf & Hu & Hh & Hl).
  split_and!; [| |done|done].
  - intros c Hc. rewrite Hu in HA.
    apply Forall_app in HA as [_ [HA _]%Forall_app].
    by apply (proj1 (Forall_forall _ _) HA).
  - intros i c d Hc Hd. apply (HB (length pre + i)%nat).
    + rewrite Hu. unfold str. rewrite lookup_app_r by lia.
      replace (length pre + i - length pre)%nat with i by lia.
      by apply lookup_app_l_Some.
    + rewrite Hu. unfold str. rewrite lookup_app_r by lia.
      replace (S (length pre + i) - length pre)%nat with (S i) by lia.
      by apply lookup_app_l_Some.
Qed.

Lemma tag_close_body (body b : str) :
  GT ∉ body → tag_close (body ++ GT :: b) = Some (S (length body)).
Proof.
  induction body as [|c body IH]; intros Hno; [done|].
  cbn [app tag_close length].
  destruct (N.eqb_spec c GT) as [->|_]; [set_solver|].
  rewrite IH by set_solver. done.
Qed.

Lemma tag_close_none (b : str) : GT ∉ b → tag_close b = None.
Proof.
  induction b as [|c b IH]; intros Hno; [done|]. cbn [tag_close].
  destruct (N.eqb_spec c GT) as [->|_]; [set_solver|].
  rewrite IH by set_solver. done.
Qed.

Lemma strip_tags_from_skip (a b : str) :
  strip_tags_from (length a) (a ++ b) = strip_tags_from O b.
Proof. induction a as [|c a IH]; [done|]. exact IH. Qed.

Lemma strip_tags_from_plain (a r : str) :
  LT ∉ a → strip_tags_from O (a ++ r) = a ++ strip_tags_from O r.
Proof.
  induction a as [|c a IH]; intros Hno; [done|].
  cbn [app strip_tags_from].
  destruct (N.eqb_spec c LT) as [->|_]; [set_solver|].
  rewrite IH by set_solver. done.
Qed.

Lemma strip_tags_from_unclosed (b : str) :
  GT ∉ b → strip_tags_from O b = b.
Proof.
  induction b as [|c b IH]; intros Hno; [done|]. cbn [strip_tags_from].
  rewrite IH by set_solver.
  destruct (c =? LT)%N; [|done].
  unfold tag_match. rewrite tag_close_none by set_solver. done.
Qed.

(** [re.sub(r'<[^>]+>', ' ', s)]: text without ['<'] is left as it is; a tag
    (a ['<'], at least one character other than ['>'], a ['>']) becomes one
    space, so that the texts on its two sides never run together; [<>] is
    no tag and stays; and so does a ['<'] that no ['>'] follows. *)
Theorem strip_tags_spec :
  (∀ a, LT ∉ a → strip_tags a = a) ∧
  (∀ a body b, LT ∉ a → body ≠ [] → GT ∉ body →
     strip_tags (a ++ LT :: body ++ GT :: b) = a ++ SPACE :: strip_tags b) ∧
  (∀ a b, LT ∉ a →
     strip_tags (a ++ LT :: GT :: b) = a ++ LT :: GT :: strip_tags b) ∧
  (∀ a b, LT ∉ a → GT ∉ b → strip_tags (a ++ LT :: b) = a ++ LT :: b).
Proof.
  unfold strip_tags. split_and!.
  - intros a Ha. rewrite <- (app_nil_r a) at 1.
    by rewrite strip_tags_from_plain, app_nil_r.
  - intros a body b Ha Hbody Hgt. rewrite strip_tags_from_plain by done.
    cbn [strip_tags_from]. rewrite N.eqb_refl.
    unfold tag_match. rewrite tag_close_body by done.
    destruct body as [|c body]; [done|]. cbn [length].
    rewrite <- (strip_tags_from_skip (c :: body ++ [GT]) b).
    cbn [app length]. rewrite <- app_assoc, length_app. cbn [app length].
    by replace (length body + 1)%nat with (S (length body)) by lia.
  - intros a b Ha. rewrite strip_tags_from_plain by done. done.
  - intros a b Ha Hb. rewrite strip_tags_from_plain by done.
    cbn [strip_tags_from]. rewrite N.eqb_refl.
    unfold tag_match. rewrite tag_close_none by done.
    by rewrite strip_tags_from_unclosed.
Qed.
End CleanContent.

Example clean_content_html :
  clean_content (py:=sim_runtime) (lit "<p>Your  code:<b>482913</b> </p>")
  = lit "Your code: 482913".
Proof. vm_compute. reflexivity. Qed.

(** Digits on the two sides of a tag do not make a code. *)
Example clean_content_split_code :
  extract_code ascii_digit
    (clean_content (py:=sim_runtime) (lit "482<i>913</i>")) = None.
Proof. vm_compute. reflexivity. Qed.

(** ** More on [wait_for_code] *)

Section ExtractDigits.
Context {char : Type} (digit : char → bool).

Lemma digits_prefix_take n (s : list char) :
  digits_prefix digit n s = true →
  length (take n s) = n ∧ Forall (fun c => digit c = true) (take n s).
Proof.
  revert s. induction n as [|n IH]; intros s Hs; [by split; [|constructor]|].
  destruct s as [|c s]; [done|]. cbn [digits_prefix] in Hs.
  apply andb_true_iff in Hs as [Hc Hs]. destruct (IH s Hs) as [Hlen Hall].
  cbn [take length]. split; [by rewrite Hlen|by constructor].
Qed.

Lemma search_from_digits prev (s : list char) i code :
  search_from digit prev s = Some (i, code) →
  length code = 6%nat ∧ Forall (fun c => digit c = true) code.
Proof.
  revert prev i code. induction s as [|c s IH]; intros prev i code.
  - cbn [search_from]. unfold match_here. cbn [digits_prefix].
    by rewrite andb_false_r.
  - cbn [search_from]. destruct (match_here digit prev (c :: s)) as [g|] eqn:Hm.
    + intros [= <- <-]. unfold match_here in Hm.
      destruct (lookbehind_ok digit prev); [|done].
      destruct (digits_prefix digit 6 (c :: s)) eqn:Hd; [|done].
      destruct (lookahead_ok digit (drop 6 (c :: s))); [|done].
      injection Hm as <-. exact (digits_prefix_take 6 (c :: s) Hd).
    + destruct (search_from digit (Some c) s) as [[j g]|] eqn:Hs; [|done].
      intros [= <- <-]. by apply (IH (Some c) j g).
Qed.

(** What the pattern gives is six digits. *)
Lemma extract_code_digits (s : list char) code :
  extract_code digit s = Some code →
  length code = 6%nat ∧ Forall (fun c => digit c = true) code.
Proof.
  unfold extract_code, re_search.
  destruct (search_from digit None s) as [[i g]|] eqn:Hs; [|done].
  intros [= <-]. by apply (search_from_digits None s i).
Qed.
End ExtractDigits.

Section CodeProvenance.
Context {py : PyRuntime} {ids : MailIds} {env : Env}.

Local Arguments extract_code : simpl never.
Local Arguments clean_content : simpl never.

Lemma search_sources_code {L} email_id subject text (s : state L) :
  let r := search_sources email_id [(Subject, subject); (Body, JStr text)] s in
  ∀ code, out r = Returned (Some code) →
    ends_with_code (emitted r) code ∧
    ((∃ subj, subject = JStr subj ∧ extract_code is_digit subj = Some code) ∨
     extract_code is_digit text = Some code).
Proof.
  wp_start (search_sources (L:=L) email_id
              [(Subject, subject); (Body, JStr text)]) s.
  cbn [search_sources]. wp_steps.
  all: subst Q; red_run; intros code Hcode; simplify_eq.
  - split; [by eexists [_]|]. left. eauto.
  - split; [by eexists [_; _]|]. by right.
Qed.

Lemma poll_code email s :
  let r := poll email s in
  ∀ code, out r = Returned (Some code) →
    ∃ m rest t,
      emitted r = EvCall (MailFetch email) (Ok (m :: rest)) :: t ∧
      code_of_message m code ∧ ends_with_code (emitted r) code.
Proof.
  wp_start (poll email) s. unfold poll. wp_steps.
  all: try lazymatch goal with
    | |- wp (search_sources ?i [(Subject, ?subj); (Body, JStr ?text)]) ?s0 _ =>
        wp_use (search_sources_code i subj text s0);
        destruct out0 as [[]|e|[code'|]]; wp_steps
    end.
  all: subst Q; red_run; intros code Hcode; simplify_eq.
  all: destruct (Hrun _ eq_refl) as [[pre Hpre] Hfrom].
  all: eexists _, _, _; split; [reflexivity|]; split.
  all: try (rewrite Hpre; eexists (_ :: _ :: _ ); cbn [app];
            rewrite ?app_nil_r; reflexivity).
  destruct Hfrom as [(subj & Hs & He)|He]; [left|right; eauto].
  destruct (m_subject m) eqn:Hsubj; simplify_eq;
    first [by cbv in He | by eauto].
Qed.

(** The loop hands over what a turn found. *)
Lemma wait_loop_code email start fuel s :
  let r := wait_loop fuel email start s in
  ∀ code, out r = Returned (Some code) →
    (∃ m, fetched_newest email m (emitted r) ∧ code_of_message m code) ∧
    ends_with_code (emitted r) code.
Proof.
  revert s. induction fuel as [|fuel IH]; intros s; [done|].
  wp_start (wait_loop (S fuel) email start) s. cbn [wait_loop].
  wp_steps; [|by subst Q].
  wp_use (conj (poll_code email s) (poll_turn email s)).
  destruct Hrun as (Hcode & Ho & _).
  destruct Ho as [->|[code ->]]; red_run.
  - match goal with |- wp (wait_loop fuel email start) ?s1 _ =>
      wp_use (IH s1) end.
    subst Q. red_run. intros code ->.
    destruct (Hrun code eq_refl) as [(m & [rest Hin] & Hm) [pre ->]].
    split.
    + exists m. split; [|done]. exists rest. cbn [app]. apply in_or_app. by right.
    + exists (emitted0 ++ pre). by rewrite !app_nil_l, app_assoc.
  - subst Q. red_run. intros code' [= <-].
    destruct (Hcode code eq_refl) as (m & rest & t & -> & Hm & Hend).
    rewrite app_nil_l. split; [|done].
    exists m. split; [|done]. exists rest. by left.
Qed.

(** A code that [wait_for_code] returns is six digits long, was found by the
    pattern in the newest message of a fetch (in its subject or in its
    cleaned-up body), and is reported on the last line that the function
    writes. *)
Theorem wait_for_code_returns_found_code {L R : Type} (email : str)
    (s : state L) (code : str) :
  let r := wait_for_code (R:=R) email s in
  out r = Normal (Some code) →
  length code = 6%nat ∧
  Forall (fun c => is_digit c = true) code ∧
  (∃ m, fetched_newest email m (emitted r) ∧ code_of_message m code) ∧
  ends_with_code (emitted r) code.
Proof.
  wp_start (wait_for_code (L:=L) (R:=R) email) s.
  unfold wait_for_code, wait_for_code_body. wp_steps.
  match goal with |- wp (wait_loop ?f email ?st) ?s1 _ =>
    wp_use (conj (wait_loop_code email st f s1) (wait_loop_run email st f s1))
  end.
  destruct Hrun as (Hcode & Ho & _).
  destruct Ho as [->|[code' ->]]; wp_steps; subst Q; red_run; [done|].
  intros [= ->].
  destruct (Hcode code eq_refl) as [(m & [rest Hin] & Hm) [pre ->]].
  assert (length code = 6%nat ∧ Forall (fun c => is_digit c = true) code)
    as [Hlen Hdig].
  { destruct Hm as [(subj & _ & He)|(raw & _ & He)];
      by apply extract_code_digits in He. }
  split_and!; try done.
  - exists m. split; [|done]. exists rest. by right.
  - by exists (EvPrint (LogLine INFO (MsgListening email)) :: pre).
Qed.
End CodeProvenance.

(** The theorem at work on the mailbox of the end-to-end scenario. *)
Lemma wait_for_code_returns_found_code_witness :
  let r := wait_for_code (env:=sim_env) (L:=unit) (R:=unit) (lit "a@b.test")
             (sim_start tt happy_world) in
  length (lit "482913") = 6%nat ∧
  Forall (fun c => ascii_digit c = true) (lit "482913") ∧
  (∃ m, fetched_newest (lit "a@b.test") m (emitted r) ∧
        code_of_message m (lit "482913")) ∧
  ends_with_code (emitted r) (lit "482913").
Proof.
  apply (wait_for_code_returns_found_code (py:=sim_runtime) (env:=sim_env)
           (L:=unit) (R:=unit) (lit "a@b.test") (sim_start tt happy_world)
           (lit "482913")).
  vm_compute. reflexivity.
Defined.

Section PollTurn.
Context {py : PyRuntime} {ids : MailIds} {env : Env}.

Local Arguments extract_code : simpl never.
Local Arguments clean_content : simpl never.


End PollTurn.




Example wait_for_code_null_subject :
  let r := wait_for_code (env:=sim_env) (L:=unit) (R:=unit) (lit "a@b.test")
             (sim_start tt null_subject_world) in
  out r = Normal None ∧ searches (emitted r) = [(1%nat, Subject)].
Proof. vm_compute. done. Qed.

(** ** The challenge solver *)

Section Solver.
Context {py : PyRuntime} {ids : MailIds} {env : Env}.

Lemma in_frame_after_app inside (t1 t2 : list event) :
  in_frame_after inside (t1 ++ t2) = in_frame_after (in_frame_after inside t1) t2.
Proof. apply fold_left_app. Qed.


End Solver.

(** A click in a frame, a failed switch back: the function goes on, and
    returns [False]. *)
Example force_inject_turnstile_lost_click :
  let r := force_inject_turnstile (env:=frame_trap_env) (L:=unit) (R:=unit)
             5%N frame_trap_start in
  out r = Normal false ∧
  existsb is_click_hit (emitted r) = true ∧
  in_frame_after false (emitted r) = false ∧
  length (List.filter is_click_script (emitted r)) = 2%nat.
Proof. vm_compute. done. Qed.

(** ** The challenge loop in any environment *)

Section ChallengeLoop.
Context {py : PyRuntime} {ids : MailIds} {env : Env}.

End ChallengeLoop.

(** ** What the stages return *)

Section Returns.
Context {ids : MailIds} {env : Env}.

Lemma returns_ret {L R A} (P : R → Prop) (a : A) : returns P (ret (L:=L) a).
Proof. by intros s v. Qed.

Lemma returns_raise {L R A} (P : R → Prop) e :
  returns P (raise (L:=L) (A:=A) e).
Proof. by intros s v. Qed.

Lemma returns_return {L R A} (P : R → Prop) v :
  P v → returns P (return_ (L:=L) (A:=A) v).
Proof. intros Hv s v' [= <-]. done. Qed.

Lemma returns_get_locals {L R} (P : R → Prop) : returns P (get_locals (L:=L)).
Proof. by intros s v. Qed.

Lemma returns_set_locals {L R} (P : R → Prop) g :
  returns P (set_locals (L:=L) g).
Proof. by intros s v. Qed.

Lemma returns_time {L R} (P : R → Prop) : returns P (time (L:=L)).
Proof. by intros s v. Qed.

Lemma returns_randint {L R} (P : R → Prop) a b :
  returns P (randint (L:=L) a b).
Proof. intros s v. unfold randint. by destruct (random (world s)). Qed.

Lemma returns_emit {L R} (P : R → Prop) e : returns P (emit (L:=L) e).
Proof. by intros s v. Qed.

Lemma returns_sleep {L R} (P : R → Prop) secs : returns P (sleep (L:=L) secs).
Proof. by intros s v. Qed.

Lemma returns_call_env {L R X} (P : R → Prop) (o : op X) :
  returns P (call_env (L:=L) o).
Proof.
  intros s v. unfold call_env.
  destruct (answer X o (world s)) as [[r dt] w]. by destruct r.
Qed.

Lemma returns_bind {L R A B} (P : R → Prop) (m : M L R A) (k : A → M L R B) :
  returns P m → (∀ a, returns P (k a)) → returns P (bind m k).
Proof.
  intros Hm Hk s v. unfold bind. specialize (Hm s).
  destruct (out (m s)) as [a|e|v'] eqn:Ho; cbn [out].
  - apply Hk.
  - done.
  - intros [= <-]. by apply Hm.
Qed.

Lemma returns_try_except {L R A} (P : R → Prop) catches (body : M L R A)
    handler :
  returns P body → (∀ e, returns P (handler e)) →
  returns P (try_except catches body handler).
Proof.
  intros Hb Hh s v. unfold try_except. specialize (Hb s).
  destruct (out (body s)) as [a|e|v'] eqn:Ho.
  - by rewrite Ho.
  - destruct (catches e); [apply Hh|by rewrite Ho].
  - rewrite Ho. intros [= <-]. by apply Hb.
Qed.

Lemma returns_call {L L' R R'} (P : R → Prop) (body : M L' R' R') init :
  returns P (call (L:=L) (R:=R) body init).
Proof. intros s v. unfold call. cbn [out]. by destruct (out _). Qed.
End Returns.

Ltac ret_callee := fail.

Ltac ret1 :=
  lazymatch goal with
  | |- returns _ (bind _ _) => apply returns_bind; [| intros ?]
  | |- returns _ (ret _) => apply returns_ret
  | |- returns _ (raise _) => apply returns_raise
  | |- returns _ (return_ _) => apply returns_return; done
  | |- returns _ get_locals => apply returns_get_locals
  | |- returns _ (set_locals _) => apply returns_set_locals
  | |- returns _ (set_success _) => apply returns_set_locals
  | |- returns _ (set_driver _) => apply returns_set_locals
  | |- returns _ time => apply returns_time
  | |- returns _ (randint _ _) => apply returns_randint
  | |- returns _ (log _ _) => apply returns_emit
  | |- returns _ (print _) => apply returns_emit
  | |- returns _ (emit _) => apply returns_emit
  | |- returns _ (sleep _) => apply returns_sleep
  | |- returns _ (drv _ _) => apply returns_call_env
  | |- returns _ (call_env _) => apply returns_call_env
  | |- returns _ (try_except _ _ _) => apply returns_try_except; [| intros ?]
  | |- returns _ (call _ _) => apply returns_call
  | |- returns _ (if ?b then _ else _) => destruct b
  | |- returns _ (match ?x with _ => _ end) => destruct x
  | |- returns _ (let _ := _ in _) => cbv zeta
  | |- returns _ generate_password => apply returns_call
  | |- returns _ create_temp_email => apply returns_call
  | |- returns _ (upload_to_server _ _) => apply returns_call
  | |- returns _ (wait_for_code _) => apply returns_call
  | |- returns _ (force_inject_turnstile _) => apply returns_call
  | |- returns _ (username_step _) => unfold username_step
  | |- returns _ _ => ret_callee
  end.

Ltac ret_walk := repeat ret1.

Section StagesReturn.
Context {py : PyRuntime} {ids : MailIds} {env : Env}.

Lemma pass_check_loop_returns {L R} (P : R → Prop) d remaining :
  returns P (pass_check_loop (L:=L) d remaining).
Proof. induction remaining as [|n IH]; simpl; ret_walk; apply IH. Qed.

Lemma click_continue_returns {L R} (P : R → Prop) d btns :
  returns P (click_continue (L:=L) d btns).
Proof. induction btns as [|btn rest IH]; simpl; ret_walk; apply IH. Qed.

Lemma scan_cookies_returns {L R} (P : R → Prop) all_cookies client_key :
  returns P (scan_cookies (L:=L) all_cookies client_key).
Proof.
  revert client_key.
  induction all_cookies as [|c rest IH]; intros client_key; simpl; ret_walk;
    apply IH.
Qed.
End StagesReturn.

Ltac ret_callee ::=
  lazymatch goal with
  | |- returns _ (pass_check_loop _ _) => apply pass_check_loop_returns
  | |- returns _ (click_continue _ _) => apply click_continue_returns
  | |- returns _ (scan_cookies _ _) => apply scan_cookies_returns
  end.

Section AttemptReturns.
Context {py : PyRuntime} {ids : MailIds} {env : Env}.

(** Every [return] inside the [try] block of an attempt is a
    [return False] (lines 191 and 221). *)
Lemma attempt_steps_returns_false d server_url :
  returns (fun v => v = false) (attempt_steps d server_url).
Proof.
  unfold attempt_steps, reach_signup, fill_form, pass_check_stage,
    verify_and_extract, await_code, enter_code, extract_and_publish,
    read_cookies, publish_key.
  ret_walk.
Qed.
End AttemptReturns.

(** ** The outcome of an attempt *)

Section AttemptOutcome.
Context {py : PyRuntime} {ids : MailIds} {env : Env}.

Lemma steps_event_no_chrome (e : event) :
  steps_event e = true → is_chrome e = false.
Proof. revert e. alpha_side. Qed.

Lemma key_published_nonempty d tr v : key_published d tr v → tr ≠ [].
Proof. intros (pre & tail & jar & ck & -> & _). by destruct pre. Qed.

(** An attempt returns [True] only after it extracted the key (and wrote the
    [CLIENT_KEY] line); it never lets an [Exception] out of its [try] block:
    what it raises is either no [Exception] ([KeyboardInterrupt] and the
    like) or an error of the imports other than [ImportError], before any
    browser was started; and it starts one browser at most. *)
Theorem register_one_account_outcome {L R : Type} current_idx total_count
    server_url headless (s : state L) :
  let r := register_one_account (R:=R) current_idx total_count server_url
             headless s in
  (out r = Normal true → ∃ d v, key_published d (emitted r) v) ∧
  (∀ e, out r = Raised e →
     e = BaseException ∨
     is_ImportError e = false ∧
     emitted r = [EvPrint (BannerLine current_idx total_count);
                  EvCall ImportDeps (Raise e)]) ∧
  (∀ v, out r ≠ Returned v) ∧
  (length (List.filter is_chrome (emitted r)) ≤ 1)%nat.
Proof.
  wp_start (register_one_account (L:=L) (R:=R) current_idx total_count
              server_url headless) s.
  unfold register_one_account, register_one_account_body, attempt_body,
    close_driver.
  wp_steps.
  all: try solve [subst Q; red_run; split_and!; try done; try (simpl; lia);
                  intros ? [= <-]; destruct e; auto].
  match goal with |- wp (attempt_steps ?d ?u) ?s1 _ =>
    wp_use (conj (attempt_steps_run d u s1)
              (conj (attempt_steps_keeps_driver d u s1)
                 (conj (attempt_steps_events d u s1)
                       (attempt_steps_returns_false d u s1))))
  end.
  destruct post0 as [[dr su] w1 c1]. red_run_in Hrun.
  destruct Hrun as (Hk & -> & Hev & Hret).
  pose proof (filter_quiet _ _ _ Hev steps_event_no_chrome) as Hchrome.
  destruct out0 as [[]|e|v]; red_run; wp_steps.
  all: subst Q; red_run.
  all: split_and!; try done.
  all: try (rewrite <- ?app_assoc; cbn [app]; simpl;
            rewrite ?List.filter_app, ?Hchrome; simpl; lia).
  all: try (intros ? [= <-]; left; by destruct e).
  all: intros [= ->].
  all: try (by specialize (Hret true eq_refl)).
  all: destruct Hk as [[Hq [=]]|(key & Hkp & _)].
  all: exists x0, key; key_published_tac.
Qed.
End AttemptOutcome.

(** ** The schedule of a batch *)

Section Schedule.
Context {py : PyRuntime} {ids : MailIds} {env : Env}.

Lemma steps_event_no_mark (e : event) :
  steps_event e = true → mark_of e = None.
Proof. revert e. alpha_side. Qed.

Lemma marks_quiet (alpha : event → bool) (t : list event) :
  Forall (fun e => alpha e = true) t →
  (∀ e, alpha e = true → mark_of e = None) →
  marks t = [].
Proof.
  intros Ht Hp. induction Ht as [|e t He _ IH]; [done|].
  unfold marks in *. simpl. by rewrite (Hp e He).
Qed.

(** The only landmark of an attempt is its banner. *)
Lemma register_one_account_marks {L R} current_idx total_count server_url
    headless (s : state L) :
  marks (emitted (register_one_account (R:=R) current_idx total_count
                    server_url headless s))
  = [MBanner current_idx total_count].
Proof.
  wp_start (register_one_account (L:=L) (R:=R) current_idx total_count
              server_url headless) s.
  unfold register_one_account, register_one_account_body, attempt_body,
    close_driver.
  wp_steps.
  all: try solve [by subst Q].
  match goal with |- wp (attempt_steps ?d ?u) ?s1 _ =>
    wp_use (conj (attempt_steps_events d u s1) (attempt_steps_keeps_driver d u s1))
  end.
  destruct post0 as [[dr su] w1 c1]. red_run_in Hrun.
  destruct Hrun as [Hev ->].
  pose proof (marks_quiet _ _ Hev steps_event_no_mark) as Hno.
  destruct out0 as [[]|e|v]; red_run; wp_steps.
  all: subst Q; red_run; unfold marks in *.
  all: rewrite ?omap_app, ?Hno; simpl; rewrite ?omap_app, ?Hno; done.
Qed.

Lemma batch_loop_schedule {L R} todo i total_num server_url headless
    success_count (s : state L) :
  ((0 < todo)%nat → Z.of_nat todo + i = total_num) →
  let r := batch_loop (R:=R) todo i total_num server_url headless
             success_count s in
  ∀ n, out r = Normal n →
    match todo with
    | O => marks (emitted r) = []
    | S todo' =>
        ∃ ws, length ws = todo' ∧
              Forall (fun w => (8 ≤ w ≤ 15)%N) ws ∧
              marks (emitted r) = schedule total_num (i + 1) ws
    end.
Proof.
  revert i success_count s.
  induction todo as [|todo IH]; intros i success_count s Hinv; [done|].
  wp_start (batch_loop (L:=L) (R:=R) (S todo) i total_num server_url headless
              success_count) s.
  cbn [batch_loop]. wp_step.
  match goal with |- wp _ ?s0 _ =>
    wp_use (conj (register_one_account_marks (L:=L) (R:=R) (i + 1) total_num
                    server_url headless s0)
                 (register_one_account_never_returned (L:=L) (R:=R) (i + 1)
                    total_num server_url headless s0))
  end.
  destruct Hrun as [Hmarks Hret].
  destruct out0 as [ok|e|v]; [|by subst Q|by destruct (Hret v)].
  red_run. wp_steps.
  all: match goal with |- wp (batch_loop _ ?i' _ _ _ ?c) ?s1 _ =>
         wp_use (IH i' c s1 ltac:(lia)) end.
  all: specialize (Hinv ltac:(lia)).
  all: subst Q; red_run; intros m ->; specialize (Hrun m eq_refl).
  all: unfold marks in *; rewrite ?omap_app, ?Hmarks; simpl.
  - apply Z.ltb_lt in Hif. destruct todo as [|todo']; [lia|].
    destruct Hrun as (ws & Hlen & Hws & ->).
    change (15 - 8 + 1)%N with 8%N.
    set (wait_time := (8 + n `mod` 8)%N).
    assert (8 ≤ wait_time ≤ 15)%N as Hrange.
    { subst wait_time.
      assert (n `mod` 8 < 8)%N as Hmod by (by apply N.mod_upper_bound).
      revert Hmod. generalize (n `mod` 8)%N. intros k Hk. lia. }
    exists (wait_time :: ws). split_and!; [by rewrite <- Hlen|by constructor|].
    replace (8 <=? wait_time)%N with true by (symmetry; apply N.leb_le; lia).
    done.
  - apply Z.ltb_ge in Hif. destruct todo as [|todo']; [|lia].
    exists []. split_and!; [done|constructor|]. by rewrite Hrun.
Qed.

(** [main] runs the attempts one after the other, numbered from 1 to
    [count]; between two attempts it announces a rest of 8 to 15 seconds and
    pauses for that time; there is no rest after the last attempt, and no
    attempt at all when [count] is not positive. *)
Theorem main_schedule {L R : Type} (a : args) (s : state L) (code : Z) :
  let r := main (R:=R) a s in
  out r = Normal code →
  (count a ≤ 0 → marks (emitted r) = [] ∧ code = 1) ∧
  (0 < count a →
   ∃ ws, length ws = Z.to_nat (count a - 1) ∧
         Forall (fun w => (8 ≤ w ≤ 15)%N) ws ∧
         marks (emitted r) = schedule (count a) 1 ws).
Proof.
  wp_start (main (L:=L) (R:=R) a) s. unfold main. wp_steps.
  match goal with |- wp (batch_loop ?n ?i ?t ?u ?h ?c) ?s1 _ =>
    wp_use (conj (batch_loop_schedule (L:=unit) (R:=Z) n i t u h c s1)
                 (batch_loop_run (L:=unit) (R:=Z) n i t u h c s1))
  end.
  destruct Hrun as [Hsched Hcount].
  destruct out0 as [n|e|v]; [|by subst Q..].
  wp_steps. subst Q. red_run. intros [= <-].
  unfold marks in *. rewrite ?omap_app. simpl. rewrite app_nil_r.
  split.
  - intros Hle. replace (Z.to_nat (count a)) with O in * by lia.
    destruct Hcount as [-> Hatt].
    assert (List.filter is_success emitted0 = []) as ->.
    { apply length_zero_iff_nil.
      pose proof (filter_length_le is_success emitted0) as Hs.
      assert (List.filter is_attempt emitted0 = []) as Hnil
        by by apply length_zero_iff_nil.
      clear -Hnil. induction emitted0 as [|e t IH]; [done|].
      simpl in *. pose proof (is_success_is_attempt e) as He.
      destruct (is_attempt e); [done|].
      destruct (is_success e); [by specialize (He eq_refl)|]. by apply IH. }
    split; [|done]. apply (Hsched ltac:(lia) _ eq_refl).
  - intros Hpos. destruct (Z.to_nat (count a)) as [|todo] eqn:Htodo; [lia|].
    destruct (Hsched ltac:(lia) _ eq_refl) as (ws & Hlen & Hws & Hm).
    exists ws. split_and!; [lia|done|done].
Qed.
End Schedule.

Lemma main_schedule_witness :
  let r := main (env:=sim_env) (L:=unit) (R:=unit) (Args 3 [] false)
             (sim_start tt no_deps_world) in
  (3 ≤ 0 → marks (emitted r) = [] ∧ 1 = 1) ∧
  (0 < 3 →
   ∃ ws, length ws = Z.to_nat (3 - 1) ∧
         Forall (fun w => (8 ≤ w ≤ 15)%N) ws ∧
         marks (emitted r) = schedule 3 1 ws).
Proof.
  apply (main_schedule (py:=sim_runtime) (env:=sim_env) (L:=unit) (R:=unit)
           (Args 3 [] false) (sim_start tt no_deps_world) 1).
  vm_compute. reflexivity.
Defined.

Example main_schedule_of_three :
  marks (emitted (main (env:=sim_env) (L:=unit) (R:=unit) (Args 3 [] false)
                    (sim_start tt no_deps_world)))
  = [MBanner 1 3; MRest 8; MPause 8; MBanner 2 3; MRest 8; MPause 8; MBanner 3 3].
Proof. vm_compute. reflexivity. Qed.

(** ** The scan of the cookie jar *)

Section CookieScan.
Context {py : PyRuntime} {ids : MailIds} {env : Env}.

Lemma client_key_after_named (jar : list cookie) (client_key : option str) :
  Forall (fun c => c_name c ≠ None) jar →
  client_key_after jar client_key
  = Some (match last (List.filter is_client_cookie jar) with
          | Some c => c_value c
          | None => client_key
          end).
Proof.
  intros Hnamed. revert client_key.
  induction Hnamed as [|c jar Hc _ IH]; intros client_key; [done|].
  cbn [client_key_after List.filter]. unfold is_client_cookie at 1.
  destruct (c_name c) as [name|] eqn:Hname; [|done].
  rewrite IH. f_equal.
  destruct (decide (name = lit "__client")) as [->|Hne].
  - rewrite !bool_decide_eq_true_2 by done.
    destruct (List.filter is_client_cookie jar) as [|c' l] eqn:Hf; [done|].
    rewrite !last_cons. by destruct (last l).
  - rewrite !bool_decide_eq_false_2; [done| |done]. by intros [= ->].
Qed.

Lemma client_key_after_nameless (jar : list cookie) (client_key : option str) :
  Exists (fun c => c_name c = None) jar →
  client_key_after jar client_key = None.
Proof.
  intros Hex. revert client_key.
  induction Hex as [c jar Hc|c jar _ IH]; intros client_key;
    cbn [client_key_after].
  - by rewrite Hc.
  - destruct (c_name c); [apply IH|done].
Qed.

(** The loop over the cookies keeps the value of the last cookie named
    [__client], whatever its domain, and the value that the variable had
    when there is none; a cookie of that name without a value resets the
    variable to [None].  A cookie without a name anywhere in the jar makes
    the loop raise, even after a key was seen.  The loop calls nothing
    outside. *)
Theorem scan_cookies_last_client {L R : Type} (all_cookies : list cookie)
    (client_key : option str) (s : state L) :
  let r := scan_cookies (R:=R) all_cookies client_key s in
  post r = s ∧
  (Forall (fun c => c_name c ≠ None) all_cookies →
   out r = Normal (match last (List.filter is_client_cookie all_cookies) with
                   | Some c => c_value c
                   | None => client_key
                   end)) ∧
  (Exists (fun c => c_name c = None) all_cookies →
   out r = Raised Exception).
Proof.
  destruct (scan_cookies_run (R:=R) all_cookies client_key s) as [Hpost Hout].
  split_and!; [done|..].
  - intros Hnamed. by rewrite Hout, client_key_after_named.
  - intros Hex. by rewrite Hout, client_key_after_nameless.
Qed.
End CookieScan.

Example scan_cookies_value_reset :
  out (scan_cookies (env:=sim_env) (L:=unit) (R:=unit)
         [Cookie (Some (lit "__client")) (lit "clerk.orchids.app")
                 (Some (lit "tok_clerk"));
          Cookie (Some (lit "__client")) (lit "orchids.app") None]
         None (sim_start tt happy_world))
  = Normal None.
Proof. vm_compute. reflexivity. Qed.

Example scan_cookies_nameless :
  out (scan_cookies (env:=sim_env) (L:=unit) (R:=unit)
         [Cookie (Some (lit "__client")) (lit "clerk.orchids.app")
                 (Some (lit "tok_clerk"));
          Cookie None (lit "orchids.app") (Some (lit "x"))]
         None (sim_start tt happy_world))
  = Raised Exception.
Proof. vm_compute. reflexivity. Qed.

(** ** The username page *)

Section Buttons.
Context {py : PyRuntime} {ids : MailIds} {env : Env}.

(** Lines 240-243: the texts of the buttons are read in order; the first
    button whose text holds "Continue" is clicked and the loop stops there,
    so that no other button is read or clicked; when reading a text raises,
    the loop ends with that exception. *)
Theorem click_continue_first_match {L R : Type} (d : handle)
    (btns : list elem) (s : state L) :
  let r := click_continue (R:=R) d btns s in
  ∃ before rest pre,
    btns = before ++ rest ∧ passed_over d before pre ∧
    ((rest = [] ∧ emitted r = pre ∧ out r = Normal tt) ∨
     (∃ btn tl e,
        rest = btn :: tl ∧
        emitted r = pre ++ [EvCall (Drv d (ElemText btn)) (Raise e)] ∧
        out r = Raised e) ∨
     (∃ btn tl text rp,
        rest = btn :: tl ∧ contains (lit "Continue") text = true ∧
        emitted r = pre ++ [EvCall (Drv d (ElemText btn)) (Ok text);
                            EvCall (Drv d (Click btn)) rp] ∧
        out r = match rp with Ok _ => Normal tt | Raise e => Raised e end)).
Proof.
  revert s. induction btns as [|btn btns IH]; intros s.
  { exists [], [], []. split_and!; [done|constructor|]. by left. }
  wp_start (click_continue (L:=L) (R:=R) d (btn :: btns)) s.
  cbn [click_continue]. wp_step. wp_step.
  2: { subst Q. red_run. exists [], (btn :: btns), [].
       split_and!; [done|constructor|]. right. left. by eexists _, _, _. }
  wp_step.
  - wp_step.
    all: subst Q; red_run; exists [], (btn :: btns), [].
    all: split_and!; [done|constructor|]; right; right.
    + destruct x0. by exists btn, btns, x, (Ok tt).
    + by exists btn, btns, x, (Raise e).
  - match goal with |- wp _ ?s1 _ => wp_use (IH s1) end.
    destruct Hrun as (before & rest & pre & -> & Hpre & Hcases).
    subst Q. red_run.
    exists (btn :: before), rest,
           (EvCall (Drv d (ElemText btn)) (Ok x) :: pre).
    split_and!; [done|constructor; eauto|].
    destruct Hcases as [(-> & -> & ->)
                       |[(b & tl & e & -> & -> & ->)
                        |(b & tl & text & rp & -> & Ht & -> & ->)]].
    + by left.
    + right. left. by eexists _, _, _.
    + right. right. by eexists _, _, _, _.
Qed.
End Buttons.

Section Username.
Context {py : PyRuntime} {ids : MailIds} {env : Env}.

Local Arguments lit : simpl never.
Local Arguments str_of_N : simpl never.

Lemma randint_range (a b n : N) :
  (a ≤ b)%N → (a ≤ a + n `mod` (b - a + 1) ≤ b)%N.
Proof.
  intros Hab.
  assert (n `mod` (b - a + 1) < b - a + 1)%N as Hmod
    by (apply N.mod_upper_bound; lia).
  revert Hmod. generalize (n `mod` (b - a + 1))%N. intros k Hk. lia.
Qed.

Lemma click_continue_clicks {L R} d btns (s : state L) :
  let r := click_continue (R:=R) d btns s in
  (length (List.filter is_click (emitted r)) ≤ 1)%nat ∧
  omap typed_keys (emitted r) = [].
Proof.
  revert s. induction btns as [|btn btns IH]; intros s.
  { split; [simpl; lia|done]. }
  wp_start (click_continue (L:=L) (R:=R) d (btn :: btns)) s.
  cbn [click_continue]. wp_steps.
  all: try match goal with |- wp _ ?s1 _ => wp_use (IH s1) end.
  all: subst Q; red_run; simpl; try (split; [lia|done]).
  done.
Qed.

(** Lines 234-244: the username page.  Once the address of the page was
    read, nothing that goes wrong in this step gets out of it; when that
    address does not hold "sign-up" the step does nothing else; the only
    keys it types are "User" followed by a number from 1000 to 9999; and it
    clicks one button at most. *)
Theorem username_step_contained {L R : Type} (d : handle) (s : state L) :
  let r := username_step (R:=R) d s in
  out r = (match (answer str (Drv d CurrentUrl) (world s)).1.1 with
           | Ok _ => Normal tt
           | Raise e => Raised e
           end) ∧
  (∀ url, (answer str (Drv d CurrentUrl) (world s)).1.1 = Ok url →
          contains (lit "sign-up") url = false →
          emitted r = [EvCall (Drv d CurrentUrl) (Ok url)]) ∧
  (omap typed_keys (emitted r) = [] ∨
   ∃ n, (1000 ≤ n ≤ 9999)%N ∧
        omap typed_keys (emitted r) = [lit "User" ++ str_of_N n]) ∧
  (length (List.filter is_click (emitted r)) ≤ 1)%nat.
Proof.
  wp_start (username_step (L:=L) (R:=R) d) s. unfold username_step.
  wp_steps.
  all: try match goal with |- wp (click_continue _ ?b) ?s1 _ =>
         wp_use (conj (click_continue_clicks (L:=L) (R:=R) d b s1)
                   (click_continue_returns (L:=L) (R:=R) (fun _ => False)
                      d b s1));
         destruct Hrun as [[Hclicks Hkeys] Hret];
         destruct out0 as [?|?|v]; [| |by destruct (Hret v)]; wp_steps
       end.
  all: subst Q; red_run; rewrite Hanswer; cbn [fst].
  all: rewrite ?omap_app, ?List.filter_app, ?length_app, ?Hkeys;
    cbn -[lit str_of_N].
  all: repeat match goal with u : unit |- _ => destruct u end.
  all: split_and!; try done; try lia; try (intros ? [= <-]; congruence).
  all: try (by left).
  all: right; eexists; split; [|reflexivity]; by apply randint_range.
Qed.
End Username.
